(** * pytorch_wrapper.system: the training engine and the model facade

    A shallow embedding of [src/pytorch_wrapper/system.py]: the [System]
    facade ([predict_batch], [evaluate], [to], [load_model_state],
    [train], [train_on_multi_gpus]) and the [_Trainer] engine ([__init__],
    [run], [_train_epoch], [_train_batch], [_train_evaluation]).

    Python objects live in a store; computations are functions from the
    store to an outcome, which is a normal return or a raised exception,
    both with the store at that point.  The tensor runtime (parameters,
    gradients, optimizer moments, the private state of user objects) is an
    opaque [World]; its operations are the fields of [Collaborators].
    Console output (tqdm, timing) is not modelled. *)

From Stdlib Require Import ZArith List Bool Lia String.
From stdpp Require Import base tactics option list gmap strings.


(** ** Exceptions and the outcome monad *)

Inductive Exn : Type :=
| KeyError (key : string)
| AttributeError (name : string)
| AssertionError (msg : string)
| ZeroDivisionError
| RuntimeError (code : Z).

Inductive outcome (S A : Type) : Type :=
| Ret (a : A) (s : S)
| Raise (e : Exn) (s : S).
Arguments Ret {S A} a s.
Arguments Raise {S A} e s.

Definition M (S A : Type) : Type := S -> outcome S A.

Definition ret {S A} (a : A) : M S A := fun s => Ret a s.

Definition bind {S A B} (m : M S A) (k : A -> M S B) : M S B :=
  fun s => match m s with
           | Ret a s' => k a s'
           | Raise e s' => Raise e s'
           end.

Definition raise {S A} (e : Exn) : M S A := fun s => Raise e s.
Definition gets {S A} (f : S -> A) : M S A := fun s => Ret (f s) s.
Definition modify {S} (f : S -> S) : M S unit := fun s => Ret tt (f s).

Notation "x <- m ;; k" := (bind m (fun x => k))
  (at level 20, m at level 99, k at level 200, only parsing).
Notation "m ;; k" := (bind m (fun _ => k))
  (at level 100, k at level 200, right associativity, only parsing).

(** [for x in l: body x] *)
Fixpoint for_each {S A} (body : A -> M S unit) (l : list A) : M S unit :=
  match l with
  | [] => ret tt
  | x :: l' => body x ;; for_each body l'
  end.

(** [for i, x in enumerate(l): acc = body i x acc], counting from [i]. *)
Fixpoint for_enumerate {S A B} (body : Z -> A -> B -> M S B)
    (i : Z) (l : list A) (acc : B) : M S B :=
  match l with
  | [] => ret acc
  | x :: l' => acc' <- body i x acc ;; for_enumerate body (i + 1) l' acc'
  end.

(** ** Python dicts: insertion-ordered, keyed by strings *)

Definition dict (V : Type) : Type := list (string * V).

Definition dict_keys {V} (d : dict V) : list string := map fst d.

Fixpoint dict_get {V} (k : string) (d : dict V) : option V :=
  match d with
  | [] => None
  | (k', v) :: d' => if String.eqb k k' then Some v else dict_get k d'
  end.

(** [d[k] = v]: replaces the value of an existing key where it stands,
    appends a new key at the end. *)
Fixpoint dict_set {V} (k : string) (v : V) (d : dict V) : dict V :=
  match d with
  | [] => [(k, v)]
  | (k', v') :: d' =>
      if String.eqb k k' then (k, v) :: d' else (k', v') :: dict_set k v d'
  end.

(** [d[k]] as an expression. *)
Definition subscript {S V} (d : dict V) (k : string) : M S V :=
  match dict_get k d with
  | Some v => ret v
  | None => raise (KeyError k)
  end.

(** ** Devices and modules *)

Inductive Device : Type :=
| cpu
| cuda (index : option Z).

(** An [nn.Module] as far as the facade looks at it: its mode flag, where
    its parameters reside, and the [nn.DataParallel] layers around it. *)
Inductive Model : Type :=
| Net (training : bool) (placement : Device)
| DataParallel (training : bool) (module : Model)
    (device_ids : option (list Z)) (output_device : option Device) (dim : Z).

(** [m.train(mode)]: sets the flag on the module and on its children. *)
Fixpoint model_train (mode : bool) (m : Model) : Model :=
  match m with
  | Net _ p => Net mode p
  | DataParallel _ inner ids out dim =>
      DataParallel mode (model_train mode inner) ids out dim
  end.

(** [m.to(device)]: moves the parameters, in place. *)
Fixpoint model_to (d : Device) (m : Model) : Model :=
  match m with
  | Net t _ => Net t d
  | DataParallel t inner ids out dim =>
      DataParallel t (model_to d inner) ids out dim
  end.

Definition model_training (m : Model) : bool :=
  match m with
  | Net t _ => t
  | DataParallel t _ _ _ _ => t
  end.

Fixpoint model_placement (m : Model) : Device :=
  match m with
  | Net _ p => p
  | DataParallel _ inner _ _ _ => model_placement inner
  end.

Definition is_data_parallel (m : Model) : bool :=
  match m with
  | Net _ _ => false
  | DataParallel _ _ _ _ _ => true
  end.

(** A fresh [nn.Module] is constructed in training mode. *)
Definition new_data_parallel (m : Model) (ids : option (list Z))
    (out : option Device) (dim : Z) : Model :=
  DataParallel true m ids out dim.

(** ** The callback protocol *)

Inductive Hook : Type :=
| on_training_start | on_training_end
| on_epoch_start | on_epoch_end
| on_batch_start | post_predict | post_loss_calculation
| post_backward_calculation | pre_optimization_step | on_batch_end
| on_evaluation_start | on_evaluation_end.

(** What the engine does, in the order it does it.  [AHook h i] is the
    call of hook [h] on the callback at position [i] of the list;
    [AModelCall g] is a forward pass with gradient tracking [g]. *)
Inductive Action : Type :=
| AHook (h : Hook) (idx : nat)
| AModelTrain (mode : bool)
| AModelCall (grad : bool)
| ACalculateLoss
| ABackward
| AOptimizerStep
| AOptimizerZeroGrad
| ALossItem
| AEvaluatorReset (name : string)
| AEvaluatorStep (name : string)
| AEvaluatorCalculate (name : string)
| AResultsAppend.

(** ** The tensor runtime and the collaborators *)

Class Runtime : Type := {
  Tensor : Type;
  Output : Type;
  Loss : Type;
  Scalar : Type;
  Result : Type;
  LastActivation : Type;
  LossWrapper : Type;
  Optimizer : Type;
  File : Type;
  World : Type;
  tensor_to : Device -> Tensor -> Tensor;
}.

Section Objects.
Context `{Runtime}.

(** The value under a batch key: one tensor, or a list or tuple of them. *)
Inductive BatchValue : Type :=
| One (t : Tensor)
| Many (ts : list Tensor).

Definition Batch : Type := dict BatchValue.
Definition DataLoader : Type := list Batch.

Record System : Type := {
  model : Model;
  last_activation : option LastActivation;
  _device : Device;
}.

(** Results of one evaluation phase: dataset name, then evaluator name. *)
Definition EpochResults : Type := dict (dict Result).

(** The dict [_Trainer.training_context].  Its key ['system'] holds a
    reference to the facade, which is the [system] slot of the store. *)
Record TrainingContext : Type := {
  _results_history : list EpochResults;
  loss_wrapper : LossWrapper;
  optimizer : Optimizer;
  stop_training : bool;
  _current_epoch : Z;
  current_batch : option Batch;
  current_output : option Output;
  current_loss : option Loss;
}.

(** What a hook or a loss wrapper reaches through the context it gets. *)
Record View : Type := {
  v_context : TrainingContext;
  v_system : System;
  v_world : World;
}.

(** An [AbstractEvaluator]; its accumulated state is part of [World]. *)
Record Evaluator : Type := {
  ev_reset : M World unit;
  ev_step : Output -> Batch -> option LastActivation -> M World unit;
  ev_calculate : M World Result;
}.

(** [missing_keys] and [unexpected_keys]. *)
Definition InvalidKeys : Type := (list string * list string)%type.

End Objects.

Class Collaborators `{Runtime} : Type := {
  (** [self.model] applied to the batch inputs *)
  model_call : Model -> list Tensor -> M World Output;
  (** [loss_wrapper.calculate_loss(output, batch, training_context,
      last_activation)]; [output] is what the context slot holds then. *)
  calculate_loss :
    LossWrapper -> option Output -> Batch -> option LastActivation ->
    M View Loss;
  (** [loss.backward()] and [loss.item()] *)
  loss_backward : Loss -> M World unit;
  loss_item : Loss -> M World Scalar;
  optimizer_step : Optimizer -> M World unit;
  optimizer_zero_grad : Optimizer -> M World unit;
  scalar_zero : Scalar;
  scalar_add : Scalar -> Scalar -> Scalar;
  (** [torch.cuda.is_available()] *)
  cuda_is_available : World -> bool;
  (** [torch.load(f, map_location=cpu)] of a saved state dict *)
  torch_load : File -> M World (dict Tensor);
  (** [module.load_state_dict(state, strict)] *)
  load_state_dict : Model -> dict Tensor -> bool -> M World InvalidKeys;
}.

(** ** Callbacks and the store *)

Section Store.
Context `{Runtime}.

(** A [TrainingCallback] object.  [UserCallback sc hooks] is an object of
    a user class: [sc] tells whether the class derives from
    [StoppingCriterionCallback], [hooks] are its methods (its private
    state is part of [World]). *)
Inductive Callback : Type :=
| NumberOfEpochsStoppingCriterionCallback (nb_of_epochs : Z)
| UserCallback (stopping_criterion : bool) (hooks : Hook -> M View unit).

(** [issubclass(type(cb), StoppingCriterionCallback)] *)
Definition is_stopping_criterion (cb : Callback) : bool :=
  match cb with
  | NumberOfEpochsStoppingCriterionCallback _ => true
  | UserCallback sc _ => sc
  end.

Definition set_stop_training (b : bool) (c : TrainingContext) : TrainingContext :=
  {| _results_history := _results_history c; loss_wrapper := loss_wrapper c;
     optimizer := optimizer c; stop_training := b;
     _current_epoch := _current_epoch c; current_batch := current_batch c;
     current_output := current_output c; current_loss := current_loss c |}.

Definition set_current_epoch (e : Z) (c : TrainingContext) : TrainingContext :=
  {| _results_history := _results_history c; loss_wrapper := loss_wrapper c;
     optimizer := optimizer c; stop_training := stop_training c;
     _current_epoch := e; current_batch := current_batch c;
     current_output := current_output c; current_loss := current_loss c |}.

Definition set_results_history (h : list EpochResults) (c : TrainingContext)
    : TrainingContext :=
  {| _results_history := h; loss_wrapper := loss_wrapper c;
     optimizer := optimizer c; stop_training := stop_training c;
     _current_epoch := _current_epoch c; current_batch := current_batch c;
     current_output := current_output c; current_loss := current_loss c |}.

Definition set_current_batch (b : option Batch) (c : TrainingContext)
    : TrainingContext :=
  {| _results_history := _results_history c; loss_wrapper := loss_wrapper c;
     optimizer := optimizer c; stop_training := stop_training c;
     _current_epoch := _current_epoch c; current_batch := b;
     current_output := current_output c; current_loss := current_loss c |}.

Definition set_current_output (o : option Output) (c : TrainingContext)
    : TrainingContext :=
  {| _results_history := _results_history c; loss_wrapper := loss_wrapper c;
     optimizer := optimizer c; stop_training := stop_training c;
     _current_epoch := _current_epoch c; current_batch := current_batch c;
     current_output := o; current_loss := current_loss c |}.

Definition set_current_loss (l : option Loss) (c : TrainingContext)
    : TrainingContext :=
  {| _results_history := _results_history c; loss_wrapper := loss_wrapper c;
     optimizer := optimizer c; stop_training := stop_training c;
     _current_epoch := _current_epoch c; current_batch := current_batch c;
     current_output := current_output c; current_loss := l |}.

(** Modelled from the spec: [NumberOfEpochsStoppingCriterionCallback] of
    [pytorch_wrapper/training_callbacks.py], which is not among the
    sources.  The spec calls it the default stop after N epochs criterion
    and has a stopping criterion set the halt flag from within a hook,
    idiomatically [on_epoch_end]: at the end of an epoch the flag is set
    once [nb_of_epochs] epochs are complete (the epoch index counts from
    zero).  The other hooks are the no-op bodies of the base class. *)
Definition number_of_epochs_hook (nb_of_epochs : Z) (h : Hook) : M View unit :=
  match h with
  | on_epoch_end =>
      fun v =>
        if (nb_of_epochs <=? _current_epoch (v_context v) + 1)%Z
        then Ret tt {| v_context := set_stop_training true (v_context v);
                       v_system := v_system v; v_world := v_world v |}
        else Ret tt v
  | _ => ret tt
  end.

(** [cb.h(training_context)] *)
Definition callback_hook (cb : Callback) (h : Hook) : M View unit :=
  match cb with
  | NumberOfEpochsStoppingCriterionCallback n => number_of_epochs_hook n h
  | UserCallback _ hooks => hooks h
  end.

(** The objects of a run.  [lists] holds the Python list objects that
    carry callbacks, by reference: the caller's list and the trainer's
    [self.callbacks] may be one object.  [log] records the engine's
    actions; each entry also keeps the value the halt flag had when the
    action was complete. *)
Record Store : Type := {
  system : System;
  training_context : TrainingContext;
  lists : gmap nat (list Callback);
  world : World;
  grad_enabled : bool;
  log : list (Action * bool);
}.

Definition set_system (x : System) (s : Store) : Store :=
  {| system := x; training_context := training_context s; lists := lists s;
     world := world s; grad_enabled := grad_enabled s; log := log s |}.

Definition set_context (c : TrainingContext) (s : Store) : Store :=
  {| system := system s; training_context := c; lists := lists s;
     world := world s; grad_enabled := grad_enabled s; log := log s |}.

Definition set_lists (l : gmap nat (list Callback)) (s : Store) : Store :=
  {| system := system s; training_context := training_context s; lists := l;
     world := world s; grad_enabled := grad_enabled s; log := log s |}.

Definition set_world (w : World) (s : Store) : Store :=
  {| system := system s; training_context := training_context s;
     lists := lists s; world := w; grad_enabled := grad_enabled s;
     log := log s |}.

Definition set_grad_enabled (g : bool) (s : Store) : Store :=
  {| system := system s; training_context := training_context s;
     lists := lists s; world := world s; grad_enabled := g; log := log s |}.

Definition set_log (l : list (Action * bool)) (s : Store) : Store :=
  {| system := system s; training_context := training_context s;
     lists := lists s; world := world s; grad_enabled := grad_enabled s;
     log := l |}.

Definition set_model (m : Model) (x : System) : System :=
  {| model := m; last_activation := last_activation x; _device := _device x |}.

Definition view (s : Store) : View :=
  {| v_context := training_context s; v_system := system s;
     v_world := world s |}.

Definition put_view (v : View) (s : Store) : Store :=
  {| system := v_system v; training_context := v_context v; lists := lists s;
     world := v_world v; grad_enabled := grad_enabled s; log := log s |}.

(** The actions of a log, without the flag values. *)
Definition actions (s : Store) : list Action := map fst (log s).

Definition record (a : Action) : M Store unit :=
  modify (fun s =>
    set_log (log s ++ [(a, stop_training (training_context s))]) s).

(** A call into the runtime. *)
Definition lift_world {A} (m : M World A) : M Store A :=
  fun s => match m (world s) with
           | Ret a w => Ret a (set_world w s)
           | Raise e w => Raise e (set_world w s)
           end.

(** A call of user code that receives the training context. *)
Definition lift_view {A} (m : M View A) : M Store A :=
  fun s => match m (view s) with
           | Ret a v => Ret a (put_view v s)
           | Raise e v => Raise e (put_view v s)
           end.

(** [with torch.no_grad(): body]; the previous mode comes back on every
    exit. *)
Definition with_no_grad {A} (body : M Store A) : M Store A :=
  fun s =>
    let prev := grad_enabled s in
    match body (set_grad_enabled false s) with
    | Ret a s' => Ret a (set_grad_enabled prev s')
    | Raise e s' => Raise e (set_grad_enabled prev s')
    end.

Definition modify_context (f : TrainingContext -> TrainingContext)
    : M Store unit :=
  modify (fun s => set_context (f (training_context s)) s).

(** [for x in l: acc = body x acc] *)
Fixpoint for_fold {S A B} (body : A -> B -> M S B) (l : list A) (acc : B)
    : M S B :=
  match l with
  | [] => ret acc
  | x :: l' => acc' <- body x acc ;; for_fold body l' acc'
  end.

(** [for x in l], with the position of [x] in the whole list. *)
Fixpoint for_indexed {T A} (body : nat -> A -> M T unit) (i : nat)
    (l : list A) : M T unit :=
  match l with
  | [] => ret tt
  | x :: l' => body i x ;; for_indexed body (S i) l'
  end.

End Store.

(** ** class System *)

Section Facade.
Context `{Collaborators}.

(** [System.__init__]: the facade with the model moved to [device] and
    put in inference mode. *)
Definition System__init__ (m : Model) (la : option LastActivation)
    (device : Device) : System :=
  {| model := model_train false (model_to device m);
     last_activation := la; _device := device |}.

(** [self.model.train(mode)] *)
Definition system_model_train (mode : bool) : M Store unit :=
  modify (fun s => set_system (set_model (model_train mode (model (system s)))
                                 (system s)) s) ;;
  record (AModelTrain mode).


(** [System.predict_batch] *)
Definition predict_batch (single_batch_input : BatchValue) : M Store Output :=
  let single_batch_input :=
    match single_batch_input with
    | One t => [t]
    | Many ts => ts
    end in
  device <- gets (fun s => _device (system s)) ;;
  let batch_inputs := map (tensor_to device) single_batch_input in
  m <- gets (fun s => model (system s)) ;;
  g <- gets grad_enabled ;;
  outputs <- lift_world (model_call m batch_inputs) ;;
  record (AModelCall g) ;;
  ret outputs.

(** [System.evaluate] *)
Definition evaluate (data_loader : DataLoader) (evaluators : dict Evaluator)
    (batch_input_key : string) : M Store (dict Result) :=
  system_model_train false ;;
  for_each (fun evaluator_name =>
      ev <- subscript evaluators evaluator_name ;;
      lift_world (ev_reset ev) ;;
      record (AEvaluatorReset evaluator_name))
    (dict_keys evaluators) ;;
  with_no_grad
    (for_each (fun batch =>
        input <- subscript batch batch_input_key ;;
        outputs <- predict_batch input ;;
        for_each (fun evaluator_name =>
            ev <- subscript evaluators evaluator_name ;;
            la <- gets (fun s => last_activation (system s)) ;;
            lift_world (ev_step ev outputs batch la) ;;
            record (AEvaluatorStep evaluator_name))
          (dict_keys evaluators))
      data_loader) ;;
  for_fold (fun evaluator_name results =>
      ev <- subscript evaluators evaluator_name ;;
      r <- lift_world (ev_calculate ev) ;;
      record (AEvaluatorCalculate evaluator_name) ;;
      ret (dict_set evaluator_name r results))
    (dict_keys evaluators) [].

(** [System.load_model_state] *)
Definition load_model_state (f : File) (strict : bool) : M Store InvalidKeys :=
  model_state <- lift_world (torch_load f) ;;
  m <- gets (fun s => model (system s)) ;;
  let model_state :=
    if is_data_parallel m
    then map (fun kv => (String.append "module." (fst kv), snd kv)) model_state
    else model_state in
  invalid_keys <- lift_world (load_state_dict m model_state strict) ;;
  modify (fun s => set_system (set_model (model_to (_device (system s))
                                            (model (system s)))
                                 (system s)) s) ;;
  ret invalid_keys.

(** ** class _Trainer *)

Record _Trainer : Type := {
  train_data_loader : DataLoader;
  evaluation_data_loaders : option (dict DataLoader);
  batch_input_key : string;
  evaluators : option (dict Evaluator);
  callbacks : nat;
  gradient_accumulation_steps : Z;
}.

(** [_Trainer.__init__]; [callbacks] is [None] or a reference to the
    caller's list. *)
Definition _Trainer__init__
    (loss_wrapper : LossWrapper) (optimizer : Optimizer)
    (train_data_loader : DataLoader)
    (evaluation_data_loaders : option (dict DataLoader))
    (batch_input_key : string) (evaluators : option (dict Evaluator))
    (callbacks : option nat) (gradient_accumulation_steps : Z)
    : M Store _Trainer :=
  modify (set_context
    {| _results_history := []; loss_wrapper := loss_wrapper;
       optimizer := optimizer; stop_training := false;
       _current_epoch := (-1)%Z; current_batch := None;
       current_output := None; current_loss := None |}) ;;
  let self l :=
    {| train_data_loader := train_data_loader;
       evaluation_data_loaders := evaluation_data_loaders;
       batch_input_key := batch_input_key; evaluators := evaluators;
       callbacks := l;
       gradient_accumulation_steps := gradient_accumulation_steps |} in
  match callbacks with
  | None =>
      l <- gets (fun s => fresh (dom (lists s))) ;;
      modify (fun s =>
        set_lists (<[l := [NumberOfEpochsStoppingCriterionCallback 1]]>
                     (lists s)) s) ;;
      ret (self l)
  | Some l =>
      cbs <- gets (fun s => default [] (lists s !! l)) ;;
      (if negb (existsb is_stopping_criterion cbs)
       then modify (fun s =>
              set_lists (<[l := cbs ++ [NumberOfEpochsStoppingCriterionCallback 1]]>
                           (lists s)) s)
       else ret tt) ;;
      ret (self l)
  end.

(** [for callback in self.callbacks: callback.h(self.training_context)] *)
Definition fire (self : _Trainer) (h : Hook) : M Store unit :=
  cbs <- gets (fun s => default [] (lists s !! callbacks self)) ;;
  for_indexed (fun i callback =>
      lift_view (callback_hook callback h) ;;
      record (AHook h i))
    0%nat cbs.

(** [_Trainer._train_batch] *)
Definition _train_batch (self : _Trainer) (batch : Batch)
    (perform_opt_step : bool) : M Store Scalar :=
  modify_context (set_current_batch (Some batch)) ;;
  fire self on_batch_start ;;
  input <- subscript batch (batch_input_key self) ;;
  outputs <- predict_batch input ;;
  modify_context (set_current_output (Some outputs)) ;;
  modify_context (set_current_batch None) ;;
  fire self post_predict ;;
  lw <- gets (fun s => loss_wrapper (training_context s)) ;;
  out <- gets (fun s => current_output (training_context s)) ;;
  la <- gets (fun s => last_activation (system s)) ;;
  loss <- lift_view (calculate_loss lw out batch la) ;;
  record ACalculateLoss ;;
  modify_context (set_current_loss (Some loss)) ;;
  modify_context (set_current_output None) ;;
  fire self post_loss_calculation ;;
  cur <- gets (fun s => current_loss (training_context s)) ;;
  match cur with
  | Some l => lift_world (loss_backward l)
  | None => raise (AttributeError "backward")
  end ;;
  record ABackward ;;
  fire self post_backward_calculation ;;
  (if perform_opt_step
   then
     fire self pre_optimization_step ;;
     opt <- gets (fun s => optimizer (training_context s)) ;;
     lift_world (optimizer_step opt) ;;
     record AOptimizerStep ;;
     opt <- gets (fun s => optimizer (training_context s)) ;;
     lift_world (optimizer_zero_grad opt) ;;
     record AOptimizerZeroGrad
   else ret tt) ;;
  cur <- gets (fun s => current_loss (training_context s)) ;;
  cur_batch_loss <-
    match cur with
    | Some l => lift_world (loss_item l)
    | None => raise (AttributeError "item")
    end ;;
  record ALossItem ;;
  fire self on_batch_end ;;
  modify_context (set_current_loss None) ;;
  ret cur_batch_loss.

(** [(i % k == 0) or (i == n - 1)] on Python integers. *)
Definition perform_opt_step_at (k n i : Z) : M Store bool :=
  if (k =? 0)%Z then raise ZeroDivisionError
  else ret ((i mod k =? 0)%Z || (i =? n - 1)%Z).

(** [_Trainer._train_epoch] *)
Definition _train_epoch (self : _Trainer) : M Store unit :=
  modify_context (fun c => set_current_epoch (_current_epoch c + 1)%Z c) ;;
  system_model_train true ;;
  fire self on_epoch_start ;;
  opt <- gets (fun s => optimizer (training_context s)) ;;
  lift_world (optimizer_zero_grad opt) ;;
  record AOptimizerZeroGrad ;;
  for_enumerate (fun i batch cum_loss =>
      perform_opt_step <-
        perform_opt_step_at (gradient_accumulation_steps self)
          (Z.of_nat (length (train_data_loader self))) i ;;
      l <- _train_batch self batch perform_opt_step ;;
      ret (scalar_add cum_loss l))
    0%Z (train_data_loader self) scalar_zero ;;
  fire self on_epoch_end.

(** [_Trainer._train_evaluation] *)
Definition _train_evaluation (self : _Trainer) : M Store unit :=
  match evaluation_data_loaders self, evaluators self with
  | Some loaders, Some evs =>
      fire self on_evaluation_start ;;
      current_results <-
        for_fold (fun current_dataset_name current_results =>
            loader <- subscript loaders current_dataset_name ;;
            current_dataset_results <-
              evaluate loader evs (batch_input_key self) ;;
            ret (dict_set current_dataset_name current_dataset_results
                   current_results))
          (dict_keys loaders) [] ;;
      modify_context (fun c =>
        set_results_history (_results_history c ++ [current_results]) c) ;;
      record AResultsAppend ;;
      fire self on_evaluation_end
  | _, _ => ret tt
  end.

(** The [while not self.training_context['stop_training']] loop of
    [run]; [None] when [fuel] iterations do not reach the exit. *)
Fixpoint training_loop (fuel : nat) (self : _Trainer) (s : Store)
    : option (outcome Store unit) :=
  if stop_training (training_context s) then Some (Ret tt s)
  else
    match fuel with
    | O => None
    | S fuel' =>
        match (_train_epoch self ;; _train_evaluation self) s with
        | Ret _ s' => training_loop fuel' self s'
        | Raise e s' => Some (Raise e s')
        end
    end.

(** [_Trainer.run] *)
Definition run (fuel : nat) (self : _Trainer) (s : Store)
    : option (outcome Store (list EpochResults)) :=
  match fire self on_training_start s with
  | Raise e s1 => Some (Raise e s1)
  | Ret _ s1 =>
      match training_loop fuel self s1 with
      | None => None
      | Some (Raise e s2) => Some (Raise e s2)
      | Some (Ret _ s2) =>
          Some ((fire self on_training_end ;;
                 system_model_train false ;;
                 gets (fun s => _results_history (training_context s))) s2)
      end
  end.

(** [System.train] *)
Definition train (fuel : nat)
    (loss_wrapper : LossWrapper) (optimizer : Optimizer)
    (train_data_loader : DataLoader)
    (evaluation_data_loaders : option (dict DataLoader))
    (batch_input_key : string) (evaluators : option (dict Evaluator))
    (callbacks : option nat) (gradient_accumulation_steps : Z) (s : Store)
    : option (outcome Store (list EpochResults)) :=
  match _Trainer__init__ loss_wrapper optimizer train_data_loader
          evaluation_data_loaders batch_input_key evaluators callbacks
          gradient_accumulation_steps s with
  | Ret trainer s1 => run fuel trainer s1
  | Raise e s1 => Some (Raise e s1)
  end.


End Facade.

(** ** class System, continued: prediction and persistence

    [predict], [pure_predict], [_pure_predict_convert_output], [save],
    [load], [save_model_state] and the [device] property.  What they call
    in the tensor runtime besides the collaborators above is the class
    [Library]. *)

(** A value that is a dict of such values, or a leaf:
    [type(output) is dict] tells which. *)
#[local] Set Warnings "-register-all".
Inductive Nested (T : Type) : Type :=
| Leaf (t : T)
| Dict (items : list (string * Nested T)).
#[local] Set Warnings "register-all".
Arguments Leaf {T} t.
Arguments Dict {T} items.

Section Saved.
Context `{Runtime}.

(** What a file holds: the dict that [save] writes, or the state dict that
    [save_model_state] writes. *)
Inductive Saved : Type :=
| SavedSystem (m : Model) (la : option LastActivation)
| SavedState (state : dict Tensor).

(** The dict [pure_predict] returns: the key ['batch_list'] is present
    when the field is [Some]. *)
Record PurePrediction : Type := {
  batch_list : option (list Batch);
  output_list : list (Nested Tensor);
}.

End Saved.

Class Library `{Collaborators} : Type := {
  (** an element of a Python list: of [t.tolist()], or of a list in a batch *)
  Item : Type;
  tensor_item : Tensor -> Item;
  (** [t.tolist()], [outputs.tolist()] *)
  tensor_tolist : Tensor -> M World (list Item);
  output_tolist : Output -> M World (list Item);
  (** [outputs[model_output_key]] *)
  output_getitem : Output -> string -> M World Output;
  (** [self.last_activation(outputs)] *)
  last_activation_call : LastActivation -> Output -> M World Output;
  (** the items of [output] when [type(output) is dict], down to the
      values that are not dicts *)
  output_nested : Output -> Nested Output;
  (** [output.detach().cpu()] *)
  output_detach_cpu : Output -> M World Tensor;
  (** [self.model.state_dict()] *)
  model_state_dict : Model -> M World (dict Tensor);
  (** [torch.save(model_state, f)] *)
  torch_save_state : dict Tensor -> File -> M World unit;
  (** [torch.save({'model': ..., 'last_activation': ...}, f)] *)
  torch_save_system : Model -> option LastActivation -> File -> M World unit;
  (** [torch.load(f, map_location=torch.device('cpu'))] *)
  torch_load_saved : File -> M World Saved;
}.

Section Prediction.
Context `{Library}.

(** The [device] property. *)
Definition device : M Store Device := gets (fun s => _device (system s)).

(** [System.predict]; [batch[batch_id_key]] is read once. *)
Definition predict (data_loader : DataLoader) (perform_last_activation : bool)
    (batch_id_key : option string) (batch_input_key : string)
    (model_output_key : option string) : M Store (dict (list Item)) :=
  lists_ <- with_no_grad
    (for_fold (fun batch (acc : list Item * list Item) =>
        let output_list := fst acc in
        let ids_list := snd acc in
        ids_list <-
          match batch_id_key with
          | Some key =>
              ids <- subscript batch key ;;
              match ids with
              | One t =>
                  l <- lift_world (tensor_tolist t) ;; ret (ids_list ++ l)
              | Many ts => ret (ids_list ++ map tensor_item ts)
              end
          | None => ret ids_list
          end ;;
        input <- subscript batch batch_input_key ;;
        outputs <- predict_batch input ;;
        outputs <-
          match model_output_key with
          | Some key => lift_world (output_getitem outputs key)
          | None => ret outputs
          end ;;
        la <- gets (fun s => last_activation (system s)) ;;
        outputs <-
          match la with
          | Some f =>
              if perform_last_activation
              then lift_world (last_activation_call f outputs)
              else ret outputs
          | None => ret outputs
          end ;;
        l <- lift_world (output_tolist outputs) ;;
        ret (output_list ++ l, ids_list))
      data_loader ([], [])) ;;
  match batch_id_key with
  | Some key =>
      ret (dict_set "outputs" (fst lists_) (dict_set key (snd lists_) []))
  | None => ret [("outputs"%string, fst lists_)]
  end.

(** [_pure_predict_convert_output] on the items of its argument: the loop
    [for k in output: converted_output[k] = ...(output[k])] goes through
    the items in order. *)
Fixpoint convert_nested (output : Nested Output) : M Store (Nested Tensor) :=
  match output with
  | Dict items =>
      converted_output <-
        (fix loop (items : list (string * Nested Output))
             (converted_output : dict (Nested Tensor))
             : M Store (dict (Nested Tensor)) :=
           match items with
           | [] => ret converted_output
           | (k, v) :: items' =>
               c <- convert_nested v ;;
               loop items' (dict_set k c converted_output)
           end) items [] ;;
      ret (Dict converted_output)
  | Leaf o =>
      converted_output <- lift_world (output_detach_cpu o) ;;
      ret (Leaf converted_output)
  end.

(** [System._pure_predict_convert_output] *)
Definition _pure_predict_convert_output (output : Output)
    : M Store (Nested Tensor) :=
  convert_nested (output_nested output).

(** [System.pure_predict] *)
Definition pure_predict (data_loader : DataLoader) (batch_input_key : string)
    (keep_batches : bool) : M Store PurePrediction :=
  lists_ <- with_no_grad
    (for_fold (fun batch (acc : list Batch * list (Nested Tensor)) =>
        let batch_list := if keep_batches then fst acc ++ [batch]
                          else fst acc in
        input <- subscript batch batch_input_key ;;
        output <- predict_batch input ;;
        output <- _pure_predict_convert_output output ;;
        ret (batch_list, snd acc ++ [output]))
      data_loader ([], [])) ;;
  if keep_batches
  then ret {| batch_list := Some (fst lists_); output_list := snd lists_ |}
  else ret {| batch_list := None; output_list := snd lists_ |}.

(** [System.save] *)
Definition save (f : File) : M Store unit :=
  m <- gets (fun s => model (system s)) ;;
  la <- gets (fun s => last_activation (system s)) ;;
  lift_world (torch_save_system m la f).

(** [System.load], a static method: the loaded dict is subscripted with
    ['model'] and ['last_activation'], then [System.__init__] runs with
    the default device.  A state dict has tensors under its keys, and a
    tensor has no [train]. *)
Definition load (f : File) : M Store System :=
  loaded_data <- lift_world (torch_load_saved f) ;;
  match loaded_data with
  | SavedSystem m la => ret (System__init__ m la cpu)
  | SavedState state =>
      subscript state "model" ;;
      subscript state "last_activation" ;;
      raise (AttributeError "train")
  end.

(** [k[len('module.'):]] *)
Fixpoint string_drop (n : nat) (k : string) : string :=
  match n, k with
  | O, _ => k
  | S n', String _ k' => string_drop n' k'
  | S _, EmptyString => EmptyString
  end.

(** [{f(k): v for k, v in d.items()}] *)
Definition dict_map_keys {V} (f : string -> string) (d : dict V) : dict V :=
  fold_left (fun acc kv => dict_set (f (fst kv)) (snd kv) acc) d [].

(** [System.save_model_state] *)
Definition save_model_state (f : File) : M Store unit :=
  m <- gets (fun s => model (system s)) ;;
  model_state <-
    (if is_data_parallel m
     then
       state <- lift_world (model_state_dict m) ;;
       ret (dict_map_keys (string_drop (String.length "module.")) state)
     else lift_world (model_state_dict m)) ;;
  lift_world (torch_save_state model_state f).

End Prediction.

(** * Vocabulary of the specifications *)

(** ** Optimization boundaries, hook order, step counts *)

(** An optimization boundary, in the spec's words: the zero-based batch
    index modulo the accumulation step count equals zero, or the batch is
    the last one of the epoch. *)
Definition optimization_boundary (k : Z) (nb i : nat) : Prop :=
  (Z.of_nat i mod k = 0)%Z \/ Z.of_nat i = (Z.of_nat nb - 1)%Z.

#[global] Instance optimization_boundary_dec k nb i :
  Decision (optimization_boundary k nb i).
Proof. unfold optimization_boundary. apply _. Defined.

#[global] Instance Hook_eq_dec : EqDecision Hook.
Proof. solve_decision. Defined.

#[global] Instance Action_eq_dec : EqDecision Action.
Proof. solve_decision. Defined.


Definition optimizer_steps (l : list Action) : nat :=
  count_occ Action_eq_dec l AOptimizerStep.





(** [ceil(a / b)] for positive [b]. *)
Definition ceil_div (a b : Z) : Z := ((a + b - 1) / b)%Z.

Definition outcome_store {S A} (o : outcome S A) : S :=
  match o with
  | Ret _ s => s
  | Raise _ s => s
  end.

(** ** What the constructors set up *)

Section Vocabulary.
Context `{Collaborators}.

(** Evaluation is configured: both mappings were supplied. *)
Definition evaluation_configured (self : _Trainer) : bool :=
  match evaluation_data_loaders self, evaluators self with
  | Some _, Some _ => true
  | _, _ => false
  end.

(** The list [_Trainer.__init__] leaves in [self.callbacks]. *)
Definition init_callbacks (callbacks : option nat) (s : Store)
    : list Callback :=
  match callbacks with
  | None => [NumberOfEpochsStoppingCriterionCallback 1]
  | Some l =>
      let cbs := default [] (lists s !! l) in
      if existsb is_stopping_criterion cbs then cbs
      else cbs ++ [NumberOfEpochsStoppingCriterionCallback 1]
  end.

(** The trainer object [_Trainer.__init__] sets up, with its callbacks in
    the list at [l]. *)
Definition trainer_for (loader : DataLoader)
    (evl : option (dict DataLoader)) (key : string)
    (evs : option (dict Evaluator)) (l : nat) (k : Z) : _Trainer :=
  {| train_data_loader := loader; evaluation_data_loaders := evl;
     batch_input_key := key; evaluators := evs; callbacks := l;
     gradient_accumulation_steps := k |}.

(** The callbacks the caller passed to [train]. *)
Definition supplied_callbacks (callbacks : option nat) (s : Store)
    : list Callback :=
  match callbacks with
  | None => []
  | Some l => default [] (lists s !! l)
  end.

(** The context dict that [_Trainer.__init__] creates. *)
Definition fresh_context (lw : LossWrapper) (opt : Optimizer)
    : TrainingContext :=
  {| _results_history := []; loss_wrapper := lw; optimizer := opt;
     stop_training := false; _current_epoch := (-1)%Z;
     current_batch := None; current_output := None; current_loss := None |}.




End Vocabulary.

(** ** The actions of the engine's blocks *)

Definition fire_actions (n : nat) (h : Hook) : list Action :=
  map (AHook h) (seq 0 n).

(** What [_train_batch] does, with [n] callbacks, tracking mode [g] and
    the boundary flag [p]. *)
Definition batch_actions (n : nat) (g p : bool) : list Action :=
  fire_actions n on_batch_start ++ [AModelCall g] ++
  fire_actions n post_predict ++ [ACalculateLoss] ++
  fire_actions n post_loss_calculation ++ [ABackward] ++
  fire_actions n post_backward_calculation ++
  (if p
   then fire_actions n pre_optimization_step ++
        [AOptimizerStep; AOptimizerZeroGrad]
   else []) ++
  [ALossItem] ++ fire_actions n on_batch_end.

(** The flag the epoch loop computes at index [i] of [nb] batches. *)
Definition is_boundary (k nb i : Z) : bool :=
  ((i mod k =? 0) || (i =? nb - 1))%Z.

Definition batches_actions (n : nat) (g : bool) (k : Z) (nb : nat)
    (from count : nat) : list Action :=
  concat (map (fun j => batch_actions n g
                          (is_boundary k (Z.of_nat nb) (Z.of_nat j)))
            (seq from count)).

Definition epoch_actions (n : nat) (g : bool) (k : Z) (nb : nat)
    : list Action :=
  [AModelTrain true] ++ fire_actions n on_epoch_start ++
  [AOptimizerZeroGrad] ++ batches_actions n g k nb 0 nb ++
  fire_actions n on_epoch_end.

(** What [evaluate] does for evaluators [names] on [nb] batches. *)
Definition evaluate_actions (names : list string) (nb : nat) : list Action :=
  [AModelTrain false] ++ map AEvaluatorReset names ++
  concat (repeat (AModelCall false :: map AEvaluatorStep names) nb) ++
  map AEvaluatorCalculate names.

(** The evaluation phase; [cfg] is [None] when it is not configured, else
    the sizes of the evaluation loaders and the evaluator names. *)
Definition evaluation_actions (n : nat) (cfg : option (list nat * list string))
    : list Action :=
  match cfg with
  | Some (sizes, names) =>
      fire_actions n on_evaluation_start ++
      concat (map (evaluate_actions names) sizes) ++
      [AResultsAppend] ++ fire_actions n on_evaluation_end
  | None => []
  end.

Definition iteration_actions (n : nat) (g : bool) (k : Z) (nb : nat)
    (cfg : option (list nat * list string)) : list Action :=
  epoch_actions n g k nb ++ evaluation_actions n cfg.

Definition run_actions (n : nat) (g : bool) (k : Z) (nb : nat)
    (cfg : option (list nat * list string)) (epochs : nat) : list Action :=
  fire_actions n on_training_start ++
  concat (repeat (iteration_actions n g k nb cfg) epochs) ++
  fire_actions n on_training_end ++ [AModelTrain false].

(** ** Store predicates that the engine's own steps keep *)

Section Stable.
Context `{Runtime}.

Record stable (J : Store -> Prop) : Prop := {
  st_world : forall s w, J s -> J (set_world w s);
  st_train : forall s mode, J s ->
    J (set_system (set_model (model_train mode (model (system s)))
                     (system s)) s);
  st_batch : forall s b, J s ->
    J (set_context (set_current_batch b (training_context s)) s);
  st_output : forall s o, J s ->
    J (set_context (set_current_output o (training_context s)) s);
  st_record : forall s a, a <> AModelTrain true -> a <> AResultsAppend ->
    J s -> J (set_log (log s ++ [(a, stop_training (training_context s))]) s);
}.

(** The store once [record a] has run. *)
Definition recorded (a : Action) (s : Store) : Store :=
  set_log (log s ++ [(a, stop_training (training_context s))]) s.

(** The store once [_train_epoch] has counted the epoch and switched the
    model to training mode. *)
Definition epoch_begun (s : Store) : Store :=
  let s1 := set_context (set_current_epoch
              (_current_epoch (training_context s) + 1)%Z
              (training_context s)) s in
  let s2 := set_system (set_model (model_train true (model (system s1)))
              (system s1)) s1 in
  set_log (log s2 ++ [(AModelTrain true,
                       stop_training (training_context s2))]) s2.

(** The store once [_train_evaluation] has appended [r] to the history. *)
Definition results_appended (r : EpochResults) (s : Store) : Store :=
  let s1 := set_context (set_results_history
              (_results_history (training_context s) ++ [r])
              (training_context s)) s in
  set_log (log s1 ++ [(AResultsAppend,
                       stop_training (training_context s1))]) s1.

End Stable.

(** ** Specifications of computations on the store

    [sat total loc cbs g P m acts Q]: from a store in which the list at
    [loc] reads [cbs], gradient tracking is [g] and [P] holds, [m] either
    returns [a], having performed exactly the actions [acts], in a store
    that satisfies [Q a], or raises; it leaves the lists and the tracking
    mode as they were; when [total] is set it does not raise. *)

Section Judgment.
Context `{Collaborators}.
Variable total : bool.
Variable loc : nat.
Variable cbs : list Callback.

Definition sat {A} (g : bool) (P : Store -> Prop) (m : M Store A)
    (acts : list Action) (Q : A -> Store -> Prop) : Prop :=
  forall s, default [] (lists s !! loc) = cbs -> grad_enabled s = g -> P s ->
    match m s with
    | Ret a s' =>
        lists s' = lists s /\ grad_enabled s' = g /\
        actions s' = actions s ++ acts /\ Q a s'
    | Raise _ s' => lists s' = lists s /\ total = false
    end.

End Judgment.

(** ** Side conditions of the facade and of the engine *)

Section Conditions.
Context `{Collaborators}.

Definition keeps_world (J : Store -> Prop) : Prop :=
  forall s w, J s -> J (set_world w s).

Definition keeps_record (J : Store -> Prop) : Prop :=
  forall s a, a <> AModelTrain true -> a <> AResultsAppend ->
    J s -> J (set_log (log s ++ [(a, stop_training (training_context s))]) s).

(** A batch carries the model input. *)
Definition has_input (key : string) (b : Batch) : Prop :=
  is_Some (dict_get key b).

Definition evaluator_total (ev : Evaluator) : Prop :=
  (forall w, exists u w', ev_reset ev w = Ret u w') /\
  (forall o b la w, exists u w', ev_step ev o b la w = Ret u w') /\
  (forall w, exists r w', ev_calculate ev w = Ret r w').

Definition model_total : Prop :=
  forall m ts w, exists o w', model_call m ts w = Ret o w'.

(** The keys of the result dict after the evaluators [pre]. *)
Definition result_keys (pre : list string) (res : dict Result) : Prop :=
  (forall k, In k (dict_keys res) <-> In k pre) /\
  (NoDup pre -> dict_keys res = pre).

End Conditions.

Section EngineConditions.
Context `{Collaborators}.
Variable total : bool.
Variable self : _Trainer.
Variable cbs : list Callback.

(** Nothing the engine calls raises: hooks (which also leave a published
    loss in place), loss wrapper, model, optimizer and evaluators return,
    every batch carries the input key, and the accumulation step count is
    not zero. *)
Record no_raise : Prop := {
  nr_hook : forall cb h v, In cb cbs ->
    exists v', callback_hook cb h v = Ret tt v' /\
      (is_Some (current_loss (v_context v)) ->
       is_Some (current_loss (v_context v')));
  nr_loss : forall lw o b la v, exists x v', calculate_loss lw o b la v = Ret x v';
  nr_model : model_total;
  nr_backward : forall l w, exists u w', loss_backward l w = Ret u w';
  nr_item : forall l w, exists x w', loss_item l w = Ret x w';
  nr_step : forall o w, exists u w', optimizer_step o w = Ret u w';
  nr_zero : forall o w, exists u w', optimizer_zero_grad o w = Ret u w';
  nr_key : Forall (has_input (batch_input_key self)) (train_data_loader self);
  nr_k : gradient_accumulation_steps self <> 0%Z;
  nr_evaluators : forall evs name ev,
    evaluators self = Some evs -> dict_get name evs = Some ev ->
    evaluator_total ev;
  nr_eval_key : forall loaders name loader,
    evaluation_data_loaders self = Some loaders ->
    dict_get name loaders = Some loader ->
    Forall (has_input (batch_input_key self)) loader;
}.

(** [K] survives a hook call together with the engine's record of it,
    and likewise a call of the loss wrapper. *)
Definition hooks_keep (K : Store -> Prop) : Prop :=
  forall cb h i s v', In cb cbs -> K s ->
    callback_hook cb h (view s) = Ret tt v' ->
    K (recorded (AHook h i) (put_view v' s)).

Definition loss_wrapper_keeps (K : Store -> Prop) : Prop :=
  forall lw o b la s x v', K s ->
    calculate_loss lw o b la (view s) = Ret x v' ->
    K (recorded ACalculateLoss (put_view v' s)).

Definition keeps_loss_slot (K : Store -> Prop) : Prop :=
  forall s l, K s -> K (set_context (set_current_loss l (training_context s)) s).

(** While a loss is published, the slot holds it (when nothing raises). *)
Definition with_loss (J : Store -> Prop) (s : Store) : Prop :=
  J s /\ (total = true -> is_Some (current_loss (training_context s))).

(** Whether the evaluation phase runs, and on what. *)
Definition eval_config : option (list nat * list string) :=
  match evaluation_data_loaders self, evaluators self with
  | Some loaders, Some evs =>
      Some (map (fun name => length (default [] (dict_get name loaders)))
              (dict_keys loaders),
            dict_keys evs)
  | _, _ => None
  end.

End EngineConditions.

(** Actions that occur once per epoch, per evaluation phase or per run,
    and so not inside a batch step or a call of [evaluate]. *)
Definition outer_action (a : Action) : Prop :=
  a = AModelTrain true \/ a = AResultsAppend \/
  exists i, a = AHook on_training_end i.

(** ** The halt flag and the results history *)



Section Contracts.
Context `{Collaborators}.



(** The history is the engine's: user code leaves it as it is. *)
Definition hooks_keep_history (cbs : list Callback) : Prop :=
  forall cb h v v', In cb cbs -> callback_hook cb h v = Ret tt v' ->
    _results_history (v_context v') = _results_history (v_context v).

Definition loss_wrapper_keeps_history : Prop :=
  forall lw o b la v x v', calculate_loss lw o b la v = Ret x v' ->
    _results_history (v_context v') = _results_history (v_context v).



(** Since the store with log [l0] and history [h0]: the history grew by
    one entry per recorded append. *)
Definition history_invariant (l0 : list (Action * bool))
    (h0 : list EpochResults) (s : Store) : Prop :=
  exists new added, log s = l0 ++ new /\
    _results_history (training_context s) = h0 ++ added /\
    length added = count_occ Action_eq_dec (map fst new) AResultsAppend.

(** User code that returns and leaves the halt flag, the epoch index and
    the history as they are. *)
Record well_behaved (self : _Trainer) (cbs : list Callback) : Prop := {
  wb_returns : no_raise self cbs;
  wb_hooks : forall cb h v v', In cb cbs ->
    callback_hook cb h v = Ret tt v' ->
    stop_training (v_context v') = stop_training (v_context v) /\
    _current_epoch (v_context v') = _current_epoch (v_context v) /\
    _results_history (v_context v') = _results_history (v_context v);
  wb_loss_wrapper : forall lw o b la v x v',
    calculate_loss lw o b la v = Ret x v' ->
    stop_training (v_context v') = stop_training (v_context v) /\
    _current_epoch (v_context v') = _current_epoch (v_context v) /\
    _results_history (v_context v') = _results_history (v_context v);
}.

End Contracts.

(** ** A small runtime, for running the engine on concrete inputs *)

Section Toy.

(** Tensors, outputs and losses are integers; the world counts the
    optimizer steps taken. *)
#[local] Instance toy_runtime : Runtime :=
  {| Tensor := Z; Output := Z; Loss := Z; Scalar := Z; Result := Z;
     LastActivation := unit; LossWrapper := unit; Optimizer := unit;
     File := unit; World := Z; tensor_to := fun _ t => t |}.

#[local] Instance toy_collaborators : Collaborators :=
  {| model_call := fun _ ts => ret (fold_right Z.add 0%Z ts);
     calculate_loss := fun _ o _ _ => ret (default 0%Z o);
     loss_backward := fun _ => ret tt;
     loss_item := fun l => ret l;
     optimizer_step := fun _ => modify (Z.add 1);
     optimizer_zero_grad := fun _ => ret tt;
     scalar_zero := 0%Z;
     scalar_add := Z.add;
     cuda_is_available := fun _ => true;
     torch_load := fun _ => ret [("weight"%string, 1%Z)];
     load_state_dict := fun _ _ _ => ret ([], []) |}.

Definition toy_loss_wrapper : LossWrapper := tt.
Definition toy_optimizer : Optimizer := tt.
Definition toy_file : File := tt.

Definition toy_batch (z : Z) : Batch := [("input"%string, One z)].

Definition toy_loader (n : nat) : DataLoader :=
  map (fun i => toy_batch (Z.of_nat i)) (seq 0 n).

Definition toy_evaluator : Evaluator :=
  {| ev_reset := ret tt;
     ev_step := fun _ _ _ => ret tt;
     ev_calculate := gets (fun w => w) |}.

(** A callback of a user class that overrides nothing. *)
Definition toy_observer : Callback := UserCallback false (fun _ => ret tt).


(** A store with the facade on the CPU and one list of callbacks, at
    location 0. *)
Definition toy_store (cbs : list Callback) : Store :=
  {| system := System__init__ (Net true cpu) None cpu;
     training_context := fresh_context toy_loss_wrapper toy_optimizer;
     lists := {[ 0%nat := cbs ]};
     world := 0%Z;
     grad_enabled := true;
     log := [] |}.

Definition toy_trainer (nb : nat) (k : Z) (evaluation : bool) : _Trainer :=
  trainer_for (toy_loader nb)
    (if evaluation then Some [("dev"%string, toy_loader 1)] else None)
    "input"
    (if evaluation then Some [("acc"%string, toy_evaluator)] else None)
    0 k.

Definition toy_callbacks : list Callback :=
  [toy_observer; NumberOfEpochsStoppingCriterionCallback 2].

Definition toy_epoch_end : Store :=
  outcome_store (_train_epoch (toy_trainer 5 2 false) (toy_store [toy_observer])).




Definition toy_train_result : option (outcome Store (list EpochResults)) :=
  train 5 toy_loss_wrapper toy_optimizer (toy_loader 3) (Some [("dev"%string, toy_loader 1)]) "input"
    (Some [("acc"%string, toy_evaluator)]) (Some 0%nat) 2
    (toy_store toy_callbacks).

Definition toy_train_history : list EpochResults :=
  match toy_train_result with
  | Some (Ret hist _) => hist
  | _ => []
  end.

Definition toy_train_end : Store :=
  match toy_train_result with
  | Some out => outcome_store out
  | None => toy_store toy_callbacks
  end.

Definition toy_first_call : option (outcome Store (list EpochResults)) :=
  train 3 toy_loss_wrapper toy_optimizer (toy_loader 2) None "input" None
    (Some 0%nat) 1 (toy_store [toy_observer]).

Definition toy_first_outcome : outcome Store (list EpochResults) :=
  match toy_first_call with
  | Some out => out
  | None => Raise ZeroDivisionError (toy_store [toy_observer])
  end.

End Toy.

(** ** What a computation leaves behind on every exit *)

Section Exits.
Context `{Collaborators}.

(** What a computation left behind, from [s] to [s']: the gradient
    tracking mode and the lists are as before, the facade is [Rs]-related
    and the training context [Rc]-related to what they were. *)
Definition left_behind (Rs : System -> System -> Prop)
    (Rc : TrainingContext -> TrainingContext -> Prop) (s s' : Store) : Prop :=
  grad_enabled s' = grad_enabled s /\ lists s' = lists s /\
  Rs (system s) (system s') /\
  Rc (training_context s) (training_context s').

(** [exits loc cbs Rs Rc m]: from a store in which the list at [loc]
    reads [cbs], [m] leaves that behind however it ends, by a return or by
    an exception. *)
Definition exits {A} (loc : nat) (cbs : list Callback)
    (Rs : System -> System -> Prop)
    (Rc : TrainingContext -> TrainingContext -> Prop)
    (m : M Store A) : Prop :=
  forall s, default [] (lists s !! loc) = cbs ->
    left_behind Rs Rc s (outcome_store (m s)).

(** User code that keeps the two relations, however it ends. *)
Definition hooks_respect (cbs : list Callback)
    (Rs : System -> System -> Prop)
    (Rc : TrainingContext -> TrainingContext -> Prop) : Prop :=
  forall cb h v, In cb cbs ->
    Rs (v_system v) (v_system (outcome_store (callback_hook cb h v))) /\
    Rc (v_context v) (v_context (outcome_store (callback_hook cb h v))).

Definition loss_wrapper_respects
    (Rs : System -> System -> Prop)
    (Rc : TrainingContext -> TrainingContext -> Prop) : Prop :=
  forall lw o b la v,
    Rs (v_system v)
       (v_system (outcome_store (calculate_loss lw o b la v))) /\
    Rc (v_context v)
       (v_context (outcome_store (calculate_loss lw o b la v))).

(** The facade [y] is [x] but for the mode flag of the model. *)
Definition same_but_mode (x y : System) : Prop :=
  y = x \/ exists mode, y = set_model (model_train mode (model x)) x.

(** The epoch index is as it was. *)
Definition same_epoch (c c' : TrainingContext) : Prop :=
  _current_epoch c' = _current_epoch c.


End Exits.

(** ** Contracts of user code on the training context *)

Section ContextContracts.
Context `{Collaborators}.

(** User code that leaves the published batch and output where they
    are. *)
Definition hooks_leave_slots (cbs : list Callback) : Prop :=
  forall cb h v v', In cb cbs -> callback_hook cb h v = Ret tt v' ->
    current_batch (v_context v') = current_batch (v_context v) /\
    current_output (v_context v') = current_output (v_context v).

Definition loss_wrapper_leaves_slots : Prop :=
  forall lw o b la v x v', calculate_loss lw o b la v = Ret x v' ->
    current_batch (v_context v') = current_batch (v_context v) /\
    current_output (v_context v') = current_output (v_context v).

(** User code that leaves the epoch index alone. *)
Definition hooks_keep_epoch (cbs : list Callback) : Prop :=
  forall cb h v v', In cb cbs -> callback_hook cb h v = Ret tt v' ->
    _current_epoch (v_context v') = _current_epoch (v_context v).

Definition loss_wrapper_keeps_epoch : Prop :=
  forall lw o b la v x v', calculate_loss lw o b la v = Ret x v' ->
    _current_epoch (v_context v') = _current_epoch (v_context v).

(** Since the store with log [l0] and epoch index [e0]: the index grew by
    one per epoch started. *)
Definition epoch_invariant (l0 : list (Action * bool)) (e0 : Z) (s : Store)
    : Prop :=
  exists new, log s = l0 ++ new /\
    _current_epoch (training_context s) =
      (e0 + Z.of_nat (count_occ Action_eq_dec (map fst new)
                        (AModelTrain true)))%Z.

(** The transient slots of the context that are clear. *)
Definition batch_clear (s : Store) : Prop :=
  current_batch (training_context s) = None.

Definition output_clear (s : Store) : Prop :=
  current_batch (training_context s) = None /\
  current_output (training_context s) = None.

End ContextContracts.

(** ** The entries of the results history *)

Section HistoryEntries.
Context `{Collaborators}.

(** An entry with the dataset names as keys, in the order of the data
    loaders, and under each the evaluator names, in their order. *)
Definition entry_shape (loaders : dict DataLoader) (evs : dict Evaluator)
    (entry : EpochResults) : Prop :=
  dict_keys entry = dict_keys loaders /\
  Forall (fun kv => dict_keys (snd kv) = dict_keys evs) entry.

End HistoryEntries.

(** ** Vocabulary of the prediction methods *)


(** The nesting and the keys of a value, without its leaves. *)
Fixpoint shape {T} (n : Nested T) : Nested unit :=
  match n with
  | Leaf _ => Leaf tt
  | Dict items =>
      Dict ((fix shapes (items : list (string * Nested T)) :=
               match items with
               | [] => []
               | (k, v) :: items' => (k, shape v) :: shapes items'
               end) items)
  end.

(** A nested value whose dicts have distinct keys, as Python dicts do. *)
Fixpoint well_keyed {T} (n : Nested T) : Prop :=
  match n with
  | Leaf _ => True
  | Dict items =>
      NoDup (map fst items) /\
      (fix all (items : list (string * Nested T)) :=
         match items with
         | [] => True
         | (_, v) :: items' => well_keyed v /\ all items'
         end) items
  end.

(** ** The small runtime, with the calls of the prediction methods *)

Section ToyLibrary.
#[local] Existing Instance toy_runtime.
#[local] Existing Instance toy_collaborators.

(** An output below 100 is a tensor; one from 100 on is a dict with two
    heads, one of them a dict again.  The last activation adds 1000. *)
#[local] Instance toy_library : Library :=
  {| Item := Z;
     tensor_item := fun t => t;
     tensor_tolist := fun t => ret [t];
     output_tolist := fun o => ret [o];
     output_getitem := fun o _ => ret o;
     last_activation_call := fun _ o => ret (o + 1000)%Z;
     output_nested := fun o =>
       if (o <? 100)%Z then Leaf o
       else Dict [("logits"%string, Leaf o);
                  ("aux"%string, Dict [("hidden"%string, Leaf (o + 1)%Z)])];
     output_detach_cpu := fun o => ret o;
     model_state_dict := fun m =>
       ret (if is_data_parallel m then [("module.weight"%string, 1%Z)]
            else [("weight"%string, 1%Z)]);
     torch_save_state := fun _ _ => ret tt;
     torch_save_system := fun _ _ _ => ret tt;
     torch_load_saved := fun _ =>
       ret (SavedSystem (Net true (cuda None)) None) |}.

(** A batch with an id and an input. *)
Definition toy_id_batch (z : Z) : Batch :=
  [("id"%string, Many [z]); ("input"%string, One z)].

Definition toy_id_loader : DataLoader := [toy_id_batch 3; toy_id_batch 4].

Definition toy_heads_loader : DataLoader := [toy_batch 3; toy_batch 100].

End ToyLibrary.

(** ** A runtime with files

    The world is a file system: a file holds a saved system or a saved
    state dict. *)

Section Disk.

Definition DiskFile : Type := (Model * option unit + dict Z)%type.

#[local] Instance disk_runtime : Runtime :=
  {| Tensor := Z; Output := Z; Loss := Z; Scalar := Z; Result := Z;
     LastActivation := unit; LossWrapper := unit; Optimizer := unit;
     File := string; World := dict DiskFile; tensor_to := fun _ t => t |}.

#[local] Instance disk_collaborators : Collaborators :=
  {| model_call := fun _ ts => ret (fold_right Z.add 0%Z ts);
     calculate_loss := fun _ o _ _ => ret (default 0%Z o);
     loss_backward := fun _ => ret tt;
     loss_item := fun l => ret l;
     optimizer_step := fun _ => ret tt;
     optimizer_zero_grad := fun _ => ret tt;
     scalar_zero := 0%Z;
     scalar_add := Z.add;
     cuda_is_available := fun _ => true;
     torch_load := fun f w =>
       match dict_get f w with
       | Some (inr state) => Ret state w
       | _ => Raise (RuntimeError 2) w
       end;
     load_state_dict := fun _ _ _ => ret ([], []) |}.

#[local] Instance disk_library : Library :=
  {| Item := Z;
     tensor_item := fun t => t;
     tensor_tolist := fun t => ret [t];
     output_tolist := fun o => ret [o];
     output_getitem := fun o _ => ret o;
     last_activation_call := fun _ o => ret o;
     output_nested := fun o => Leaf o;
     output_detach_cpu := fun o => ret o;
     model_state_dict := fun m =>
       ret (if is_data_parallel m
            then [("module.weight"%string, 1%Z); ("module.bias"%string, 2%Z)]
            else [("weight"%string, 1%Z); ("bias"%string, 2%Z)]);
     torch_save_state := fun state f => modify (dict_set f (inr state));
     torch_save_system := fun m la f => modify (dict_set f (inl (m, la)));
     torch_load_saved := fun f w =>
       match dict_get f w with
       | Some (inl (m, la)) => Ret (SavedSystem m la) w
       | Some (inr state) => Ret (SavedState state) w
       | None => Raise (RuntimeError 2) w
       end |}.

(** A store with the facade around [m] on the cpu and an empty disk. *)
Definition disk_store (m : Model) : Store :=
  {| system := System__init__ m None cpu;
     training_context := fresh_context tt tt;
     lists := ∅;
     world := [];
     grad_enabled := true;
     log := [] |}.

Definition disk_wrapped : Model :=
  new_data_parallel (Net true cpu) None None 0.

Definition disk_system_file : File := "system.pt"%string.
Definition disk_state_file : File := "state.pt"%string.

End Disk.

(** * Reasoning about engine computations *)

(** ** Dicts *)

Lemma dict_get_is_Some {V} (k : string) (d : dict V) :
  In k (dict_keys d) -> is_Some (dict_get k d).
Proof.
  unfold dict_keys.
  induction d as [|[k' v] d IH]; simpl; [intros []|].
  intros [->|Hin].
  - rewrite String.eqb_refl. eauto.
  - destruct (String.eqb k k'); eauto.
Qed.

Lemma dict_keys_set_In {V} (k k0 : string) (v : V) (d : dict V) :
  In k0 (dict_keys (dict_set k v d)) <-> k0 = k \/ In k0 (dict_keys d).
Proof.
  unfold dict_keys.
  induction d as [|[k' v'] d IH]; simpl.
  - intuition congruence.
  - destruct (String.eqb k k') eqn:E; simpl.
    + apply String.eqb_eq in E. subst. intuition congruence.
    + rewrite IH. intuition congruence.
Qed.

Lemma dict_keys_set_fresh {V} (k : string) (v : V) (d : dict V) :
  ~ In k (dict_keys d) -> dict_keys (dict_set k v d) = dict_keys d ++ [k].
Proof.
  unfold dict_keys.
  induction d as [|[k' v'] d IH]; simpl; [done|].
  intros Hn. destruct (String.eqb k k') eqn:E.
  - apply String.eqb_eq in E. subst. tauto.
  - simpl. f_equal. apply IH. tauto.
Qed.

(** ** Rules of the judgment *)

Section Sat.
Context `{Collaborators}.
Variable total : bool.
Variable loc : nat.
Variable cbs : list Callback.

Local Abbreviation sat := (sat total loc cbs).

Lemma sat_conseq {A} g (P P' : Store -> Prop) (m : M Store A) acts acts'
    (Q Q' : A -> Store -> Prop) :
  sat g P' m acts' Q' ->
  (forall s, P s -> P' s) -> (forall a s, Q' a s -> Q a s) -> acts = acts' ->
  sat g P m acts Q.
Proof.
  intros Hm HP HQ -> s Hl Hg Hs. specialize (Hm s Hl Hg (HP _ Hs)).
  destruct (m s); intuition auto.
Qed.

Lemma sat_acts {A} g (P : Store -> Prop) (m : M Store A) acts acts'
    (Q : A -> Store -> Prop) :
  sat g P m acts' Q -> acts = acts' -> sat g P m acts Q.
Proof. intros Hm ->. exact Hm. Qed.

Lemma sat_post {A} g (P : Store -> Prop) (m : M Store A) acts
    (Q Q' : A -> Store -> Prop) :
  sat g P m acts Q' -> (forall a s, Q' a s -> Q a s) -> sat g P m acts Q.
Proof. intros Hm HQ. eapply sat_conseq; [exact Hm|done|exact HQ|done]. Qed.

Lemma sat_pure {A} g (phi : Prop) (P : Store -> Prop) (m : M Store A) acts Q :
  (phi -> sat g P m acts Q) -> sat g (fun s => phi /\ P s) m acts Q.
Proof. intros Hm s Hl Hg [Hphi Hs]. exact (Hm Hphi s Hl Hg Hs). Qed.

Lemma sat_ret {A} g (P : Store -> Prop) (a : A) :
  sat g P (ret a) [] (fun a' s => a' = a /\ P s).
Proof.
  intros s Hl Hg Hs. simpl. rewrite app_nil_r. auto.
Qed.

Lemma sat_bind {A B} g (P : Store -> Prop) (m : M Store A)
    (k : A -> M Store B) e1 e2 (Q1 : A -> Store -> Prop)
    (Q2 : B -> Store -> Prop) :
  sat g P m e1 Q1 -> (forall a, sat g (Q1 a) (k a) e2 Q2) ->
  sat g P (bind m k) (e1 ++ e2) Q2.
Proof.
  intros Hm Hk s Hl Hg Hs. unfold bind. specialize (Hm s Hl Hg Hs).
  destruct (m s) as [a s1|e s1]; [|done].
  destruct Hm as (Hl1 & Hg1 & Ha1 & Hq1).
  assert (Hl1' : default [] (lists s1 !! loc) = cbs) by (by rewrite Hl1).
  specialize (Hk a s1 Hl1' Hg1 Hq1).
  destruct (k a s1) as [b s2|e s2].
  - destruct Hk as (Hl2 & Hg2 & Ha2 & Hq2).
    repeat split; [congruence|done| |done].
    rewrite Ha2, Ha1. by rewrite app_assoc.
  - destruct Hk as [Hl2 Ht]. split; [congruence|done].
Qed.

Lemma sat_bind_ret {A B} g (P : Store -> Prop) (a : A) (k : A -> M Store B)
    acts (Q : B -> Store -> Prop) :
  sat g P (k a) acts Q -> sat g P (bind (ret a) k) acts Q.
Proof. intros Hk. exact Hk. Qed.

Lemma sat_then {A B} g (P J : Store -> Prop) (m : M Store A)
    (k : A -> M Store B) e1 e2 (Q : B -> Store -> Prop) :
  sat g P m e1 (fun _ => J) -> (forall a, sat g J (k a) e2 Q) ->
  sat g P (bind m k) (e1 ++ e2) Q.
Proof. intros Hm Hk. eapply sat_bind; [exact Hm|exact Hk]. Qed.

Lemma sat_raise {A} g (P : Store -> Prop) (e : Exn) acts
    (Q : A -> Store -> Prop) :
  (forall s, P s -> total = false) -> sat g P (raise e) acts Q.
Proof. intros Ht s Hl Hg Hs. simpl. eauto. Qed.

Lemma sat_gets {A} g (P : Store -> Prop) (f : Store -> A) :
  sat g P (gets f) [] (fun a s => a = f s /\ P s).
Proof. intros s Hl Hg Hs. simpl. rewrite app_nil_r. auto. Qed.

Lemma sat_modify_context g (P : Store -> Prop) f :
  sat g P (modify_context f) []
    (fun _ s' => exists s, P s /\ s' = set_context (f (training_context s)) s).
Proof.
  intros s Hl Hg Hs. simpl. unfold actions. simpl. rewrite app_nil_r. eauto 6.
Qed.

Lemma sat_record g (P : Store -> Prop) a :
  sat g P (record a) [a]
    (fun _ s' => exists s, P s /\
       s' = set_log (log s ++ [(a, stop_training (training_context s))]) s).
Proof.
  intros s Hl Hg Hs. simpl. unfold actions. simpl. rewrite map_app. simpl.
  eauto 6.
Qed.

Lemma sat_system_model_train g (P : Store -> Prop) mode :
  sat g P (system_model_train mode) [AModelTrain mode]
    (fun _ s' => exists s, P s /\
       s' = set_log (log s ++ [(AModelTrain mode,
                                stop_training (training_context s))])
              (set_system (set_model (model_train mode (model (system s)))
                             (system s)) s)).
Proof.
  intros s Hl Hg Hs. simpl. unfold actions. simpl. rewrite map_app. simpl.
  eauto 6.
Qed.

Lemma sat_lift_world {A} g (P : Store -> Prop) (m : M World A) :
  (total = true -> forall s, P s -> exists a w, m (world s) = Ret a w) ->
  sat g P (lift_world m) []
    (fun a s' => exists s, P s /\ m (world s) = Ret a (world s') /\
       s' = set_world (world s') s).
Proof.
  intros Ht s Hl Hg Hs. unfold lift_world.
  destruct (m (world s)) as [a w|e w] eqn:E; simpl.
  - unfold actions. simpl. rewrite app_nil_r. eauto 8.
  - split; [done|]. destruct total; [|done].
    destruct (Ht eq_refl s Hs) as (a & w' & E'). congruence.
Qed.

Lemma sat_lift_view {A} g (P : Store -> Prop) (m : M View A) :
  (total = true -> forall s, P s -> exists a v, m (view s) = Ret a v) ->
  sat g P (lift_view m) []
    (fun a s' => exists s v, P s /\ m (view s) = Ret a v /\ s' = put_view v s).
Proof.
  intros Ht s Hl Hg Hs. unfold lift_view.
  destruct (m (view s)) as [a v|e v] eqn:E; simpl.
  - unfold actions. simpl. rewrite app_nil_r. eauto 8.
  - split; [done|]. destruct total; [|done].
    destruct (Ht eq_refl s Hs) as (a & v' & E'). congruence.
Qed.

Lemma sat_subscript {V} g (P : Store -> Prop) (d : dict V) (k : string) :
  (total = true -> is_Some (dict_get k d)) ->
  sat g P (subscript d k) [] (fun v s => dict_get k d = Some v /\ P s).
Proof.
  intros Ht s Hl Hg Hs. unfold subscript.
  destruct (dict_get k d) as [v|] eqn:E; simpl.
  - rewrite app_nil_r. auto.
  - split; [done|]. destruct total; [|done].
    destruct (Ht eq_refl) as [? ?]. congruence.
Qed.

Lemma sat_with_no_grad {A} g (P : Store -> Prop) (m : M Store A) acts
    (Q : A -> Store -> Prop) :
  sat false (fun s => P (set_grad_enabled g s)) m acts
    (fun a s => Q a (set_grad_enabled g s)) ->
  sat g P (with_no_grad m) acts Q.
Proof.
  intros Hm s Hl Hg Hs. unfold with_no_grad.
  assert (Hs' : P (set_grad_enabled g (set_grad_enabled false s))).
  { destruct s; simpl in *. by subst. }
  specialize (Hm (set_grad_enabled false s) Hl eq_refl Hs').
  destruct (m (set_grad_enabled false s)) as [a s1|e s1]; simpl.
  - destruct Hm as (Hl1 & Hg1 & Ha1 & Hq1). rewrite Hg. repeat split; auto.
  - done.
Qed.

(** The same rules for a predicate [J] that the step keeps. *)

Lemma inv_ret {A} g (J : Store -> Prop) (a : A) :
  sat g J (ret a) [] (fun _ => J).
Proof. intros s Hl Hg Hs. simpl. rewrite app_nil_r. auto. Qed.

Lemma inv_gets {A} g (J : Store -> Prop) (f : Store -> A) :
  sat g J (gets f) [] (fun _ => J).
Proof. intros s Hl Hg Hs. simpl. rewrite app_nil_r. auto. Qed.

Lemma inv_bind {A B} g (J : Store -> Prop) (m : M Store A)
    (k : A -> M Store B) e1 e2 :
  sat g J m e1 (fun _ => J) -> (forall a, sat g J (k a) e2 (fun _ => J)) ->
  sat g J (bind m k) (e1 ++ e2) (fun _ => J).
Proof. intros Hm Hk. eapply sat_bind; [exact Hm|exact Hk]. Qed.

Lemma inv_modify_context g (J : Store -> Prop) f :
  (forall s, J s -> J (set_context (f (training_context s)) s)) ->
  sat g J (modify_context f) [] (fun _ => J).
Proof.
  intros HJ. eapply sat_conseq; [apply (sat_modify_context g J f)|done| |done].
  intros _ s' (s & Hs & ->). auto.
Qed.

Lemma inv_record g (J : Store -> Prop) a :
  (forall s, J s ->
     J (set_log (log s ++ [(a, stop_training (training_context s))]) s)) ->
  sat g J (record a) [a] (fun _ => J).
Proof.
  intros HJ. eapply sat_conseq; [apply (sat_record g J a)|done| |done].
  intros _ s' (s & Hs & ->). auto.
Qed.

Lemma inv_system_model_train g (J : Store -> Prop) mode :
  (forall s x, J s -> J (set_system x s)) ->
  (forall s, J s ->
     J (set_log (log s ++ [(AModelTrain mode,
                            stop_training (training_context s))]) s)) ->
  sat g J (system_model_train mode) [AModelTrain mode] (fun _ => J).
Proof.
  intros HJ1 HJ2.
  eapply sat_conseq; [apply (sat_system_model_train g J mode)|done| |done].
  intros _ s' (s & Hs & ->). apply (HJ2 (set_system _ s)). auto.
Qed.

Lemma inv_lift_world {A} g (J : Store -> Prop) (m : M World A) :
  (total = true -> forall w, exists a w', m w = Ret a w') ->
  (forall s w, J s -> J (set_world w s)) ->
  sat g J (lift_world m) [] (fun _ => J).
Proof.
  intros Ht HJ. eapply sat_conseq; [apply (sat_lift_world g J m)|done| |done].
  - intros Htt s _. apply (Ht Htt).
  - intros a s' (s & Hs & _ & ->). auto.
Qed.

Lemma inv_lift_view {A} g (J : Store -> Prop) (m : M View A) :
  (total = true -> forall s, J s -> exists a v, m (view s) = Ret a v) ->
  (forall s a v, J s -> m (view s) = Ret a v -> J (put_view v s)) ->
  sat g J (lift_view m) [] (fun _ => J).
Proof.
  intros Ht HJ. eapply sat_conseq; [apply (sat_lift_view g J m Ht)|done| |done].
  intros a s' (s & v & Hs & E & ->). eauto.
Qed.

Lemma inv_subscript {V} g (J : Store -> Prop) (d : dict V) (k : string) :
  (total = true -> is_Some (dict_get k d)) ->
  sat g J (subscript d k) [] (fun _ => J).
Proof.
  intros Ht. eapply sat_conseq; [apply (sat_subscript g J d k Ht)|done| |done].
  by intros a s [_ Hs].
Qed.

Lemma sat_gets_grad g (J : Store -> Prop) :
  sat g J (gets grad_enabled) [] (fun a s => a = g /\ J s).
Proof. intros s Hl Hg Hs. simpl. rewrite app_nil_r. auto. Qed.

Lemma sat_gets_callbacks g (J : Store -> Prop) :
  sat g J (gets (fun s => default [] (lists s !! loc))) []
    (fun a s => a = cbs /\ J s).
Proof.
  intros s Hl Hg Hs. simpl. rewrite app_nil_r. auto.
Qed.

(** Loops: a predicate [J] that every iteration keeps. *)
Lemma sat_for_each {A} g (J : Store -> Prop) (body : A -> M Store unit)
    (e : A -> list Action) (l : list A) :
  (forall x, In x l -> sat g J (body x) (e x) (fun _ => J)) ->
  sat g J (for_each body l) (concat (map e l)) (fun _ => J).
Proof.
  induction l as [|x l IH]; intros Hb; simpl.
  - apply inv_ret.
  - apply inv_bind; [apply Hb; by left|].
    intros _. apply IH. intros y Hy. apply Hb. by right.
Qed.

Lemma sat_for_indexed_family {A} g (Jf : nat -> Store -> Prop)
    (body : nat -> A -> M Store unit) (e : nat -> list Action)
    (l : list A) (i : nat) :
  (forall j x, l !! j = Some x ->
     sat g (Jf (i + j)%nat) (body (i + j)%nat x) (e (i + j)%nat)
       (fun _ => Jf (S (i + j)))) ->
  sat g (Jf i) (for_indexed body i l) (concat (map e (seq i (length l))))
    (fun _ => Jf (i + length l)%nat).
Proof.
  revert i. induction l as [|x l IH]; intros i Hb; simpl.
  - rewrite Nat.add_0_r. apply inv_ret.
  - apply (sat_then g (Jf i) (Jf (S i))).
    + specialize (Hb 0%nat x eq_refl). rewrite Nat.add_0_r in Hb. exact Hb.
    + intros _. rewrite <- Nat.add_succ_comm. apply IH. intros j y Hy.
      specialize (Hb (S j) y Hy). by rewrite Nat.add_succ_r in Hb.
Qed.

Lemma sat_for_indexed {A} g (J : Store -> Prop)
    (body : nat -> A -> M Store unit) (e : nat -> list Action)
    (l : list A) (i : nat) :
  (forall j x, l !! j = Some x ->
     sat g J (body (i + j)%nat x) (e (i + j)%nat) (fun _ => J)) ->
  sat g J (for_indexed body i l) (concat (map e (seq i (length l))))
    (fun _ => J).
Proof. intros Hb. by apply (sat_for_indexed_family g (fun _ => J)). Qed.

Lemma sat_for_enumerate {A B} g (J : Store -> Prop)
    (body : Z -> A -> B -> M Store B) (e : nat -> list Action)
    (l : list A) (i : nat) (acc : B) :
  (forall j x b, l !! j = Some x ->
     sat g J (body (Z.of_nat (i + j)) x b) (e (i + j)%nat) (fun _ => J)) ->
  sat g J (for_enumerate body (Z.of_nat i) l acc)
    (concat (map e (seq i (length l)))) (fun _ => J).
Proof.
  revert i acc. induction l as [|x l IH]; intros i acc Hb; simpl.
  - apply inv_ret.
  - apply inv_bind.
    + specialize (Hb 0%nat x acc eq_refl). by rewrite Nat.add_0_r in Hb.
    + intros acc'. replace (Z.of_nat i + 1)%Z with (Z.of_nat (S i)) by lia.
      apply IH. intros j y b Hy.
      specialize (Hb (S j) y b Hy). by rewrite Nat.add_succ_r in Hb.
Qed.

Lemma sat_for_fold {A B} g (J : Store -> Prop) (R : list A -> B -> Prop)
    (body : A -> B -> M Store B) (e : A -> list Action) (l : list A) (acc : B) :
  (forall pre x post b, l = pre ++ x :: post ->
     sat g (fun s => R pre b /\ J s) (body x b) (e x)
       (fun b' s => R (pre ++ [x]) b' /\ J s)) ->
  sat g (fun s => R [] acc /\ J s) (for_fold body l acc) (concat (map e l))
    (fun b' s => R l b' /\ J s).
Proof.
  intros Hb.
  enough (Hgen : forall l' pre acc, l = pre ++ l' ->
            sat g (fun s => R pre acc /\ J s) (for_fold body l' acc)
              (concat (map e l')) (fun b' s => R l b' /\ J s))
    by exact (Hgen l [] acc eq_refl).
  induction l' as [|x l' IH]; intros pre acc' Hl; simpl.
  - rewrite app_nil_r in Hl. subst pre.
    intros s Hl' Hg Hs. simpl. rewrite !app_nil_r. auto.
  - eapply sat_bind; [by apply (Hb pre x l')|].
    intros b. apply IH. by rewrite <- app_assoc.
Qed.

End Sat.

Lemma concat_map_singleton {A B} (f : A -> B) (l : list A) :
  concat (map (fun x => [f x]) l) = map f l.
Proof. induction l; simpl; congruence. Qed.

(** ** The facade's methods and the hook loop *)

Section FacadeSpec.
Context `{Collaborators}.
Variable total : bool.
Variable loc : nat.
Variable cbs : list Callback.

Local Abbreviation sat := (sat total loc cbs).

Lemma sat_predict_batch g (J : Store -> Prop) input :
  keeps_world J -> keeps_record J -> (total = true -> model_total) ->
  sat g J (predict_batch input) [AModelCall g] (fun _ => J).
Proof.
  intros Hw Hr Ht. unfold predict_batch.
  eapply sat_acts.
  - eapply inv_bind; [apply inv_gets|intros device].
    eapply inv_bind; [apply inv_gets|intros m].
    eapply sat_bind; [apply sat_gets_grad|intros g'].
    apply sat_pure. intros ->.
    eapply inv_bind; [apply inv_lift_world|intros outputs].
    + intros Htt w. apply (Ht Htt).
    + exact Hw.
    + eapply inv_bind; [apply inv_record|intros _; apply inv_ret].
      intros s Hs. by apply Hr.
  - done.
Qed.

(** The hook loop, with a predicate that may change from one callback to
    the next: [Jf i] holds before the callback at position [i] is called. *)
Lemma sat_fire_family self g (Jf : nat -> Store -> Prop) h :
  callbacks self = loc ->
  (forall i cb, cbs !! i = Some cb ->
     (total = true -> forall v, exists v', callback_hook cb h v = Ret tt v') /\
     (forall s v', Jf i s -> callback_hook cb h (view s) = Ret tt v' ->
        Jf (S i)
          (set_log (log (put_view v' s) ++
                      [(AHook h i, stop_training (v_context v'))])
             (put_view v' s)))) ->
  sat g (Jf 0%nat) (fire self h) (fire_actions (length cbs) h)
    (fun _ => Jf (length cbs)).
Proof.
  intros Hloc Hcb. unfold fire. rewrite Hloc.
  eapply sat_acts.
  - eapply sat_bind; [apply sat_gets_callbacks|intros cbs'].
    apply sat_pure. intros ->.
    apply (sat_for_indexed_family total loc cbs g Jf _
             (fun i => [AHook h i]) cbs 0).
    intros j cb Hj. simpl.
    destruct (Hcb j cb Hj) as [Ht Hk].
    eapply sat_acts.
    { eapply sat_bind.
      { apply sat_lift_view.
        intros Htt s _. destruct (Ht Htt (view s)) as [v' Hv]. eauto. }
      intros u. eapply sat_post; [apply sat_record|].
      intros u' s' (s1 & (s & v & Hs & Hv & ->) & ->).
      destruct u. exact (Hk s v Hs Hv). }
    reflexivity.
  - simpl. unfold fire_actions. by rewrite concat_map_singleton.
Qed.

Lemma sat_fire self g (J : Store -> Prop) h :
  callbacks self = loc ->
  (forall i s, J s ->
     J (set_log (log s ++ [(AHook h i, stop_training (training_context s))]) s)) ->
  (forall cb, In cb cbs ->
     (total = true -> forall v, exists v', callback_hook cb h v = Ret tt v') /\
     (forall s v', J s -> callback_hook cb h (view s) = Ret tt v' ->
        J (put_view v' s))) ->
  sat g J (fire self h) (fire_actions (length cbs) h) (fun _ => J).
Proof.
  intros Hloc Hr Hcb.
  apply (sat_fire_family self g (fun _ => J) h Hloc).
  intros i cb Hi.
  assert (Hin : In cb cbs).
  { apply list_elem_of_In. by eapply list_elem_of_lookup_2. }
  destruct (Hcb cb Hin) as [Ht Hk]. split; [exact Ht|].
  intros s v' Hs Hv. apply (Hr i (put_view v' s)). by apply Hk.
Qed.

Section Evaluate.
Variable g : bool.
Variable J : Store -> Prop.
Variable loader : DataLoader.
Variable evs : dict Evaluator.
Variable key : string.
Hypothesis Hw : keeps_world J.
Hypothesis Hr : keeps_record J.
Hypothesis Ht : total = true ->
  model_total /\ Forall (has_input key) loader /\
  forall name ev, dict_get name evs = Some ev -> evaluator_total ev.

Lemma sat_evaluator_reset g' name :
  In name (dict_keys evs) ->
  sat g' J (ev <- subscript evs name ;;
            lift_world (ev_reset ev) ;;
            record (AEvaluatorReset name))
    [AEvaluatorReset name] (fun _ => J).
Proof.
  intros Hin. eapply sat_acts.
  { eapply sat_bind;
      [apply sat_subscript; intros _; by apply dict_get_is_Some|].
    intros ev. apply sat_pure. intros Hget.
    apply (inv_bind total loc cbs g' J _ _ [] [AEvaluatorReset name]).
    - apply inv_lift_world; [|exact Hw].
      intros Htt w. destruct (Ht Htt) as (_ & _ & He).
      destruct (He name ev Hget) as (Hreset & _ & _). apply Hreset.
    - intros _. apply inv_record. intros s Hs. by apply Hr. }
  reflexivity.
Qed.

Lemma sat_evaluator_step outputs batch name :
  In name (dict_keys evs) ->
  sat false (fun s => J (set_grad_enabled g s))
    (ev <- subscript evs name ;;
     la <- gets (fun s => last_activation (system s)) ;;
     lift_world (ev_step ev outputs batch la) ;;
     record (AEvaluatorStep name))
    [AEvaluatorStep name] (fun _ s => J (set_grad_enabled g s)).
Proof.
  intros Hin. eapply sat_acts.
  { eapply sat_bind;
      [apply sat_subscript; intros _; by apply dict_get_is_Some|].
    intros ev. apply sat_pure. intros Hget.
    apply (inv_bind total loc cbs false _ _ _ [] [AEvaluatorStep name]);
      [apply inv_gets|intros la].
    apply (inv_bind total loc cbs false _ _ _ [] [AEvaluatorStep name]).
    - apply inv_lift_world.
      + intros Htt w. destruct (Ht Htt) as (_ & _ & He).
        destruct (He name ev Hget) as (_ & Hstep & _). apply Hstep.
      + intros s w Hs. exact (Hw _ w Hs).
    - intros _. apply inv_record. intros s Hs.
      by apply (Hr (set_grad_enabled g s)). }
  reflexivity.
Qed.

Lemma sat_evaluate_batch batch :
  In batch loader ->
  sat false (fun s => J (set_grad_enabled g s))
    (input <- subscript batch key ;;
     outputs <- predict_batch input ;;
     for_each (fun evaluator_name =>
         ev <- subscript evs evaluator_name ;;
         la <- gets (fun s => last_activation (system s)) ;;
         lift_world (ev_step ev outputs batch la) ;;
         record (AEvaluatorStep evaluator_name))
       (dict_keys evs))
    (AModelCall false :: map AEvaluatorStep (dict_keys evs))
    (fun _ s => J (set_grad_enabled g s)).
Proof.
  intros Hin.
  eapply sat_acts.
  - apply (inv_bind total loc cbs false _ _ _ []).
    { apply inv_subscript. intros Htt. destruct (Ht Htt) as (_ & Hk & _).
      rewrite Forall_forall in Hk. apply Hk. by apply list_elem_of_In. }
    intros input. apply inv_bind.
    { apply sat_predict_batch.
      - intros s w Hs. exact (Hw _ w Hs).
      - intros s a Ha1 Ha2 Hs. exact (Hr _ a Ha1 Ha2 Hs).
      - intros Htt. by destruct (Ht Htt). }
    intros outputs.
    apply (sat_for_each total loc cbs false _ _
             (fun name => [AEvaluatorStep name])).
    intros name Hname. by apply sat_evaluator_step.
  - simpl. by rewrite concat_map_singleton.
Qed.

Lemma result_keys_set pre name r res :
  result_keys pre res -> result_keys (pre ++ [name]) (dict_set name r res).
Proof.
  intros [Hin Hnd]. split.
  - intros k. rewrite dict_keys_set_In, in_app_iff, Hin. simpl.
    intuition congruence.
  - intros Hnd'. apply NoDup_app in Hnd' as (Hpre & Hfresh & _).
    rewrite dict_keys_set_fresh.
    + by rewrite Hnd.
    + rewrite Hin. intros Hk. apply (Hfresh name).
      * by apply list_elem_of_In.
      * by left.
Qed.

Lemma sat_evaluator_calculate pre name (res : dict Result) :
  In name (dict_keys evs) ->
  sat g (fun s => result_keys pre res /\ J s)
    (ev <- subscript evs name ;;
     r <- lift_world (ev_calculate ev) ;;
     record (AEvaluatorCalculate name) ;;
     ret (dict_set name r res))
    [AEvaluatorCalculate name]
    (fun res' s => result_keys (pre ++ [name]) res' /\ J s).
Proof.
  intros Hin. apply sat_pure. intros Hres.
  eapply sat_acts.
  { eapply sat_bind;
      [apply sat_subscript; intros _; by apply dict_get_is_Some|].
    intros ev. apply sat_pure. intros Hget.
    eapply (sat_then total loc cbs g J J _ _ []).
    { apply inv_lift_world; [|exact Hw].
      intros Htt w. destruct (Ht Htt) as (_ & _ & He).
      destruct (He name ev Hget) as (_ & _ & Hc). apply Hc. }
    intros r. eapply (sat_then total loc cbs g J J _ _ [_] []).
    { apply inv_record. intros s Hs. by apply Hr. }
    intros _.
    eapply sat_post; [apply (sat_ret total loc cbs g J)|].
    intros res' s [-> Hs]. split; [|done]. by apply result_keys_set. }
  reflexivity.
Qed.

(** [evaluate]: its actions, the keys of its result, and a predicate [J]
    that calls into the runtime and records keep. *)
Lemma sat_evaluate (P : Store -> Prop) :
  (forall s, P s ->
     J (set_log (log s ++ [(AModelTrain false,
                            stop_training (training_context s))])
          (set_system (set_model (model_train false (model (system s)))
                         (system s)) s))) ->
  sat g P (evaluate loader evs key)
    (evaluate_actions (dict_keys evs) (length loader))
    (fun res s => J s /\ result_keys (dict_keys evs) res).
Proof.
  intros HP. unfold evaluate. eapply sat_acts.
  - eapply (sat_then total loc cbs g P J).
    { eapply sat_post; [apply (sat_system_model_train total loc cbs g P false)|].
      intros u s' (s & Hs & ->). exact (HP s Hs). }
    intros _. eapply (sat_then total loc cbs g J J).
    { apply (sat_for_each total loc cbs g J _
               (fun name => [AEvaluatorReset name])).
      intros name Hin. by apply sat_evaluator_reset. }
    intros _. eapply (sat_then total loc cbs g J J).
    { apply sat_with_no_grad.
      apply (sat_for_each total loc cbs false
               (fun s => J (set_grad_enabled g s)) _
               (fun _ => AModelCall false :: map AEvaluatorStep (dict_keys evs))).
      intros batch Hin. by apply sat_evaluate_batch. }
    intros _.
    eapply sat_conseq;
      [apply (sat_for_fold total loc cbs g J result_keys
                _ (fun name => [AEvaluatorCalculate name]))
      | | |reflexivity].
    + intros pre name post res Hname. apply sat_evaluator_calculate.
      rewrite Hname. apply in_or_app. right. by left.
    + intros s Hs. split; [|exact Hs]. split; [done|]. by intros _.
    + simpl. intros res s [Hres Hs]. done.
  - unfold evaluate_actions. simpl.
    rewrite !concat_map_singleton. do 2 f_equal.
    f_equal. clear. induction loader; simpl; congruence.
Qed.

End Evaluate.

End FacadeSpec.

(** ** The engine: batch step, epoch step, evaluation phase, driver *)

Section EngineSpec.
Context `{Collaborators}.
Variable total : bool.
Variable self : _Trainer.
Variable cbs : list Callback.

Local Abbreviation loc := (callbacks self).
Local Abbreviation sat := (sat total (callbacks self) cbs).
Local Abbreviation ctx := training_context.

Local Abbreviation no_raise := (no_raise self cbs).
Local Abbreviation hooks_keep := (hooks_keep cbs).

Hypothesis Htotal : total = true -> no_raise.

(** From user code that keeps [K] and a [K] that survives records. *)
Lemma hooks_keep_intro (K : Store -> Prop) :
  keeps_record K ->
  (forall cb h s v', In cb cbs -> K s ->
     callback_hook cb h (view s) = Ret tt v' -> K (put_view v' s)) ->
  hooks_keep K.
Proof.
  intros Hr Hk cb h i s v' Hin Hs Hv.
  apply (Hr (put_view v' s) (AHook h i)); [done|done|]. by eapply Hk.
Qed.

Lemma loss_wrapper_keeps_intro (K : Store -> Prop) :
  keeps_record K ->
  (forall lw o b la s x v', K s ->
     calculate_loss lw o b la (view s) = Ret x v' -> K (put_view v' s)) ->
  loss_wrapper_keeps K.
Proof.
  intros Hr Hk lw o b la s x v' Hs Hv.
  apply (Hr (put_view v' s) ACalculateLoss); [done|done|]. by eapply Hk.
Qed.

Lemma fire_keeps g (K : Store -> Prop) h :
  hooks_keep K ->
  sat g K (fire self h) (fire_actions (length cbs) h) (fun _ => K).
Proof.
  intros Hk. apply (sat_fire_family total loc cbs self g (fun _ => K) h eq_refl).
  intros i cb Hi.
  assert (Hin : In cb cbs).
  { apply list_elem_of_In. by eapply list_elem_of_lookup_2. }
  split.
  - intros Htt v. destruct (nr_hook _ _ (Htotal Htt) cb h v Hin) as (v' & Hv & _).
    eauto.
  - intros s v' Hs Hv. by apply (Hk cb h i s v').
Qed.

Section Batch.
Variable J : Store -> Prop.
Hypothesis HJ : stable J.
Hypothesis HJl : keeps_loss_slot J.
Hypothesis HJh : hooks_keep J.
Hypothesis HJw : loss_wrapper_keeps J.

Local Abbreviation with_loss := (with_loss total J).

Lemma with_loss_record : keeps_record with_loss.
Proof.
  intros s a Ha1 Ha2 [Hs Hl]. split; [by apply (st_record J HJ)|exact Hl].
Qed.

Lemma with_loss_world : keeps_world with_loss.
Proof.
  intros s w [Hs Hl]. split; [by apply (st_world J HJ)|exact Hl].
Qed.

Lemma with_loss_hooks : hooks_keep with_loss.
Proof.
  intros cb h i s v' Hin [Hs Hl] Hv. split; [by eapply HJh|]. simpl.
  intros Htt. destruct (nr_hook _ _ (Htotal Htt) cb h (view s) Hin) as (v'' & Hv'' & Hp).
  rewrite Hv in Hv''. injection Hv'' as <-. exact (Hp (Hl Htt)).
Qed.

Lemma J_record : keeps_record J.
Proof. intros s a Ha1 Ha2 Hs. by apply (st_record J HJ). Qed.

Lemma J_world : keeps_world J.
Proof. intros s w Hs. by apply (st_world J HJ). Qed.

(** A call on the published loss: [loss.backward()], [loss.item()]. *)
Lemma sat_on_loss {A B} g (f : Loss -> M World A) (name : string)
    (rest : A -> M Store B) acts (Q : B -> Store -> Prop) :
  (total = true -> forall l w, exists x w', f l w = Ret x w') ->
  (forall x, sat g with_loss (rest x) acts Q) ->
  sat g with_loss
    (cur <- gets (fun s => current_loss (ctx s)) ;;
     x <- match cur with
          | Some l => lift_world (f l)
          | None => raise (AttributeError name)
          end ;;
     rest x)
    acts Q.
Proof.
  intros Hf Hrest. eapply sat_acts.
  { eapply sat_bind; [apply sat_gets|intros cur].
    eapply (sat_then total loc cbs g _ with_loss).
    - destruct cur as [l|].
      + eapply sat_conseq; [apply (inv_lift_world total loc cbs g with_loss)| | |];
          [ |apply with_loss_world|by intros s [_ Hs]|done|reflexivity].
        intros Htt w. by apply Hf.
      + apply sat_raise. intros s [Hc [_ Hl]].
        destruct total; [|done]. destruct (Hl eq_refl) as [? E]. congruence.
    - exact Hrest. }
  reflexivity.
Qed.

Lemma sat_train_batch g batch p :
  In batch (train_data_loader self) ->
  sat g J (_train_batch self batch p) (batch_actions (length cbs) g p)
    (fun _ => J).
Proof.
  intros Hin. unfold _train_batch. eapply sat_acts.
  { eapply (sat_then total loc cbs g J J).
    { apply inv_modify_context. intros s Hs. by apply (st_batch J HJ). }
    intros _. eapply (sat_then total loc cbs g J J).
    { apply fire_keeps, HJh. }
    intros _. eapply (sat_then total loc cbs g J J).
    { apply inv_subscript. intros Htt.
      pose proof (nr_key _ _ (Htotal Htt)) as Hk. rewrite Forall_forall in Hk.
      apply Hk. by apply list_elem_of_In. }
    intros input. eapply (sat_then total loc cbs g J J).
    { apply sat_predict_batch; [apply J_world|apply J_record|].
      intros Htt. apply (nr_model _ _ (Htotal Htt)). }
    intros outputs. eapply (sat_then total loc cbs g J J).
    { apply inv_modify_context. intros s Hs. by apply (st_output J HJ). }
    intros _. eapply (sat_then total loc cbs g J J).
    { apply inv_modify_context. intros s Hs. by apply (st_batch J HJ). }
    intros _. eapply (sat_then total loc cbs g J J).
    { apply fire_keeps, HJh. }
    intros _. eapply (sat_then total loc cbs g J J); [apply inv_gets|].
    intros lw. eapply (sat_then total loc cbs g J J); [apply inv_gets|].
    intros out. eapply (sat_then total loc cbs g J J); [apply inv_gets|].
    intros la. eapply sat_bind.
    { apply sat_lift_view. intros Htt s _. apply (nr_loss _ _ (Htotal Htt)). }
    intros loss. eapply (sat_then total loc cbs g _ J).
    { eapply sat_post; [apply sat_record|].
      intros u s' (s1 & (s & v & Hs & Hv & ->) & ->). by eapply HJw. }
    intros _. eapply (sat_then total loc cbs g J with_loss).
    { eapply sat_conseq; [apply (sat_modify_context total loc cbs g J)|done| |done].
      intros u s' (s & Hs & ->). split; [by apply HJl|]. simpl. eauto. }
    intros _. eapply (sat_then total loc cbs g with_loss with_loss).
    { apply inv_modify_context. intros s [Hs Hl].
      split; [by apply (st_output J HJ)|exact Hl]. }
    intros _. eapply (sat_then total loc cbs g with_loss with_loss).
    { apply fire_keeps, with_loss_hooks. }
    intros _. apply sat_on_loss.
    { intros Htt. apply (nr_backward _ _ (Htotal Htt)). }
    intros _. eapply (sat_then total loc cbs g with_loss with_loss).
    { apply inv_record. intros s Hs. by apply with_loss_record. }
    intros _. eapply (sat_then total loc cbs g with_loss with_loss).
    { apply fire_keeps, with_loss_hooks. }
    intros _. eapply (sat_then total loc cbs g with_loss with_loss).
    { instantiate (1 := if p then _ else _). destruct p.
      - eapply (sat_then total loc cbs g with_loss with_loss).
        { apply fire_keeps, with_loss_hooks. }
        intros _. eapply (sat_then total loc cbs g with_loss with_loss);
          [apply inv_gets|intros opt].
        eapply (sat_then total loc cbs g with_loss with_loss).
        { apply inv_lift_world; [|apply with_loss_world].
          intros Htt. apply (nr_step _ _ (Htotal Htt)). }
        intros _. eapply (sat_then total loc cbs g with_loss with_loss).
        { apply inv_record. intros s Hs. by apply with_loss_record. }
        intros _. eapply (sat_then total loc cbs g with_loss with_loss);
          [apply inv_gets|intros opt'].
        eapply (sat_then total loc cbs g with_loss with_loss).
        { apply inv_lift_world; [|apply with_loss_world].
          intros Htt. apply (nr_zero _ _ (Htotal Htt)). }
        intros _. apply inv_record. intros s Hs. by apply with_loss_record.
      - apply inv_ret. }
    intros _. apply sat_on_loss.
    { intros Htt. apply (nr_item _ _ (Htotal Htt)). }
    intros cur_batch_loss.
    eapply (sat_then total loc cbs g with_loss with_loss).
    { apply inv_record. intros s Hs. by apply with_loss_record. }
    intros _. eapply (sat_then total loc cbs g with_loss with_loss).
    { apply fire_keeps, with_loss_hooks. }
    intros _. eapply (sat_then total loc cbs g with_loss J).
    { eapply sat_conseq;
        [apply (sat_modify_context total loc cbs g with_loss)|done| |done].
      intros u s' (s & [Hs _] & ->). by apply HJl. }
    intros _. apply inv_ret. }
  unfold batch_actions. destruct p; simpl; rewrite ?app_nil_r;
    repeat (rewrite <- ?app_assoc; simpl); reflexivity.
Qed.

(** The loop over the batches. *)
Lemma sat_batches g :
  sat g J
    (for_enumerate (fun i batch cum_loss =>
         perform_opt_step <-
           perform_opt_step_at (gradient_accumulation_steps self)
             (Z.of_nat (length (train_data_loader self))) i ;;
         l <- _train_batch self batch perform_opt_step ;;
         ret (scalar_add cum_loss l))
       0%Z (train_data_loader self) scalar_zero)
    (batches_actions (length cbs) g (gradient_accumulation_steps self)
       (length (train_data_loader self)) 0 (length (train_data_loader self)))
    (fun _ => J).
Proof.
  unfold batches_actions.
  apply (sat_for_enumerate total loc cbs g J _
           (fun j => batch_actions (length cbs) g
              (is_boundary (gradient_accumulation_steps self)
                 (Z.of_nat (length (train_data_loader self))) (Z.of_nat j)))
           (train_data_loader self) 0).
  intros j batch cum Hj. simpl.
  assert (Hin : In batch (train_data_loader self)).
  { apply list_elem_of_In. by eapply list_elem_of_lookup_2. }
  unfold perform_opt_step_at.
  destruct (gradient_accumulation_steps self =? 0)%Z eqn:Hk.
  - intros s Hl Hg Hs. simpl. split; [done|].
    destruct total; [|done].
    apply Z.eqb_eq in Hk. by destruct (nr_k _ _ (Htotal eq_refl)).
  - apply sat_bind_ret. eapply sat_acts.
    { eapply (sat_then total loc cbs g J J);
        [apply (sat_train_batch g batch _ Hin)|intros l; apply inv_ret]. }
    by rewrite app_nil_r.
Qed.

(** [_train_epoch]: [P] on entry, [J] from the moment the epoch is
    counted, [K] once the last hook has fired. *)
Lemma sat_train_epoch_general g (P K : Store -> Prop) :
  (forall s, P s -> J (epoch_begun s)) ->
  sat g J (fire self on_epoch_end) (fire_actions (length cbs) on_epoch_end)
    (fun _ => K) ->
  sat g P (_train_epoch self)
    (epoch_actions (length cbs) g (gradient_accumulation_steps self)
       (length (train_data_loader self)))
    (fun _ => K).
Proof.
  intros Hbegin Hend. unfold _train_epoch. eapply sat_acts.
  { eapply sat_bind; [apply sat_modify_context|intros u1].
    eapply (sat_then total loc cbs g _ J).
    { eapply sat_post; [apply sat_system_model_train|].
      intros u2 s2 (s1 & (s & Hs & ->) & ->).
      exact (Hbegin s Hs). }
    intros _. eapply (sat_then total loc cbs g J J).
    { apply fire_keeps, HJh. }
    intros _. eapply (sat_then total loc cbs g J J); [apply inv_gets|].
    intros opt. eapply (sat_then total loc cbs g J J).
    { apply inv_lift_world; [|apply J_world].
      intros Htt. apply (nr_zero _ _ (Htotal Htt)). }
    intros _. eapply (sat_then total loc cbs g J J).
    { apply inv_record. intros s Hs. by apply J_record. }
    intros _. eapply (sat_then total loc cbs g J J); [apply sat_batches|].
    intros _. exact Hend. }
  unfold epoch_actions. simpl. reflexivity.
Qed.

(** [_train_epoch], entered with the halt flag down. *)
Hypothesis Hbegin : forall s,
  J s -> stop_training (ctx s) = false -> J (epoch_begun s).

Lemma sat_train_epoch g :
  sat g (fun s => J s /\ stop_training (ctx s) = false)
    (_train_epoch self)
    (epoch_actions (length cbs) g (gradient_accumulation_steps self)
       (length (train_data_loader self)))
    (fun _ => J).
Proof.
  apply sat_train_epoch_general.
  - intros s [Hs Hstop]. by apply Hbegin.
  - apply fire_keeps, HJh.
Qed.

Hypothesis Happend : forall s r, J s -> J (results_appended r s).

Lemma sat_train_evaluation g :
  sat g J (_train_evaluation self) (evaluation_actions (length cbs) (eval_config self))
    (fun _ => J).
Proof.
  unfold _train_evaluation, eval_config.
  destruct (evaluation_data_loaders self) as [loaders|] eqn:El;
    [|apply inv_ret].
  destruct (evaluators self) as [evs|] eqn:Ee; [|apply inv_ret].
  eapply sat_acts.
  { eapply (sat_then total loc cbs g J J).
    { apply fire_keeps, HJh. }
    intros _. eapply (sat_then total loc cbs g J J).
    { eapply sat_conseq;
        [apply (sat_for_fold total loc cbs g J (fun _ _ => True) _
                  (fun name => evaluate_actions (dict_keys evs)
                     (length (default [] (dict_get name loaders)))))
        | | |reflexivity].
      - intros pre name post res Hpos. apply sat_pure. intros _.
        assert (Hname : In name (dict_keys loaders)).
        { rewrite Hpos. apply in_or_app. right. by left. }
        destruct (dict_get_is_Some name loaders Hname) as [loader Hget].
        unfold subscript. rewrite Hget. apply sat_bind_ret.
        eapply sat_acts.
        { eapply sat_bind.
          { apply (sat_evaluate total loc cbs g J loader evs
                     (batch_input_key self) J_world J_record).
            - intros Htt. pose proof (Htotal Htt) as Hnr.
              split; [apply (nr_model _ _ Hnr)|]. split.
              + by apply (nr_eval_key _ _ Hnr loaders name loader).
              + intros n ev Hev. by apply (nr_evaluators _ _ Hnr evs n ev).
            - intros s Hs.
              apply (J_record (set_system _ s) (AModelTrain false));
                [done|done|].
              by apply (st_train J HJ). }
          intros r.
          eapply sat_conseq; [apply (sat_ret total loc cbs g J)| | |reflexivity].
          - by intros s [Hs _].
          - intros b s [_ Hs]. exact (conj I Hs). }
        simpl. by rewrite app_nil_r.
      - intros s Hs. exact (conj I Hs).
      - by intros b s [_ Hs]. }
    intros current_results.
    eapply sat_bind; [apply sat_modify_context|intros u1].
    eapply (sat_then total loc cbs g _ J).
    { eapply sat_post; [apply sat_record|].
      intros u2 s2 (s1 & (s & Hs & ->) & ->).
      exact (Happend s current_results Hs). }
    intros _. apply fire_keeps, HJh. }
  simpl. by rewrite map_map.
Qed.

Lemma sat_iteration g :
  sat g (fun s => J s /\ stop_training (ctx s) = false)
    (_train_epoch self ;; _train_evaluation self)
    (iteration_actions (length cbs) g (gradient_accumulation_steps self)
       (length (train_data_loader self)) (eval_config self))
    (fun _ => J).
Proof.
  unfold iteration_actions.
  eapply (sat_then total loc cbs g _ J); [apply sat_train_epoch|].
  intros _. apply sat_train_evaluation.
Qed.

(** The driver's loop: some number of whole iterations, then the flag is
    up. *)
Lemma training_loop_spec g fuel : forall s out,
  default [] (lists s !! loc) = cbs -> grad_enabled s = g -> J s ->
  training_loop fuel self s = Some out ->
  match out with
  | Ret _ s' =>
      lists s' = lists s /\ grad_enabled s' = g /\
      (exists epochs, (epochs <= fuel)%nat /\
         actions s' = actions s ++
           concat (repeat (iteration_actions (length cbs) g
                             (gradient_accumulation_steps self)
                             (length (train_data_loader self)) (eval_config self))
                     epochs)) /\
      J s' /\ stop_training (ctx s') = true
  | Raise _ s' => lists s' = lists s /\ total = false
  end.
Proof.
  induction fuel as [|fuel IH]; intros s out Hl Hg Hs Hrun.
  - simpl in Hrun. destruct (stop_training (ctx s)) eqn:Hstop; [|done].
    injection Hrun as <-.
    refine (conj _ (conj _ (conj _ (conj _ _)))); [done|done| |done|done].
    exists 0%nat. simpl. by rewrite app_nil_r.
  - simpl in Hrun. destruct (stop_training (ctx s)) eqn:Hstop.
    + injection Hrun as <-.
      refine (conj _ (conj _ (conj _ (conj _ _)))); [done|done| |done|done].
      exists 0%nat. simpl. rewrite app_nil_r. split; [lia|done].
    + pose proof (sat_iteration g s Hl Hg (conj Hs Hstop)) as Hit.
      destruct ((_train_epoch self;; _train_evaluation self) s)
        as [u s1|e s1].
      * destruct Hit as (Hl1 & Hg1 & Ha1 & Hs1).
        assert (Hl1' : default [] (lists s1 !! loc) = cbs) by (by rewrite Hl1).
        specialize (IH s1 out Hl1' Hg1 Hs1 Hrun).
        destruct out as [u' s2|e s2].
        -- destruct IH as (Hl2 & Hg2 & (n & Hn & Ha2) & Hs2 & Hstop2).
           refine (conj _ (conj _ (conj _ (conj _ _))));
             [congruence|done| |done|done].
           exists (S n). split; [lia|]. rewrite Ha2, Ha1.
           cbn [repeat concat]. by rewrite app_assoc.
        -- destruct IH as [Hl2 Ht]. split; [congruence|done].
      * injection Hrun as <-. exact Hit.
Qed.

Lemma model_training_train mode m : model_training (model_train mode m) = mode.
Proof. by destruct m. Qed.

Lemma sat_finish g :
  sat g J
    (fire self on_training_end ;;
     system_model_train false ;;
     gets (fun s => _results_history (ctx s)))
    (fire_actions (length cbs) on_training_end ++ [AModelTrain false])
    (fun hist s => J s /\ hist = _results_history (ctx s) /\
                   model_training (model (system s)) = false).
Proof.
  eapply sat_acts.
  { eapply (sat_then total loc cbs g J J).
    { apply fire_keeps, HJh. }
    intros _.
    eapply (sat_then total loc cbs g J
              (fun s => J s /\ model_training (model (system s)) = false)).
    { eapply sat_post; [apply sat_system_model_train|].
      intros u s' (s & Hs & ->). split.
      - apply (J_record (set_system _ s) (AModelTrain false)); [done|done|].
        by apply (st_train J HJ).
      - simpl. apply model_training_train. }
    intros _. eapply sat_post; [apply sat_gets|].
    intros hist s [-> [Hs Hm]]. auto. }
  simpl. rewrite ?app_nil_r. reflexivity.
Qed.

(** [run]: the actions of a whole run, the value returned and the mode
    the model is left in. *)
Lemma run_spec g fuel s out :
  default [] (lists s !! loc) = cbs -> grad_enabled s = g -> J s ->
  run fuel self s = Some out ->
  match out with
  | Ret hist s' =>
      lists s' = lists s /\ grad_enabled s' = g /\
      (exists epochs, (epochs <= fuel)%nat /\
         actions s' = actions s ++
           run_actions (length cbs) g (gradient_accumulation_steps self)
             (length (train_data_loader self)) (eval_config self) epochs) /\
      J s' /\ hist = _results_history (ctx s') /\
      model_training (model (system s')) = false
  | Raise _ s' => lists s' = lists s /\ total = false
  end.
Proof.
  intros Hl Hg Hs Hrun. unfold run in Hrun.
  pose proof (fire_keeps g J on_training_start HJh s Hl Hg Hs) as H1.
  destruct (fire self on_training_start s) as [u1 s1|e s1];
    [|by injection Hrun as <-].
  destruct H1 as (Hl1 & Hg1 & Ha1 & Hs1).
  assert (Hl1' : default [] (lists s1 !! loc) = cbs) by (by rewrite Hl1).
  destruct (training_loop fuel self s1) as [[u2 s2|e s2]|] eqn:Hloop; [| |done].
  - pose proof (training_loop_spec g fuel s1 _ Hl1' Hg1 Hs1 Hloop) as H2.
    simpl in H2. destruct H2 as (Hl2 & Hg2 & (n & Hn & Ha2) & Hs2 & Hstop2).
    assert (Hl2' : default [] (lists s2 !! loc) = cbs) by (by rewrite Hl2).
    pose proof (sat_finish g s2 Hl2' Hg2 Hs2) as H3.
    injection Hrun as <-.
    match goal with |- match ?m s2 with _ => _ end =>
      destruct (m s2) as [hist s3|e s3] end.
    + destruct H3 as (Hl3 & Hg3 & Ha3 & Hs3 & Hh & Hm).
      refine (conj _ (conj _ (conj _ (conj _ (conj _ _)))));
        [congruence|done| |done|done|done].
      exists n. split; [done|]. unfold run_actions.
      rewrite Ha3, Ha2, Ha1. by rewrite <- !app_assoc.
    + destruct H3 as [Hl3 Ht]. split; [congruence|done].
  - pose proof (training_loop_spec g fuel s1 _ Hl1' Hg1 Hs1 Hloop) as H2.
    simpl in H2. injection Hrun as <-. destruct H2 as [Hl2 Ht].
    split; [congruence|done].
Qed.

End Batch.
End EngineSpec.

(** ** Lists of actions *)

Lemma is_boundary_decide k nb i :
  is_boundary k (Z.of_nat nb) (Z.of_nat i) =
  bool_decide (optimization_boundary k nb i).
Proof.
  unfold is_boundary, optimization_boundary.
  destruct (Z.eqb_spec (Z.of_nat i mod k) 0) as [E1|E1];
    destruct (Z.eqb_spec (Z.of_nat i) (Z.of_nat nb - 1)) as [E2|E2]; simpl;
    symmetry; try (apply bool_decide_eq_true; tauto).
  apply bool_decide_eq_false. tauto.
Qed.

Lemma batches_actions_boundary n g k nb :
  batches_actions n g k nb 0 nb =
  concat (map (fun i => batch_actions n g
                          (bool_decide (optimization_boundary k nb i)))
            (seq 0 nb)).
Proof.
  unfold batches_actions. f_equal. apply map_ext. intros i.
  by rewrite is_boundary_decide.
Qed.










Lemma optimizer_steps_app l1 l2 :
  optimizer_steps (l1 ++ l2) = (optimizer_steps l1 + optimizer_steps l2)%nat.
Proof. apply count_occ_app. Qed.

Lemma optimizer_steps_fire n h : optimizer_steps (fire_actions n h) = 0%nat.
Proof.
  unfold fire_actions, optimizer_steps.
  induction (seq 0 n); simpl; [done|]. by rewrite IHl.
Qed.

Lemma optimizer_steps_batch n g p :
  optimizer_steps (batch_actions n g p) = if p then 1%nat else 0%nat.
Proof.
  unfold batch_actions.
  destruct p; repeat (rewrite ?optimizer_steps_app, ?optimizer_steps_fire);
    reflexivity.
Qed.


Lemma count_map_other (f : string -> Action) names a :
  (forall y, f y <> a) -> count_occ Action_eq_dec (map f names) a = 0%nat.
Proof.
  intros Hf. apply count_occ_not_In. intros Hin.
  apply in_map_iff in Hin as (y & Hy & _). by apply (Hf y).
Qed.

Lemma count_concat_repeat (x : list Action) n a :
  count_occ Action_eq_dec (concat (repeat x n)) a =
  (n * count_occ Action_eq_dec x a)%nat.
Proof.
  induction n as [|n IH]; simpl; [done|]. by rewrite count_occ_app, IH.
Qed.

Lemma model_train_train a b m :
  model_train a (model_train b m) = model_train a m.
Proof. induction m; simpl; congruence. Qed.



Lemma model_placement_to d m : model_placement (model_to d m) = d.
Proof. induction m; simpl; auto. Qed.

(** * Properties of the engine and the facade *)

(** ** What a run does, for any collaborators *)

Section Properties.
Context `{Collaborators}.

Lemma stable_True : stable (fun _ => True).
Proof. by split. Qed.

Lemma lookup_default (s : Store) (l : nat) (cbs : list Callback) :
  lists s !! l = Some cbs -> default [] (lists s !! l) = cbs.
Proof. by intros ->. Qed.

Lemma eval_config_configured self :
  match eval_config self with Some _ => true | None => false end =
  evaluation_configured self.
Proof.
  unfold eval_config, evaluation_configured.
  by destruct (evaluation_data_loaders self), (evaluators self).
Qed.


(** A run of the engine: what it leaves and what it did. *)
Lemma run_log self cbs fuel s out :
  lists s !! callbacks self = Some cbs ->
  run fuel self s = Some out ->
  lists (outcome_store out) = lists s /\
  forall hist s', out = Ret hist s' ->
    exists epochs,
      (epochs <= fuel)%nat /\
      actions s' = actions s ++
        run_actions (length cbs) (grad_enabled s)
          (gradient_accumulation_steps self)
          (length (train_data_loader self)) (eval_config self) epochs /\
      hist = _results_history (training_context s') /\
      model_training (model (system s')) = false.
Proof.
  intros Hl Hrun.
  assert (Ht : false = true -> no_raise self cbs) by done.
  pose proof (run_spec false self cbs Ht (fun _ => True) stable_True
                (fun _ _ _ => I) (fun _ _ _ _ _ _ _ _ => I)
                (fun _ _ _ _ _ _ _ _ _ => I) (fun _ _ _ => I)
                (fun _ _ _ => I) (grad_enabled s) fuel s out
                (lookup_default s _ cbs Hl) eq_refl I Hrun) as Hspec.
  destruct out as [hist s'|e s']; simpl.
  - destruct Hspec as (Hl' & _ & (n & Hn & Ha) & _ & Hh & Hm).
    split; [done|]. intros hist0 s0 [= <- <-]. eauto 6.
  - destruct Hspec as [Hl' _]. split; [done|]. by intros hist0 s0 [=].
Qed.



(** *** [_Trainer.__init__] and [train] *)

Lemma init_spec lw opt loader evl key evs given k s :
  exists tr s1,
    _Trainer__init__ lw opt loader evl key evs given k s = Ret tr s1 /\
    tr = trainer_for loader evl key evs (callbacks tr) k /\
    train_data_loader tr = loader /\ evaluation_data_loaders tr = evl /\
    batch_input_key tr = key /\ evaluators tr = evs /\
    gradient_accumulation_steps tr = k /\
    lists s1 !! callbacks tr = Some (init_callbacks given s) /\
    system s1 = system s /\ world s1 = world s /\
    grad_enabled s1 = grad_enabled s /\ log s1 = log s /\
    training_context s1 = fresh_context lw opt /\
    (forall l cbs, given = Some l -> lists s !! l = Some cbs ->
       callbacks tr = l /\
       lists s1 = if existsb is_stopping_criterion cbs then lists s
                  else <[l := cbs ++ [NumberOfEpochsStoppingCriterionCallback 1]]>
                         (lists s)).
Proof.
  unfold _Trainer__init__, init_callbacks.
  destruct given as [l|]; simpl.
  - unfold bind, modify, gets, ret; simpl.
    destruct (existsb is_stopping_criterion (default [] (lists s !! l)))
      eqn:Hex; simpl.
    + eexists _, _. split; [reflexivity|]. simpl.
      repeat (split; [reflexivity|]).
      split.
      { destruct (lists s !! l) as [cbs|] eqn:E; [done|].
        simpl in Hex. done. }
      repeat (split; [reflexivity|]).
      intros l' cbs [= <-] Hl. rewrite Hl in Hex. simpl in Hex.
      by rewrite Hex.
    + eexists _, _. split; [reflexivity|]. simpl.
      repeat (split; [reflexivity|]).
      split; [by rewrite lookup_insert_eq|].
      repeat (split; [reflexivity|]).
      intros l' cbs [= <-] Hl. rewrite Hl in Hex. simpl in Hex.
      rewrite Hex. by rewrite Hl.
  - unfold bind, modify, gets, ret; simpl.
    eexists _, _. split; [reflexivity|]. simpl.
    repeat (split; [reflexivity|]).
    split; [by rewrite lookup_insert_eq|].
    repeat (split; [reflexivity|]). by intros l cbs [=].
Qed.

Lemma train_run fuel lw opt loader evl key evs given k s :
  exists tr s1,
    _Trainer__init__ lw opt loader evl key evs given k s = Ret tr s1 /\
    train fuel lw opt loader evl key evs given k s = run fuel tr s1.
Proof.
  destruct (init_spec lw opt loader evl key evs given k s)
    as (tr & s1 & Hinit & _).
  exists tr, s1. split; [done|]. unfold train. by rewrite Hinit.
Qed.

(** C9.  When a list without a stopping criterion is passed to [train],
    the injected default is appended to that very list: after the call,
    however it ends, the caller's list is one element longer; later calls
    with the same list find the element there and leave the list alone. *)
Theorem C9_default_appended_in_place
    fuel lw opt loader evl key evs k l cbs s out :
  lists s !! l = Some cbs ->
  existsb is_stopping_criterion cbs = false ->
  train fuel lw opt loader evl key evs (Some l) k s = Some out ->
  lists (outcome_store out) !! l =
    Some (cbs ++ [NumberOfEpochsStoppingCriterionCallback 1]) /\
  length (cbs ++ [NumberOfEpochsStoppingCriterionCallback 1]) =
    S (length cbs) /\
  forall fuel' lw' opt' loader' evl' key' evs' k' out',
    train fuel' lw' opt' loader' evl' key' evs' (Some l) k'
      (outcome_store out) = Some out' ->
    lists (outcome_store out') !! l =
      Some (cbs ++ [NumberOfEpochsStoppingCriterionCallback 1]).
Proof.
  intros Hl Hex Htrain.
  assert (Hfirst : lists (outcome_store out) !! l =
            Some (cbs ++ [NumberOfEpochsStoppingCriterionCallback 1])).
  { destruct (init_spec lw opt loader evl key evs (Some l) k s)
      as (tr & s1 & Hinit & _ & _ & _ & _ & _ & _ & Hcbs & _ & _ & _ & _ & _ & Hsome).
    destruct (Hsome l cbs eq_refl Hl) as [Hloc Hlists].
    unfold train in Htrain. rewrite Hinit in Htrain.
    destruct (run_log tr _ fuel s1 out Hcbs Htrain) as [Hkeep _].
    rewrite Hkeep, Hlists, Hex. by rewrite lookup_insert_eq. }
  split; [exact Hfirst|]. split; [rewrite length_app; simpl; lia|].
  intros fuel' lw' opt' loader' evl' key' evs' k' out' Htrain'.
  destruct (init_spec lw' opt' loader' evl' key' evs' (Some l) k'
              (outcome_store out))
    as (tr & s1 & Hinit & _ & _ & _ & _ & _ & _ & Hcbs & _ & _ & _ & _ & _ & Hsome).
  destruct (Hsome l _ eq_refl Hfirst) as [Hloc Hlists].
  unfold train in Htrain'. rewrite Hinit in Htrain'.
  destruct (run_log tr _ fuel' s1 out' Hcbs Htrain') as [Hkeep _].
  rewrite Hkeep, Hlists.
  rewrite existsb_app. simpl. rewrite orb_true_r. exact Hfirst.
Qed.

(** C10.  When [load_model_state] returns, the model is placed on the
    facade's device, and that device is the one recorded before the call;
    it returns whenever the two runtime calls it makes return. *)
Theorem C10_load_model_state f strict s :
  (forall keys s', load_model_state f strict s = Ret keys s' ->
     _device (system s') = _device (system s) /\
     model_placement (model (system s')) = _device (system s') /\
     last_activation (system s') = last_activation (system s)) /\
  (forall state w1 keys w2,
     torch_load f (world s) = Ret state w1 ->
     load_state_dict (model (system s))
       (if is_data_parallel (model (system s))
        then map (fun kv => (String.append "module." (fst kv), snd kv)) state
        else state) strict w1 = Ret keys w2 ->
     exists s', load_model_state f strict s = Ret keys s').
Proof.
  assert (Hplace : forall d m, model_placement (model_to d m) = d).
  { intros d m. induction m; simpl; auto. }
  unfold load_model_state, bind, lift_world, gets, modify, ret. split.
  - intros keys s'. destruct (torch_load f (world s)) as [state w1|e w1];
      simpl; [|done].
    match goal with |- context [load_state_dict ?m ?st ?b ?w] =>
      destruct (load_state_dict m st b w) as [ks w2|e w2] end; simpl; [|done].
    intros [= <- <-]. simpl. auto.
  - intros state w1 keys w2 Hload Hstate. rewrite Hload. cbn.
    lazymatch type of Hstate with
    | ?L = _ =>
        match goal with
        | |- context [load_state_dict ?m ?st ?b ?w] =>
            change (load_state_dict m st b w) with L
        end
    end.
    rewrite Hstate. simpl. eauto.
Qed.


(** *** [train_on_multi_gpus] *)


Lemma In_init_callbacks given (s : Store) cb :
  In cb (init_callbacks given s) ->
  In cb (supplied_callbacks given s) \/
  cb = NumberOfEpochsStoppingCriterionCallback 1.
Proof.
  unfold init_callbacks, supplied_callbacks. destruct given as [l|]; simpl.
  - destruct (existsb _ _); [tauto|]. rewrite in_app_iff. simpl.
    intuition auto.
  - intuition auto.
Qed.



End Properties.

(** ** Counting actions in a run *)

Lemma count_fire_other a n h :
  (forall i, a <> AHook h i) ->
  count_occ Action_eq_dec (fire_actions n h) a = 0%nat.
Proof.
  intros Ha. apply count_occ_not_In. unfold fire_actions. intros Hin.
  apply in_map_iff in Hin as (i & Hi & _). by apply (Ha i).
Qed.


Lemma count_concat_map_zero {A} (f : A -> list Action) (l : list A) a :
  (forall x, count_occ Action_eq_dec (f x) a = 0%nat) ->
  count_occ Action_eq_dec (concat (map f l)) a = 0%nat.
Proof.
  intros Hf. induction l as [|x l IH]; simpl; [done|].
  by rewrite count_occ_app, Hf, IH.
Qed.

Ltac count_blocks :=
  rewrite ?count_occ_app;
  rewrite ?count_fire_other by (intros; congruence);
  cbn [count_occ];
  repeat (destruct (Action_eq_dec _ _) as [?|?]; [congruence|]);
  try reflexivity.

Lemma count_batch_outer a n g p :
  outer_action a -> count_occ Action_eq_dec (batch_actions n g p) a = 0%nat.
Proof.
  intros [->|[->|[i ->]]]; unfold batch_actions; destruct p; count_blocks.
Qed.

Lemma count_evaluate_outer a names nb :
  outer_action a ->
  count_occ Action_eq_dec (evaluate_actions names nb) a = 0%nat.
Proof.
  intros Ha. unfold evaluate_actions.
  rewrite !count_occ_app, count_concat_repeat. cbn [count_occ].
  rewrite !count_map_other
    by (intros y; destruct Ha as [->|[->|[i ->]]]; congruence).
  destruct Ha as [->|[->|[i ->]]];
    repeat (destruct (Action_eq_dec _ _) as [?|?]; [congruence|]); lia.
Qed.

Lemma count_epoch_outer a n g k nb :
  outer_action a ->
  count_occ Action_eq_dec (epoch_actions n g k nb) a =
  if decide (a = AModelTrain true) then 1%nat else 0%nat.
Proof.
  intros Ha. unfold epoch_actions, batches_actions.
  rewrite !count_occ_app, count_concat_map_zero
    by (intros; by apply count_batch_outer).
  destruct Ha as [->|[->|[i ->]]]; count_blocks.
Qed.

Lemma count_evaluation_outer a n cfg :
  outer_action a ->
  count_occ Action_eq_dec (evaluation_actions n cfg) a =
  match cfg with
  | Some _ => if decide (a = AResultsAppend) then 1%nat else 0%nat
  | None => 0%nat
  end.
Proof.
  intros Ha. destruct cfg as [[sizes names]|]; [|done].
  unfold evaluation_actions.
  rewrite !count_occ_app, count_concat_map_zero
    by (intros; by apply count_evaluate_outer).
  destruct Ha as [->|[->|[i ->]]]; count_blocks.
Qed.

Lemma count_iteration_outer a n g k nb cfg :
  outer_action a ->
  count_occ Action_eq_dec (iteration_actions n g k nb cfg) a =
  if decide (a = AModelTrain true) then 1%nat
  else match cfg with
       | Some _ => if decide (a = AResultsAppend) then 1%nat else 0%nat
       | None => 0%nat
       end.
Proof.
  intros Ha. unfold iteration_actions.
  rewrite count_occ_app, count_epoch_outer, count_evaluation_outer by done.
  destruct Ha as [->|[->|[i ->]]]; destruct cfg; simpl; reflexivity.
Qed.

Lemma count_run_begin n g k nb cfg epochs :
  count_occ Action_eq_dec (run_actions n g k nb cfg epochs) (AModelTrain true)
  = epochs.
Proof.
  unfold run_actions.
  rewrite !count_occ_app, count_concat_repeat, count_iteration_outer
    by (by left).
  count_blocks. simpl. lia.
Qed.

Lemma count_run_append n g k nb cfg epochs :
  count_occ Action_eq_dec (run_actions n g k nb cfg epochs) AResultsAppend
  = match cfg with Some _ => epochs | None => 0%nat end.
Proof.
  unfold run_actions.
  rewrite !count_occ_app, count_concat_repeat, count_iteration_outer
    by (right; by left).
  count_blocks. destruct cfg; simpl; lia.
Qed.



(** ** The halt flag and the results history along a run *)

Section Contracts.
Context `{Collaborators}.












Lemma history_invariant_record l0 h0 s a :
  a <> AResultsAppend -> history_invariant l0 h0 s ->
  history_invariant l0 h0
    (set_log (log s ++ [(a, stop_training (training_context s))]) s).
Proof.
  intros Ha (new & added & Hlog & Hhist & Hlen).
  exists (new ++ [(a, stop_training (training_context s))]), added. simpl.
  split; [by rewrite Hlog, app_assoc|]. split; [done|].
  rewrite map_app, count_occ_app. simpl.
  destruct (Action_eq_dec a AResultsAppend); [done|]. lia.
Qed.

Lemma history_invariant_stable l0 h0 : stable (history_invariant l0 h0).
Proof.
  split; try (by intros s ? Hs).
  intros s a _ Ha Hs. by apply history_invariant_record.
Qed.

Lemma history_invariant_append l0 h0 s r :
  history_invariant l0 h0 s -> history_invariant l0 h0 (results_appended r s).
Proof.
  intros (new & added & Hlog & Hhist & Hlen).
  exists (new ++ [(AResultsAppend, stop_training (training_context s))]),
         (added ++ [r]).
  unfold results_appended. simpl.
  split; [by rewrite Hlog, app_assoc|].
  split; [by rewrite Hhist, app_assoc|].
  rewrite map_app, count_occ_app, length_app. simpl. lia.
Qed.

Lemma history_invariant_begin l0 h0 s :
  history_invariant l0 h0 s -> history_invariant l0 h0 (epoch_begun s).
Proof.
  intros (new & added & Hlog & Hhist & Hlen).
  exists (new ++ [(AModelTrain true, stop_training (training_context s))]),
         added.
  unfold epoch_begun. simpl.
  split; [by rewrite Hlog, app_assoc|]. split; [done|].
  rewrite map_app, count_occ_app. simpl. lia.
Qed.

Lemma history_invariant_view l0 h0 s (v' : View) :
  history_invariant l0 h0 s ->
  _results_history (v_context v') = _results_history (training_context s) ->
  history_invariant l0 h0 (put_view v' s).
Proof.
  intros (new & added & Hlog & Hhist & Hlen) Hsame.
  exists new, added. simpl. by rewrite Hsame.
Qed.


Lemma number_of_epochs_hook_spec n h v :
  exists v', number_of_epochs_hook n h v = Ret tt v' /\
    current_loss (v_context v') = current_loss (v_context v) /\
    _current_epoch (v_context v') = _current_epoch (v_context v) /\
    _results_history (v_context v') = _results_history (v_context v) /\
    (stop_training (v_context v) = true ->
     stop_training (v_context v') = true) /\
    (h <> on_epoch_end ->
     stop_training (v_context v') = stop_training (v_context v)) /\
    (h = on_epoch_end -> (n <= _current_epoch (v_context v) + 1)%Z ->
     stop_training (v_context v') = true).
Proof.
  destruct h; simpl; try (by eexists; split; [reflexivity|]).
  destruct (Z.leb_spec n (_current_epoch (v_context v) + 1)).
  - eexists. split; [reflexivity|]. simpl. tauto.
  - eexists. split; [reflexivity|]. simpl.
    repeat (split; [done|]). intros _ Hle. lia.
Qed.

(** One pass of the loop body, with user code that leaves the history
    alone: the history keeps its entries and gains one when evaluation is
    configured, none otherwise. *)
Lemma iteration_history self cbs s0 u s1 :
  lists s0 !! callbacks self = Some cbs ->
  hooks_keep_history cbs -> loss_wrapper_keeps_history ->
  stop_training (training_context s0) = false ->
  (_train_epoch self ;; _train_evaluation self) s0 = Ret u s1 ->
  exists added,
    _results_history (training_context s1) =
      _results_history (training_context s0) ++ added /\
    length added = if evaluation_configured self then 1%nat else 0%nat.
Proof.
  intros Hl Hhooks Hlw Hstop Hrun.
  assert (Ht : false = true -> no_raise self cbs) by done.
  set (J := history_invariant (log s0)
              (_results_history (training_context s0))).
  assert (HJs : stable J) by apply history_invariant_stable.
  assert (HJ0 : J s0) by (exists [], []; by rewrite !app_nil_r).
  pose proof (sat_iteration false self cbs Ht J HJs (fun _ _ Hs => Hs)
                (hooks_keep_intro _ _ (st_record _ HJs)
                   (fun cb h s v' Hin Hs Hv =>
                      history_invariant_view _ _ s v' Hs
                        (Hhooks cb h _ _ Hin Hv)))
                (loss_wrapper_keeps_intro _ (st_record _ HJs)
                   (fun lw o b la s x v' Hs Hv =>
                      history_invariant_view _ _ s v' Hs
                        (Hlw _ _ _ _ _ _ _ Hv)))
                (fun s Hs _ => history_invariant_begin _ _ s Hs)
                (history_invariant_append _ _)
                (grad_enabled s0) s0 (lookup_default s0 _ cbs Hl) eq_refl
                (conj HJ0 Hstop)) as Hsat.
  rewrite Hrun in Hsat.
  destruct Hsat as (_ & _ & Ha & (new & added & Hlog & Hadd & Hlen)).
  exists added. split; [exact Hadd|]. rewrite Hlen.
  assert (Hnew : map fst new =
            iteration_actions (length cbs) (grad_enabled s0)
              (gradient_accumulation_steps self)
              (length (train_data_loader self)) (eval_config self)).
  { unfold actions in Ha. rewrite Hlog, map_app in Ha.
    by apply app_inv_head in Ha. }
  rewrite Hnew, count_iteration_outer by (right; by left).
  rewrite <- eval_config_configured. by destruct (eval_config self).
Qed.

(** C6.  In every run that [train] starts and that returns, the engine
    appends to the history once per epoch when both evaluation mappings
    were supplied and never when one is absent, in which case
    [_train_evaluation] does nothing at all.  With user code that leaves
    the history alone, every pass of the loop body keeps the entries there
    are and adds at most one, and the history returned has one entry per
    append of the engine: it is no longer than the number of epochs, and
    as long when evaluation is configured. *)
Theorem C6_results_history fuel lw opt loader evl key evs given k s hist s' :
  train fuel lw opt loader evl key evs given k s = Some (Ret hist s') ->
  (exists epochs new,
     actions s' = actions s ++ new /\
     count_occ Action_eq_dec new (AModelTrain true) = epochs /\
     count_occ Action_eq_dec new AResultsAppend =
       (match evl, evs with Some _, Some _ => epochs | _, _ => 0%nat end) /\
     (hooks_keep_history (supplied_callbacks given s) ->
      loss_wrapper_keeps_history ->
      length hist = count_occ Action_eq_dec new AResultsAppend /\
      (length hist <= epochs)%nat)) /\
  (forall self cbs s0 u s1,
     lists s0 !! callbacks self = Some cbs ->
     hooks_keep_history cbs -> loss_wrapper_keeps_history ->
     stop_training (training_context s0) = false ->
     (_train_epoch self ;; _train_evaluation self) s0 = Ret u s1 ->
     exists added,
       _results_history (training_context s1) =
         _results_history (training_context s0) ++ added /\
       length added = if evaluation_configured self then 1%nat else 0%nat) /\
  (forall self s0, evaluation_configured self = false ->
     _train_evaluation self s0 = Ret tt s0).
Proof.
  intros Htrain. split; [|split].
  - destruct (init_spec lw opt loader evl key evs given k s)
      as (tr & s1 & Hinit & _ & _ & Hevl & _ & Hevs & _ & Hcbs & _ & _ & _
          & Hlog & Hctx & _).
    unfold train in Htrain. rewrite Hinit in Htrain.
    destruct (run_log tr _ fuel s1 _ Hcbs Htrain) as [_ Hrl].
    destruct (Hrl hist s' eq_refl) as (n & _ & Ha & Hh & _).
    set (new := run_actions (length (init_callbacks given s))
                  (grad_enabled s1) (gradient_accumulation_steps tr)
                  (length (train_data_loader tr)) (eval_config tr) n) in *.
    assert (Happ : count_occ Action_eq_dec new AResultsAppend =
              match evl, evs with Some _, Some _ => n | _, _ => 0%nat end).
    { unfold new. rewrite count_run_append. unfold eval_config.
      rewrite Hevl, Hevs. by destruct evl, evs. }
    exists n, new.
    split; [rewrite Ha; unfold actions; by rewrite Hlog|].
    split; [apply count_run_begin|]. split; [exact Happ|].
    intros Hhooks Hlw.
    assert (Ht : false = true -> no_raise tr (init_callbacks given s)) by done.
    assert (H0' : history_invariant (log s1) [] s1).
    { exists [], []. rewrite app_nil_r, Hctx. done. }
    assert (Hk : hooks_keep (init_callbacks given s)
                   (history_invariant (log s1) [])).
    { apply hooks_keep_intro;
        [exact (st_record _ (history_invariant_stable _ _))|].
      intros cb h s0 v' Hin Hs0 Hv. apply history_invariant_view; [done|].
      apply In_init_callbacks in Hin as [Hin| ->].
      - by apply (Hhooks cb h (view s0)).
      - destruct (number_of_epochs_hook_spec 1 h (view s0))
          as (v'' & Hv'' & _ & _ & Hh' & _).
        simpl in Hv. rewrite Hv in Hv''. injection Hv'' as <-. exact Hh'. }
    pose proof (run_spec false tr _ Ht (history_invariant (log s1) [])
                  (history_invariant_stable _ _)
                  (fun _ _ Hs0 => Hs0) Hk
                  (loss_wrapper_keeps_intro _
                     (st_record _ (history_invariant_stable _ _))
                     (fun lw0 o b la s0 x v' Hs0 Hv =>
                        history_invariant_view _ _ s0 v' Hs0
                          (Hlw _ _ _ _ _ _ _ Hv)))
                  (fun s0 Hs0 _ => history_invariant_begin _ _ s0 Hs0)
                  (history_invariant_append _ _)
                  (grad_enabled s1) fuel s1 _
                  (lookup_default s1 _ _ Hcbs) eq_refl H0' Htrain) as Hspec.
    simpl in Hspec.
    destruct Hspec as (_ & _ & _ & (new' & added & Hlog' & Hadd & Hlen) & _).
    assert (Hnew : map fst new' = new).
    { unfold actions in Ha. rewrite Hlog', map_app in Ha.
      by apply app_inv_head in Ha. }
    assert (Hhist : length hist = count_occ Action_eq_dec new AResultsAppend).
    { rewrite Hh, Hadd, <- Hnew. simpl. by rewrite Hlen. }
    split; [exact Hhist|].
    rewrite Hhist, Happ. destruct evl, evs; lia.
  - intros self cbs s0 u s1. apply iteration_history.
  - intros self s0 Hcfg. unfold _train_evaluation.
    unfold evaluation_configured in Hcfg.
    by destruct (evaluation_data_loaders self), (evaluators self).
Qed.

End Contracts.

(** ** The injected default stopping criterion *)

Section Default.
Context `{Collaborators}.

Lemma no_raise_default self cbs n :
  no_raise self cbs ->
  no_raise self (cbs ++ [NumberOfEpochsStoppingCriterionCallback n]).
Proof.
  intros Hnr. destruct Hnr. split; try done.
  intros cb h v Hin. apply in_app_iff in Hin as [Hin|[<-|[]]]; [by auto|].
  destruct (number_of_epochs_hook_spec n h v) as (v' & Hv & Hl & _).
  exists v'. split; [exact Hv|]. by rewrite Hl.
Qed.

Lemma init_callbacks_default given (s : Store) :
  existsb is_stopping_criterion (supplied_callbacks given s) = false ->
  init_callbacks given s =
  supplied_callbacks given s ++ [NumberOfEpochsStoppingCriterionCallback 1].
Proof.
  unfold init_callbacks, supplied_callbacks. destruct given as [l|]; [|done].
  simpl. by intros ->.
Qed.

(** A predicate on the flag and the epoch index, next to one that the
    engine's own steps keep. *)
Lemma stable_with (phi : bool -> Z -> Prop) (J : Store -> Prop) :
  stable J ->
  stable (fun s => phi (stop_training (training_context s))
                     (_current_epoch (training_context s)) /\ J s).
Proof.
  intros HJ. split.
  - intros s w [Hp Hs]. split; [exact Hp|by apply (st_world J HJ)].
  - intros s m [Hp Hs]. split; [exact Hp|by apply (st_train J HJ)].
  - intros s b [Hp Hs]. split; [exact Hp|by apply (st_batch J HJ)].
  - intros s o [Hp Hs]. split; [exact Hp|by apply (st_output J HJ)].
  - intros s a Ha1 Ha2 [Hp Hs]. split; [exact Hp|by apply (st_record J HJ)].
Qed.

(** C7.  When the callbacks passed to [train] hold no stopping criterion
    (or none are passed), and user code returns and leaves the engine's
    bookkeeping alone, [train] appends the default criterion for one
    epoch, runs exactly one epoch and returns; the history has one entry
    if both evaluation mappings were supplied and none otherwise. *)
Theorem C7_default_stopping_criterion
    fuel lw opt loader evl key evs given k s :
  existsb is_stopping_criterion (supplied_callbacks given s) = false ->
  (forall l, well_behaved (trainer_for loader evl key evs l k)
               (supplied_callbacks given s)) ->
  (1 <= fuel)%nat ->
  exists hist s' l,
    train fuel lw opt loader evl key evs given k s = Some (Ret hist s') /\
    lists s' !! l =
      Some (supplied_callbacks given s ++
            [NumberOfEpochsStoppingCriterionCallback 1]) /\
    actions s' = actions s ++
      run_actions (S (length (supplied_callbacks given s))) (grad_enabled s)
        k (length loader) (eval_config (trainer_for loader evl key evs l k))
        1 /\
    count_occ Action_eq_dec
      (run_actions (S (length (supplied_callbacks given s))) (grad_enabled s)
         k (length loader) (eval_config (trainer_for loader evl key evs l k))
         1)
      (AModelTrain true) = 1%nat /\
    length hist =
      match evl, evs with Some _, Some _ => 1%nat | _, _ => 0%nat end.
Proof.
  intros Hex Hwb Hfuel.
  destruct (init_spec lw opt loader evl key evs given k s)
    as (tr & s1 & Hinit & Htr & Hloader & _ & _ & _ & Hk & Hcbs & _ & _ & Hg
        & Hlog & Hctx & _).
  rewrite init_callbacks_default in Hcbs by done.
  specialize (Hwb (callbacks tr)). rewrite <- Htr in Hwb.
  destruct Hwb as [Hnr Hhooks Hlw].
  set (sup := supplied_callbacks given s) in *.
  set (cbs' := sup ++ [NumberOfEpochsStoppingCriterionCallback 1]) in *.
  assert (Htotal : true = true -> no_raise tr cbs')
    by (intros _; by apply no_raise_default).
  set (g := grad_enabled s1).
  set (HI := history_invariant (log s1) []).
  set (K1 := fun s0 : Store =>
         (stop_training (training_context s0) = false /\
          _current_epoch (training_context s0) = (-1)%Z) /\ HI s0).
  set (J2 := fun s0 : Store =>
         _current_epoch (training_context s0) = 0%Z /\ HI s0).
  set (K2 := fun s0 : Store =>
         stop_training (training_context s0) = true /\ HI s0).
  assert (HIs : stable HI) by apply history_invariant_stable.
  assert (HK1 : stable K1)
    by apply (stable_with (fun st e => st = false /\ e = (-1)%Z) HI HIs).
  assert (HJ2 : stable J2)
    by apply (stable_with (fun _ e => e = 0%Z) HI HIs).
  assert (HK2 : stable K2)
    by apply (stable_with (fun st _ => st = true) HI HIs).
  assert (Hcb : forall cb h v v', In cb cbs' ->
            callback_hook cb h v = Ret tt v' ->
            _current_epoch (v_context v') = _current_epoch (v_context v) /\
            _results_history (v_context v') = _results_history (v_context v) /\
            (stop_training (v_context v) = true ->
             stop_training (v_context v') = true) /\
            (h <> on_epoch_end ->
             stop_training (v_context v') = stop_training (v_context v))).
  { intros cb h v v' Hin Hv. apply in_app_iff in Hin as [Hin|[<-|[]]].
    - destruct (Hhooks cb h v v' Hin Hv) as (Hs & He & Hh). rewrite Hs. auto.
    - destruct (number_of_epochs_hook_spec 1 h v)
        as (v'' & Hv'' & _ & He & Hh & Hm & Hne & _).
      simpl in Hv. rewrite Hv in Hv''. injection Hv'' as <-. auto. }
  assert (HIv : forall cb h s0 v', In cb cbs' -> HI s0 ->
            callback_hook cb h (view s0) = Ret tt v' -> HI (put_view v' s0)).
  { intros cb h s0 v' Hin Hs0 Hv. apply history_invariant_view; [done|].
    by destruct (Hcb cb h (view s0) v' Hin Hv) as (_ & Hh & _). }
  assert (HIh : hooks_keep cbs' HI).
  { apply hooks_keep_intro; [exact (st_record _ HIs)|exact HIv]. }
  assert (HJ2h : hooks_keep cbs' J2).
  { apply hooks_keep_intro; [exact (st_record _ HJ2)|].
    intros cb h s0 v' Hin [He Hs0] Hv. split; [|by apply (HIv cb h)].
    destruct (Hcb cb h (view s0) v' Hin Hv) as (He' & _). simpl.
    by rewrite He'. }
  assert (HK2h : hooks_keep cbs' K2).
  { apply hooks_keep_intro; [exact (st_record _ HK2)|].
    intros cb h s0 v' Hin [Hst Hs0] Hv. split; [|by apply (HIv cb h)].
    destruct (Hcb cb h (view s0) v' Hin Hv) as (_ & _ & Hm & _). simpl.
    by apply Hm. }
  assert (HIw' : forall lw0 o b la s0 x v', HI s0 ->
            calculate_loss lw0 o b la (view s0) = Ret x v' ->
            HI (put_view v' s0)).
  { intros lw0 o b la s0 x v' Hs0 Hv. apply history_invariant_view; [done|].
    by destruct (Hlw _ _ _ _ _ _ _ Hv) as (_ & _ & Hh). }
  assert (HIw : loss_wrapper_keeps HI).
  { apply loss_wrapper_keeps_intro; [exact (st_record _ HIs)|exact HIw']. }
  assert (HJ2w : loss_wrapper_keeps J2).
  { apply loss_wrapper_keeps_intro; [exact (st_record _ HJ2)|].
    intros lw0 o b la s0 x v' [He Hs0] Hv. split; [|by eapply HIw'].
    destruct (Hlw _ _ _ _ _ _ _ Hv) as (_ & He' & _). simpl. by rewrite He'. }
  assert (HJ2l : keeps_loss_slot J2) by (by intros s0 l [He Hs0]).
  (* on_training_start *)
  assert (HK1s1 : K1 s1).
  { split; [by rewrite Hctx|]. exists [], []. by rewrite app_nil_r, Hctx. }
  pose proof (sat_fire true (callbacks tr) cbs' tr g K1 on_training_start
                eq_refl
                (fun i s0 Hs0 =>
                   st_record K1 HK1 s0 (AHook on_training_start i)
                     ltac:(done) ltac:(done) Hs0))
    as H1.
  assert (H1cb : forall cb, In cb cbs' ->
            (true = true -> forall v, exists v',
               callback_hook cb on_training_start v = Ret tt v') /\
            (forall s0 v', K1 s0 ->
               callback_hook cb on_training_start (view s0) = Ret tt v' ->
               K1 (put_view v' s0))).
  { intros cb Hin. split.
    - intros _ v.
      destruct (nr_hook _ _ (Htotal eq_refl) cb on_training_start v Hin)
        as (v' & Hv & _). eauto.
    - intros s0 v' [[Hst He] Hs0] Hv.
      destruct (Hcb cb _ (view s0) v' Hin Hv) as (He' & _ & _ & Hst').
      split; [|by apply (HIv cb on_training_start)]. simpl.
      rewrite He', Hst' by done. done. }
  specialize (H1 H1cb s1 (lookup_default s1 _ _ Hcbs) eq_refl HK1s1).
  destruct (fire tr on_training_start s1) as [u2 s2|e2 s2] eqn:E1;
    [|by destruct H1].
  destruct H1 as (Hl2 & Hg2 & Ha2 & HK1s2).
  (* the one epoch *)
  assert (Hend : sat true (callbacks tr) cbs' g J2 (fire tr on_epoch_end)
                   (fire_actions (length cbs') on_epoch_end) (fun _ => K2)).
  { eapply sat_conseq;
      [apply (sat_fire_family true (callbacks tr) cbs' tr g
                (fun i s0 => if decide (i <= length sup)%nat
                             then J2 s0 else K2 s0)
                on_epoch_end eq_refl)
      | | |reflexivity].
    - intros i cb Hi. split.
      + intros _ v.
        assert (Hin : In cb cbs')
          by (apply list_elem_of_In; by eapply list_elem_of_lookup_2).
        destruct (nr_hook _ _ (Htotal eq_refl) cb on_epoch_end v Hin)
          as (v' & Hv & _). eauto.
      + intros s0 v' Hs0 Hv.
        assert (Hlt : (i < length cbs')%nat) by (by eapply lookup_lt_Some).
        unfold cbs' in Hlt. rewrite length_app in Hlt. simpl in Hlt.
        destruct (decide (i <= length sup)%nat) as [_|?]; [|lia].
        destruct Hs0 as [He Hs0].
        assert (HIafter : HI (set_log (log (put_view v' s0) ++
                                [(AHook on_epoch_end i,
                                  stop_training (v_context v'))])
                                (put_view v' s0))).
        { apply (history_invariant_record _ _ (put_view v' s0));
            [done|].
          apply history_invariant_view; [done|].
          assert (Hin : In cb cbs')
            by (apply list_elem_of_In; by eapply list_elem_of_lookup_2).
          by destruct (Hcb cb _ (view s0) v' Hin Hv) as (_ & Hh & _). }
        destruct (decide (S i <= length sup)%nat) as [Hle|Hgt].
        * split; [|exact HIafter].
          assert (Hin : In cb cbs')
            by (apply list_elem_of_In; by eapply list_elem_of_lookup_2).
          destruct (Hcb cb _ (view s0) v' Hin Hv) as (He' & _). simpl.
          by rewrite He'.
        * split; [|exact HIafter].
          assert (i = length sup) by lia. subst i.
          unfold cbs' in Hi. rewrite lookup_app_r in Hi by lia.
          rewrite Nat.sub_diag in Hi. injection Hi as <-.
          destruct (number_of_epochs_hook_spec 1 on_epoch_end (view s0))
            as (v'' & Hv'' & _ & _ & _ & _ & _ & Hset).
          change (number_of_epochs_hook 1 on_epoch_end (view s0) = Ret tt v')
            in Hv.
          rewrite Hv in Hv''. injection Hv'' as <-. simpl.
          apply Hset; [done|]. simpl. lia.
    - intros s0 Hs0. simpl.
      destruct (decide (0 <= length sup)%nat); [done|lia].
    - intros u s0 Hs0. simpl in Hs0. unfold cbs' in Hs0.
      rewrite length_app in Hs0. simpl in Hs0.
      destruct (decide (length sup + 1 <= length sup)%nat); [lia|done]. }
  assert (Hit : sat true (callbacks tr) cbs' g K1
                  (_train_epoch tr ;; _train_evaluation tr)
                  (iteration_actions (length cbs') g
                     (gradient_accumulation_steps tr)
                     (length (train_data_loader tr)) (eval_config tr))
                  (fun _ => K2)).
  { unfold iteration_actions. eapply (sat_then true _ cbs' g K1 K2).
    - apply (sat_train_epoch_general true tr cbs' Htotal J2 HJ2 HJ2l HJ2h
               HJ2w g K1 K2); [|exact Hend].
      intros s0 [[Hst He] Hs0]. split; [simpl; lia|].
      by apply history_invariant_begin.
    - intros _. apply (sat_train_evaluation true tr cbs' Htotal K2 HK2 HK2h).
      intros s0 r [Hst Hs0]. split; [done|].
      by apply history_invariant_append. }
  assert (Hl2' : default [] (lists s2 !! callbacks tr) = cbs').
  { rewrite Hl2. by apply lookup_default. }
  pose proof (Hit s2 Hl2' Hg2 HK1s2) as H2.
  destruct ((_train_epoch tr;; _train_evaluation tr) s2) as [u3 s3|e3 s3] eqn:E2;
    [|by destruct H2].
  destruct H2 as (Hl3 & Hg3 & Ha3 & [Hstop3 HI3]).
  (* on_training_end and the return *)
  assert (Hl3' : default [] (lists s3 !! callbacks tr) = cbs')
    by (by rewrite Hl3).
  pose proof (sat_finish true tr cbs' Htotal HI HIs HIh g s3 Hl3' Hg3 HI3)
    as H3.
  match type of H3 with match ?m s3 with _ => _ end =>
    destruct (m s3) as [hist s4|e4 s4] eqn:E3 end; [|by destruct H3].
  destruct H3 as (Hl4 & Hg4 & Ha4 & HI4 & Hh4 & Hm4).
  exists hist, s4, (callbacks tr).
  split; [|split; [|split; [|split]]].
  - unfold train. rewrite Hinit. unfold run. rewrite E1.
    destruct fuel as [|fuel]; [lia|]. simpl.
    destruct HK1s2 as [[Hstop2 _] _]. rewrite Hstop2.
    change (bind (_train_epoch tr) (fun _ => _train_evaluation tr) s2)
      with ((_train_epoch tr;; _train_evaluation tr) s2).
    rewrite E2.
    assert (Hloop : training_loop fuel tr s3 = Some (Ret tt s3)).
    { destruct fuel; simpl; by rewrite Hstop3. }
    rewrite Hloop. by rewrite E3.
  - rewrite Hl4, Hl3, Hl2. exact Hcbs.
  - rewrite Ha4, Ha3, Ha2. unfold actions. rewrite Hlog.
    unfold run_actions. cbn [repeat concat].
    rewrite <- Htr. subst g. rewrite Hg.
    replace (length cbs') with (S (length sup))
      by (unfold cbs'; rewrite length_app; simpl; lia).
    rewrite app_nil_r, Hloader, Hk. by rewrite <- !app_assoc.
  - apply count_run_begin.
  - destruct HI4 as (new & added & Hlog4 & Hhist4 & Hlen4).
    rewrite Hh4, Hhist4. simpl. rewrite Hlen4.
    assert (Hnew : map fst new =
              run_actions (length cbs') g (gradient_accumulation_steps tr)
                (length (train_data_loader tr)) (eval_config tr) 1).
    { unfold actions in Ha4, Ha3, Ha2.
      rewrite Ha3, Ha2, Hlog4, map_app in Ha4.
      rewrite <- !app_assoc in Ha4. apply app_inv_head in Ha4.
      rewrite Ha4. unfold run_actions. cbn [repeat concat].
      by rewrite app_nil_r. }
    rewrite Hnew, count_run_append. rewrite Htr. unfold eval_config. simpl.
    by destruct evl, evs.
Qed.

End Default.

(** ** The number of optimizer steps of an epoch *)

Lemma ceil_div_succ (m k : Z) :
  (0 <= m)%Z -> (1 <= k)%Z ->
  ceil_div (m + 1) k =
  (ceil_div m k + if decide (m mod k = 0) then 1 else 0)%Z.
Proof.
  intros Hm Hk. unfold ceil_div.
  pose proof (Z.div_mod m k ltac:(lia)) as Hdm.
  pose proof (Z.mod_pos_bound m k ltac:(lia)) as Hr.
  set (q := (m / k)%Z) in *. set (r := (m mod k)%Z) in *.
  assert (H1 : ((m + 1 + k - 1) / k = q + 1)%Z).
  { symmetry. apply (Z.div_unique _ _ _ r); lia. }
  rewrite H1. destruct (decide (r = 0%Z)) as [Hz|Hnz].
  - assert (H2 : ((m + k - 1) / k = q)%Z).
    { symmetry. apply (Z.div_unique _ _ _ (k - 1)); lia. }
    lia.
  - assert (H2 : ((m + k - 1) / k = q + 1)%Z).
    { symmetry. apply (Z.div_unique _ _ _ (r - 1)); lia. }
    lia.
Qed.

Lemma ceil_div_nonneg (m k : Z) : (0 <= m)%Z -> (1 <= k)%Z -> (0 <= ceil_div m k)%Z.
Proof. intros Hm Hk. unfold ceil_div. apply Z.div_pos; lia. Qed.

(** The multiples of [k] below [m]. *)
Lemma multiples_below (k : Z) (m : nat) :
  (1 <= k)%Z ->
  length (List.filter (fun i => bool_decide (Z.of_nat i mod k = 0)%Z) (seq 0 m))
  = Z.to_nat (ceil_div (Z.of_nat m) k).
Proof.
  intros Hk. induction m as [|m IH].
  - simpl. unfold ceil_div. rewrite Z.div_small by lia. done.
  - rewrite seq_S, List.filter_app, length_app, IH. simpl.
    replace (Z.of_nat (S m)) with (Z.of_nat m + 1)%Z by lia.
    rewrite ceil_div_succ by lia.
    pose proof (ceil_div_nonneg (Z.of_nat m) k ltac:(lia) Hk).
    destruct (decide (Z.of_nat m mod k = 0)%Z) as [Hz|Hnz].
    + rewrite bool_decide_eq_true_2 by done. simpl. lia.
    + rewrite bool_decide_eq_false_2 by done. simpl. lia.
Qed.

Lemma boundaries_of_epoch (k : Z) (nb : nat) :
  (1 <= k)%Z -> (1 <= nb)%nat ->
  length (List.filter (fun i => bool_decide (optimization_boundary k nb i))
            (seq 0 nb))
  = (Z.to_nat (ceil_div (Z.of_nat nb - 1) k) + 1)%nat.
Proof.
  intros Hk Hnb. destruct nb as [|m]; [lia|].
  rewrite seq_S, List.filter_app, length_app. simpl.
  rewrite (bool_decide_eq_true_2 (optimization_boundary k (S m) m))
    by (right; lia).
  simpl. f_equal.
  replace (Z.of_nat (S m) - 1)%Z with (Z.of_nat m) by lia.
  rewrite <- multiples_below by done. f_equal.
  apply List.filter_ext_in. intros i Hi. apply in_seq in Hi.
  unfold optimization_boundary.
  destruct (decide (Z.of_nat i mod k = 0)%Z) as [Hz|Hnz].
  - rewrite !bool_decide_eq_true_2; auto.
  - rewrite !bool_decide_eq_false_2; [done|done|]. intros [?|?]; [done|lia].
Qed.

Lemma optimizer_steps_batches n g k nb (l : list nat) :
  optimizer_steps
    (concat (map (fun i => batch_actions n g
                             (bool_decide (optimization_boundary k nb i))) l))
  = length (List.filter (fun i => bool_decide (optimization_boundary k nb i)) l).
Proof.
  induction l as [|i l IH]; simpl; [done|].
  rewrite optimizer_steps_app, optimizer_steps_batch, IH.
  by destruct (bool_decide (optimization_boundary k nb i)).
Qed.

(** What the code does where C1 promises [ceil(n / k)]: an epoch of
    [nb >= 1] batches with step count [k >= 1] takes
    [ceil((nb - 1) / k) + 1] optimizer steps. *)
Lemma epoch_optimizer_steps n g (k : Z) (nb : nat) :
  (1 <= k)%Z -> (1 <= nb)%nat ->
  optimizer_steps (epoch_actions n g k nb)
  = (Z.to_nat (ceil_div (Z.of_nat nb - 1) k) + 1)%nat.
Proof.
  intros Hk Hnb. unfold epoch_actions.
  rewrite !optimizer_steps_app, !optimizer_steps_fire,
    batches_actions_boundary, optimizer_steps_batches,
    boundaries_of_epoch by done.
  unfold optimizer_steps. simpl. lia.
Qed.

(** The same count against [ceil(nb / k)]: the two agree exactly when [k]
    divides [nb - 1]; otherwise the epoch takes one step more. *)
Lemma epoch_steps_against_ceil n g (k : Z) (nb : nat) :
  (1 <= k)%Z -> (1 <= nb)%nat ->
  optimizer_steps (epoch_actions n g k nb)
  = (Z.to_nat (ceil_div (Z.of_nat nb) k) +
     if decide ((Z.of_nat nb - 1) mod k = 0)%Z then 0 else 1)%nat.
Proof.
  intros Hk Hnb. rewrite epoch_optimizer_steps by done.
  replace (Z.of_nat nb) with (Z.of_nat nb - 1 + 1)%Z at 2 by lia.
  rewrite ceil_div_succ by lia.
  pose proof (ceil_div_nonneg (Z.of_nat nb - 1) k ltac:(lia) Hk).
  destruct (decide ((Z.of_nat nb - 1) mod k = 0)%Z); lia.
Qed.

Section EpochSteps.
Context `{Collaborators}.


End EpochSteps.

(** * Concrete runs *)

#[local] Existing Instance toy_runtime.
#[local] Existing Instance toy_collaborators.

Lemma toy_no_raise self cbs :
  Forall (has_input (batch_input_key self)) (train_data_loader self) ->
  gradient_accumulation_steps self <> 0%Z ->
  (forall evs name ev, evaluators self = Some evs ->
     dict_get name evs = Some ev -> ev = toy_evaluator) ->
  (forall loaders name loader, evaluation_data_loaders self = Some loaders ->
     dict_get name loaders = Some loader ->
     Forall (has_input (batch_input_key self)) loader) ->
  Forall (fun cb => cb = toy_observer \/
                    exists n, cb = NumberOfEpochsStoppingCriterionCallback n)
    cbs ->
  no_raise self cbs.
Proof.
  intros Hkey Hk Hev Hevl Hcbs. split.
  - intros cb h v Hin. rewrite Forall_forall in Hcbs.
    destruct (Hcbs cb ltac:(by apply list_elem_of_In)) as [->|[n ->]].
    + exists v. done.
    + destruct (number_of_epochs_hook_spec n h v) as (v' & Hv & Hl & _).
      exists v'. split; [exact Hv|]. by rewrite Hl.
  - intros; by eexists _, _.
  - intros m ts w; by eexists _, _.
  - intros; by eexists _, _.
  - intros; by eexists _, _.
  - intros; by eexists _, _.
  - intros; by eexists _, _.
  - exact Hkey.
  - exact Hk.
  - intros evs name ev He Hget. rewrite (Hev evs name ev He Hget).
    repeat split; intros; by eexists _, _.
  - exact Hevl.
Qed.

(** ** Runs of the engine *)


(** C1, on the code.  With accumulation step count 2 and 4 batches, one
    pass of [_train_epoch] takes 3 optimizer steps, at the indices 0, 2
    and 3, where [ceil(4 / 2)] is 2. *)
Theorem C1_steps_with_k2_n4 :
  exists s',
    _train_epoch (toy_trainer 4 2 false) (toy_store [toy_observer])
      = Ret tt s' /\
    optimizer_steps (actions s') = 3%nat /\
    world s' = 3%Z /\
    List.filter (fun i => is_boundary 2 4 (Z.of_nat i)) (seq 0 4) = [0; 2; 3]%nat /\
    ceil_div 4 2 = 2%Z.
Proof.
  eexists. split; [vm_compute; reflexivity|].
  split; [reflexivity|]. split; [reflexivity|]. split; reflexivity.
Qed.






Lemma toy_train_returns :
  train 5 toy_loss_wrapper toy_optimizer (toy_loader 3) (Some [("dev"%string, toy_loader 1)]) "input"
    (Some [("acc"%string, toy_evaluator)]) (Some 0%nat) 2
    (toy_store toy_callbacks)
  = Some (Ret toy_train_history toy_train_end).
Proof. vm_compute. reflexivity. Defined.

Lemma toy_hooks_keep_history cbs :
  Forall (fun cb => cb = toy_observer \/
                    exists n, cb = NumberOfEpochsStoppingCriterionCallback n)
    cbs ->
  forall cb h v v', In cb cbs -> callback_hook cb h v = Ret tt v' ->
    (stop_training (v_context v') = stop_training (v_context v) \/
     is_stopping_criterion cb = true) /\
    _current_epoch (v_context v') = _current_epoch (v_context v) /\
    _results_history (v_context v') = _results_history (v_context v).
Proof.
  intros Hcbs cb h v v' Hin Hv. rewrite Forall_forall in Hcbs.
  destruct (Hcbs cb ltac:(by apply list_elem_of_In)) as [->|[n ->]].
  - injection Hv as <-. auto.
  - destruct (number_of_epochs_hook_spec n h v)
      as (v'' & Hv'' & _ & He & Hh & _).
    simpl in Hv. rewrite Hv in Hv''. injection Hv'' as <-. auto.
Defined.

Lemma toy_callbacks_keep_history :
  hooks_keep_history
    (supplied_callbacks (Some 0%nat) (toy_store toy_callbacks)).
Proof.
  intros cb h v v' Hin Hv.
  refine (proj2 (proj2 (toy_hooks_keep_history toy_callbacks _ cb h v v' Hin Hv))).
  constructor; [by left|]. constructor; [right; by eexists|]. constructor.
Defined.

Lemma toy_loss_wrapper_keeps_history : loss_wrapper_keeps_history.
Proof. intros lw o b la v x v' Hv. by injection Hv as _ <-. Defined.

Lemma C6_results_history_witness :
  train 5 toy_loss_wrapper toy_optimizer (toy_loader 3) (Some [("dev"%string, toy_loader 1)]) "input"
    (Some [("acc"%string, toy_evaluator)]) (Some 0%nat) 2
    (toy_store toy_callbacks)
  = Some (Ret toy_train_history toy_train_end) /\
  hooks_keep_history
    (supplied_callbacks (Some 0%nat) (toy_store toy_callbacks)) /\
  loss_wrapper_keeps_history /\
  length toy_train_history = 2%nat /\
  exists epochs new,
    actions toy_train_end = actions (toy_store toy_callbacks) ++ new /\
    count_occ Action_eq_dec new (AModelTrain true) = epochs /\
    count_occ Action_eq_dec new AResultsAppend = epochs /\
    length toy_train_history = count_occ Action_eq_dec new AResultsAppend /\
    (length toy_train_history <= epochs)%nat.
Proof.
  split; [exact toy_train_returns|].
  split; [exact toy_callbacks_keep_history|].
  split; [exact toy_loss_wrapper_keeps_history|]. split; [reflexivity|].
  destruct (proj1 (C6_results_history 5 toy_loss_wrapper toy_optimizer
                     (toy_loader 3) (Some [("dev"%string, toy_loader 1)])
                     "input" (Some [("acc"%string, toy_evaluator)])
                     (Some 0%nat) 2 (toy_store toy_callbacks)
                     toy_train_history toy_train_end toy_train_returns))
    as (epochs & new & Ha & Hb & Happ & Hhist).
  exists epochs, new. split; [exact Ha|]. split; [exact Hb|].
  split; [exact Happ|].
  exact (Hhist toy_callbacks_keep_history toy_loss_wrapper_keeps_history).
Defined.

Lemma toy_well_behaved l :
  well_behaved
    (trainer_for (toy_loader 3) (Some [("dev"%string, toy_loader 1)]) "input"
       (Some [("acc"%string, toy_evaluator)]) l 2)
    (supplied_callbacks (Some 0%nat) (toy_store [toy_observer])).
Proof.
  split.
  - apply toy_no_raise.
    + repeat constructor; by eexists.
    + done.
    + intros evs name ev [= <-] Hget. simpl in Hget.
      destruct (String.eqb name "acc"); [by injection Hget as <-|done].
    + intros loaders name loader [= <-] Hget. simpl in Hget.
      destruct (String.eqb name "dev"); [|done]. injection Hget as <-.
      repeat constructor; by eexists.
    + repeat constructor; eauto.
  - intros cb h v v' Hin Hv. destruct Hin as [<-|[]]. by injection Hv as <-.
  - intros lw o b la v x v' Hv. by injection Hv as _ <-.
Defined.

Lemma C7_default_stopping_criterion_witness :
  existsb is_stopping_criterion
    (supplied_callbacks (Some 0%nat) (toy_store [toy_observer])) = false /\
  (forall l,
     well_behaved
       (trainer_for (toy_loader 3) (Some [("dev"%string, toy_loader 1)])
          "input" (Some [("acc"%string, toy_evaluator)]) l 2)
       (supplied_callbacks (Some 0%nat) (toy_store [toy_observer]))) /\
  (1 <= 1)%nat /\
  exists hist s' l,
    train 1 toy_loss_wrapper toy_optimizer (toy_loader 3) (Some [("dev"%string, toy_loader 1)]) "input"
      (Some [("acc"%string, toy_evaluator)]) (Some 0%nat) 2
      (toy_store [toy_observer]) = Some (Ret hist s') /\
    lists s' !! l =
      Some (supplied_callbacks (Some 0%nat) (toy_store [toy_observer]) ++
            [NumberOfEpochsStoppingCriterionCallback 1]) /\
    length hist = 1%nat.
Proof.
  split; [reflexivity|]. split; [exact toy_well_behaved|]. split; [lia|].
  destruct (C7_default_stopping_criterion 1 toy_loss_wrapper toy_optimizer (toy_loader 3)
              (Some [("dev"%string, toy_loader 1)]) "input"
              (Some [("acc"%string, toy_evaluator)]) (Some 0%nat) 2
              (toy_store [toy_observer]) eq_refl toy_well_behaved
              (le_n 1))
    as (hist & s' & l & Htrain & Hlists & _ & _ & Hlen).
  exists hist, s', l. auto.
Defined.


Lemma C9_default_appended_in_place_witness :
  lists (toy_store [toy_observer]) !! 0%nat = Some [toy_observer] /\
  existsb is_stopping_criterion [toy_observer] = false /\
  train 3 toy_loss_wrapper toy_optimizer (toy_loader 2) None "input" None
    (Some 0%nat) 1 (toy_store [toy_observer]) = Some toy_first_outcome /\
  lists (outcome_store toy_first_outcome) !! 0%nat =
    Some [toy_observer; NumberOfEpochsStoppingCriterionCallback 1].
Proof.
  assert (Hrun : train 3 toy_loss_wrapper toy_optimizer (toy_loader 2) None
                   "input" None (Some 0%nat) 1 (toy_store [toy_observer])
                 = Some toy_first_outcome) by (vm_compute; reflexivity).
  split; [reflexivity|]. split; [reflexivity|]. split; [exact Hrun|].
  exact (proj1 (C9_default_appended_in_place 3 toy_loss_wrapper toy_optimizer
                  (toy_loader 2) None "input" None 1 0%nat [toy_observer]
                  (toy_store [toy_observer]) toy_first_outcome
                  eq_refl eq_refl Hrun)).
Defined.

Lemma C10_load_model_state_witness :
  exists keys s',
    load_model_state toy_file true
      (set_system {| model := Net false (cuda None);
                     last_activation := None; _device := cuda (Some 1%Z) |}
         (toy_store [])) = Ret keys s' /\
    _device (system s') = cuda (Some 1%Z) /\
    model_placement (model (system s')) = cuda (Some 1%Z).
Proof.
  exists ([], []). eexists. split; [vm_compute; reflexivity|].
  match goal with |- _device (system ?s') = _ /\ _ =>
    destruct (proj1 (C10_load_model_state toy_file true
                (set_system {| model := Net false (cuda None);
                               last_activation := None;
                               _device := cuda (Some 1%Z) |}
                   (toy_store []))) ([], []) s') as (Hd & Hp & _)
  end.
  - vm_compute. reflexivity.
  - split; [exact Hd|]. rewrite Hp. exact Hd.
Defined.



(** * Further properties of the facade and the engine *)

(** ** What every exit leaves behind: rules *)

Lemma dict_set_new {V} (k : string) (v : V) (d : dict V) :
  ~ In k (dict_keys d) -> dict_set k v d = d ++ [(k, v)].
Proof.
  induction d as [|[k' v'] d IH]; simpl; intros Hk; [done|].
  destruct (String.eqb_spec k k') as [->|_]; [tauto|].
  rewrite IH; [done|tauto].
Qed.

Section ExitRules.
Context `{Collaborators}.
Variable loc : nat.
Variable cbs : list Callback.
Variable Rs : System -> System -> Prop.
Variable Rc : TrainingContext -> TrainingContext -> Prop.
Context {HRs : PreOrder Rs} {HRc : PreOrder Rc}.

Local Abbreviation exits := (exits loc cbs Rs Rc).

Lemma exits_ret {A} (a : A) : exits (ret a).
Proof. intros s _. unfold left_behind. simpl. done. Qed.

Lemma exits_raise {A} (e : Exn) : exits (raise e : M Store A).
Proof. intros s _. unfold left_behind. simpl. done. Qed.

Lemma exits_gets {A} (f : Store -> A) : exits (gets f).
Proof. intros s _. unfold left_behind. simpl. done. Qed.

Lemma exits_bind {A B} (m : M Store A) (k : A -> M Store B) :
  exits m -> (forall a, exits (k a)) -> exits (bind m k).
Proof.
  intros Hm Hk s Hl. unfold bind. specialize (Hm s Hl).
  destruct (m s) as [a s1|e s1]; simpl in *; [|exact Hm].
  destruct Hm as (Hg & Hls & Hs & Hc).
  assert (Hl1 : default [] (lists s1 !! loc) = cbs) by (by rewrite Hls).
  destruct (Hk a s1 Hl1) as (Hg' & Hls' & Hs' & Hc'). unfold left_behind.
  split; [congruence|]. split; [congruence|].
  split; etransitivity; eauto.
Qed.

Lemma exits_record (a : Action) : exits (record a).
Proof. intros s _. unfold left_behind. simpl. done. Qed.

Lemma exits_modify_context f :
  (forall c, Rc c (f c)) -> exits (modify_context f).
Proof. intros Hf s _. simpl. repeat split; [reflexivity|apply Hf]. Qed.

Lemma exits_lift_world {A} (m : M World A) : exits (lift_world m).
Proof.
  intros s _. unfold left_behind, lift_world. destruct (m (world s)); simpl; done.
Qed.

Lemma exits_lift_view {A} (m : M View A) :
  (forall v, Rs (v_system v) (v_system (outcome_store (m v))) /\
             Rc (v_context v) (v_context (outcome_store (m v)))) ->
  exits (lift_view m).
Proof.
  intros Hm s _. unfold left_behind, lift_view. specialize (Hm (view s)).
  destruct (m (view s)); simpl in *; tauto.
Qed.

Lemma exits_subscript {V} (d : dict V) (k : string) : exits (subscript d k).
Proof.
  intros s _. unfold left_behind, subscript. destruct (dict_get k d); simpl; done.
Qed.

Lemma exits_system_model_train (mode : bool) :
  (forall x, Rs x (set_model (model_train mode (model x)) x)) ->
  exits (system_model_train mode).
Proof.
  intros Hm s _. unfold left_behind. simpl.
  repeat split; [apply Hm|reflexivity].
Qed.

Lemma exits_with_no_grad {A} (m : M Store A) :
  exits m -> exits (with_no_grad m).
Proof.
  intros Hm s Hl. unfold with_no_grad.
  destruct (Hm (set_grad_enabled false s) Hl) as (_ & Hls & Hs & Hc).
  unfold left_behind.
  destruct (m (set_grad_enabled false s)); simpl in *; done.
Qed.

Lemma exits_for_each {A} (body : A -> M Store unit) (l : list A) :
  (forall x, In x l -> exits (body x)) -> exits (for_each body l).
Proof.
  induction l as [|x l IH]; intros Hb; simpl; [apply exits_ret|].
  apply exits_bind; [apply Hb; by left|intros _].
  apply IH. intros y Hy. apply Hb. by right.
Qed.

Lemma exits_for_fold {A B} (body : A -> B -> M Store B) (l : list A) :
  (forall x acc, In x l -> exits (body x acc)) ->
  forall acc, exits (for_fold body l acc).
Proof.
  induction l as [|x l IH]; intros Hb acc; simpl; [apply exits_ret|].
  apply exits_bind; [apply Hb; by left|intros acc'].
  apply IH. intros y acc0 Hy. apply Hb. by right.
Qed.

Lemma exits_for_indexed {A} (body : nat -> A -> M Store unit) (l : list A) :
  (forall i x, In x l -> exits (body i x)) ->
  forall i, exits (for_indexed body i l).
Proof.
  induction l as [|x l IH]; intros Hb i; simpl; [apply exits_ret|].
  apply exits_bind; [apply Hb; by left|intros _].
  apply IH. intros j y Hy. apply Hb. by right.
Qed.

Lemma exits_for_enumerate {A B} (body : Z -> A -> B -> M Store B)
    (l : list A) :
  (forall i x acc, In x l -> exits (body i x acc)) ->
  forall i acc, exits (for_enumerate body i l acc).
Proof.
  induction l as [|x l IH]; intros Hb i acc; simpl; [apply exits_ret|].
  apply exits_bind; [apply Hb; by left|intros acc'].
  apply IH. intros j y acc0 Hy. apply Hb. by right.
Qed.

Lemma exits_predict_batch input : exits (predict_batch input).
Proof.
  unfold predict_batch.
  repeat (apply exits_bind; [|intros ?]);
    first [apply exits_gets|apply exits_lift_world|apply exits_record
          |apply exits_ret].
Qed.

End ExitRules.

(** Applies a rule and finds the preorders it asks for. *)
Ltac exits_rule L := apply L; try exact _.

(** ** What every exit of [evaluate] and of the engine leaves behind *)

Section ExitEngine.
Context `{Collaborators}.

Lemma same_but_mode_preorder : PreOrder same_but_mode.
Proof.
  split.
  - intros x. by left.
  - intros x y z [->|[m ->]] [->|[m' ->]]; unfold same_but_mode; eauto.
    right. exists m'. destruct x. unfold set_model. simpl.
    by rewrite model_train_train.
Qed.

Lemma any_context_preorder : PreOrder (fun _ _ : TrainingContext => True).
Proof. by split. Qed.


Lemma same_but_mode_device x y : same_but_mode x y -> _device y = _device x.
Proof. by intros [->|[m ->]]. Qed.

Lemma same_but_mode_last_activation x y :
  same_but_mode x y -> last_activation y = last_activation x.
Proof. by intros [->|[m ->]]. Qed.

Lemma hooks_respect_weaken cbs (Rs Rs' : System -> System -> Prop)
    (Rc Rc' : TrainingContext -> TrainingContext -> Prop) :
  (forall x y, Rs x y -> Rs' x y) -> (forall c d, Rc c d -> Rc' c d) ->
  hooks_respect cbs Rs Rc -> hooks_respect cbs Rs' Rc'.
Proof. intros HRs HRc Hh cb h v Hin. destruct (Hh cb h v Hin). auto. Qed.

Lemma loss_wrapper_respects_weaken (Rs Rs' : System -> System -> Prop)
    (Rc Rc' : TrainingContext -> TrainingContext -> Prop) :
  (forall x y, Rs x y -> Rs' x y) -> (forall c d, Rc c d -> Rc' c d) ->
  loss_wrapper_respects Rs Rc -> loss_wrapper_respects Rs' Rc'.
Proof. intros HRs HRc Hh lw o b la v. destruct (Hh lw o b la v). auto. Qed.

Lemma number_of_epochs_respects n h v :
  v_system (outcome_store (number_of_epochs_hook n h v)) = v_system v /\
  _current_epoch (v_context (outcome_store (number_of_epochs_hook n h v)))
  = _current_epoch (v_context v).
Proof.
  destruct h; simpl; try done. by destruct (n <=? _)%Z.
Qed.

Variable loc : nat.
Variable cbs : list Callback.
Variable Rs : System -> System -> Prop.
Variable Rc : TrainingContext -> TrainingContext -> Prop.
Context {HRs : PreOrder Rs} {HRc : PreOrder Rc}.

Local Abbreviation exits := (exits loc cbs Rs Rc).

(** [evaluate] after its first statement, [self.model.train(False)]. *)
Lemma exits_evaluate_rest loader evs key :
  exits (for_each (fun evaluator_name =>
             ev <- subscript evs evaluator_name ;;
             lift_world (ev_reset ev) ;;
             record (AEvaluatorReset evaluator_name))
           (dict_keys evs) ;;
         with_no_grad
           (for_each (fun batch =>
               input <- subscript batch key ;;
               outputs <- predict_batch input ;;
               for_each (fun evaluator_name =>
                   ev <- subscript evs evaluator_name ;;
                   la <- gets (fun s => last_activation (system s)) ;;
                   lift_world (ev_step ev outputs batch la) ;;
                   record (AEvaluatorStep evaluator_name))
                 (dict_keys evs))
             loader) ;;
         for_fold (fun evaluator_name results =>
             ev <- subscript evs evaluator_name ;;
             r <- lift_world (ev_calculate ev) ;;
             record (AEvaluatorCalculate evaluator_name) ;;
             ret (dict_set evaluator_name r results))
           (dict_keys evs) []).
Proof.
  exits_rule exits_bind; [|intros _; exits_rule exits_bind; [|intros _]].
  - exits_rule exits_for_each. intros name _.
    repeat (exits_rule exits_bind; [|intros ?]);
      first [exits_rule exits_subscript|exits_rule exits_lift_world
            |exits_rule exits_record].
  - exits_rule exits_with_no_grad. exits_rule exits_for_each. intros batch _.
    exits_rule exits_bind; [exits_rule exits_subscript|intros input].
    exits_rule exits_bind; [exits_rule exits_predict_batch|intros outputs].
    exits_rule exits_for_each. intros name _.
    repeat (exits_rule exits_bind; [|intros ?]);
      first [exits_rule exits_subscript|exits_rule exits_gets
            |exits_rule exits_lift_world|exits_rule exits_record].
  - exits_rule exits_for_fold. intros name acc _.
    repeat (exits_rule exits_bind; [|intros ?]);
      first [exits_rule exits_subscript|exits_rule exits_lift_world
            |exits_rule exits_record|exits_rule exits_ret].
Qed.

Lemma exits_evaluate loader evs key :
  (forall x, Rs x (set_model (model_train false (model x)) x)) ->
  exits (evaluate loader evs key).
Proof.
  intros Hmode. unfold evaluate.
  exits_rule exits_bind; [by exits_rule exits_system_model_train|intros _].
  apply exits_evaluate_rest.
Qed.

Variable self : _Trainer.
Hypothesis Hloc : callbacks self = loc.
Hypothesis Hhooks : hooks_respect cbs Rs Rc.
Hypothesis Hlw : loss_wrapper_respects Rs Rc.
Hypothesis Hbatch : forall c b, Rc c (set_current_batch b c).
Hypothesis Houtput : forall c o, Rc c (set_current_output o c).
Hypothesis Hloss : forall c l, Rc c (set_current_loss l c).

Lemma exits_fire h : exits (fire self h).
Proof.
  intros s Hl. unfold fire, bind. simpl. rewrite Hloc, Hl.
  apply (exits_for_indexed loc cbs Rs Rc); [|exact Hl].
  intros i cb Hin. exits_rule exits_bind; [|intros _; exits_rule exits_record].
  exits_rule exits_lift_view. intros v. by apply Hhooks.
Qed.

Lemma exits_train_batch batch p : exits (_train_batch self batch p).
Proof.
  unfold _train_batch.
  exits_rule exits_bind; [by exits_rule exits_modify_context|intros _].
  exits_rule exits_bind; [exits_rule exits_fire|intros _].
  exits_rule exits_bind; [exits_rule exits_subscript|intros input].
  exits_rule exits_bind; [exits_rule exits_predict_batch|intros outputs].
  exits_rule exits_bind; [by exits_rule exits_modify_context|intros _].
  exits_rule exits_bind; [by exits_rule exits_modify_context|intros _].
  exits_rule exits_bind; [exits_rule exits_fire|intros _].
  exits_rule exits_bind; [exits_rule exits_gets|intros lw].
  exits_rule exits_bind; [exits_rule exits_gets|intros out].
  exits_rule exits_bind; [exits_rule exits_gets|intros la].
  exits_rule exits_bind; [exits_rule exits_lift_view; intros v; apply Hlw|intros loss].
  exits_rule exits_bind; [exits_rule exits_record|intros _].
  exits_rule exits_bind; [by exits_rule exits_modify_context|intros _].
  exits_rule exits_bind; [by exits_rule exits_modify_context|intros _].
  exits_rule exits_bind; [exits_rule exits_fire|intros _].
  exits_rule exits_bind; [exits_rule exits_gets|intros cur].
  exits_rule exits_bind;
    [destruct cur; [exits_rule exits_lift_world|exits_rule exits_raise]|intros _].
  exits_rule exits_bind; [exits_rule exits_record|intros _].
  exits_rule exits_bind; [exits_rule exits_fire|intros _].
  exits_rule exits_bind.
  { destruct p; [|exits_rule exits_ret].
    exits_rule exits_bind; [exits_rule exits_fire|intros _].
    repeat (exits_rule exits_bind; [|intros ?]);
      first [exits_rule exits_gets|exits_rule exits_lift_world|exits_rule exits_record]. }
  intros _. exits_rule exits_bind; [exits_rule exits_gets|intros cur'].
  exits_rule exits_bind;
    [destruct cur'; [exits_rule exits_lift_world|exits_rule exits_raise]|intros l].
  exits_rule exits_bind; [exits_rule exits_record|intros _].
  exits_rule exits_bind; [exits_rule exits_fire|intros _].
  exits_rule exits_bind; [by exits_rule exits_modify_context|intros _].
  exits_rule exits_ret.
Qed.

(** [_train_epoch] after its first two statements, which count the epoch
    and switch the model to training mode. *)
Lemma exits_train_epoch_rest :
  exits (fire self on_epoch_start ;;
         opt <- gets (fun s => optimizer (training_context s)) ;;
         lift_world (optimizer_zero_grad opt) ;;
         record AOptimizerZeroGrad ;;
         for_enumerate (fun i batch cum_loss =>
             perform_opt_step <-
               perform_opt_step_at (gradient_accumulation_steps self)
                 (Z.of_nat (length (train_data_loader self))) i ;;
             l <- _train_batch self batch perform_opt_step ;;
             ret (scalar_add cum_loss l))
           0%Z (train_data_loader self) scalar_zero ;;
         fire self on_epoch_end).
Proof.
  exits_rule exits_bind; [exits_rule exits_fire|intros _].
  exits_rule exits_bind; [exits_rule exits_gets|intros opt].
  exits_rule exits_bind; [exits_rule exits_lift_world|intros _].
  exits_rule exits_bind; [exits_rule exits_record|intros _].
  exits_rule exits_bind; [|intros _; exits_rule exits_fire].
  exits_rule exits_for_enumerate. intros i batch acc _.
  exits_rule exits_bind.
  { unfold perform_opt_step_at.
    destruct (_ =? 0)%Z; [exits_rule exits_raise|exits_rule exits_ret]. }
  intros p. exits_rule exits_bind; [exits_rule exits_train_batch|intros l].
  exits_rule exits_ret.
Qed.

Hypothesis Hepoch : forall c, Rc c (set_current_epoch (_current_epoch c + 1)%Z c).
Hypothesis Hhistory : forall c h, Rc c (set_results_history h c).
Hypothesis Hmode : forall x mode, Rs x (set_model (model_train mode (model x)) x).

Lemma exits_train_epoch : exits (_train_epoch self).
Proof.
  unfold _train_epoch.
  exits_rule exits_bind; [by exits_rule exits_modify_context|intros _].
  exits_rule exits_bind; [by exits_rule exits_system_model_train|intros _].
  exits_rule exits_train_epoch_rest.
Qed.

Lemma exits_train_evaluation : exits (_train_evaluation self).
Proof.
  unfold _train_evaluation.
  destruct (evaluation_data_loaders self) as [loaders|]; [|exits_rule exits_ret].
  destruct (evaluators self) as [evs|]; [|exits_rule exits_ret].
  exits_rule exits_bind; [exits_rule exits_fire|intros _].
  exits_rule exits_bind.
  { exits_rule exits_for_fold. intros name acc _.
    exits_rule exits_bind; [exits_rule exits_subscript|intros loader].
    exits_rule exits_bind; [by exits_rule exits_evaluate|intros r]. exits_rule exits_ret. }
  intros results.
  exits_rule exits_bind; [by exits_rule exits_modify_context|intros _].
  exits_rule exits_bind; [exits_rule exits_record|intros _]. exits_rule exits_fire.
Qed.

Local Abbreviation left_behind := (left_behind Rs Rc).

Lemma left_behind_trans s1 s2 s3 :
  left_behind s1 s2 -> left_behind s2 s3 -> left_behind s1 s3.
Proof.
  intros (Hg & Hl & Hs & Hc) (Hg' & Hl' & Hs' & Hc').
  split; [congruence|]. split; [congruence|]. split; etransitivity; eauto.
Qed.

Lemma training_loop_left_behind fuel : forall s out,
  default [] (lists s !! loc) = cbs ->
  training_loop fuel self s = Some out ->
  left_behind s (outcome_store out).
Proof.
  induction fuel as [|fuel IH]; intros s out Hl; simpl.
  - destruct (stop_training _); [|done]. intros [= <-]. simpl.
    repeat split; reflexivity.
  - destruct (stop_training _).
    { intros [= <-]. simpl. repeat split; reflexivity. }
    pose proof (exits_bind loc cbs Rs Rc _ _ exits_train_epoch
                  (fun _ => exits_train_evaluation) s Hl) as Hit.
    destruct ((_train_epoch self ;; _train_evaluation self) s) as [u s1|e s1].
    + intros Hloop. simpl in Hit.
      assert (Hl1 : default [] (lists s1 !! loc) = cbs).
      { destruct Hit as (_ & -> & _). exact Hl. }
      eapply left_behind_trans; [exact Hit|]. by apply IH.
    + intros [= <-]. exact Hit.
Qed.

Lemma run_left_behind fuel s out :
  default [] (lists s !! loc) = cbs ->
  run fuel self s = Some out ->
  left_behind s (outcome_store out).
Proof.
  intros Hl. unfold run.
  pose proof (exits_fire on_training_start s Hl) as H1.
  destruct (fire self on_training_start s) as [u1 s1|e1 s1];
    [|intros [= <-]; exact H1].
  simpl in H1.
  assert (Hl1 : default [] (lists s1 !! loc) = cbs).
  { destruct H1 as (_ & -> & _). exact Hl. }
  pose proof (training_loop_left_behind fuel s1) as H2.
  destruct (training_loop fuel self s1) as [[u2 s2|e2 s2]|]; [| |done].
  - specialize (H2 _ Hl1 eq_refl). simpl in H2. intros [= <-].
    eapply left_behind_trans; [exact H1|].
    eapply left_behind_trans; [exact H2|].
    assert (Hl2 : default [] (lists s2 !! loc) = cbs).
    { destruct H2 as (_ & -> & _). exact Hl1. }
    refine (exits_bind loc cbs Rs Rc _ _ (exits_fire on_training_end)
              (fun _ => exits_bind loc cbs Rs Rc _ _
                          (exits_system_model_train loc cbs Rs Rc false
                             (fun x => Hmode x false))
                          (fun _ => exits_gets loc cbs Rs Rc _)) s2 Hl2).
  - specialize (H2 _ Hl1 eq_refl). simpl in H2. intros [= <-].
    eapply left_behind_trans; [exact H1|exact H2].
Qed.

End ExitEngine.

(** ** Exits of [evaluate], [_train_epoch] and [train] *)

Section Exit.
Context `{Collaborators}.

Lemma same_epoch_preorder : PreOrder same_epoch.
Proof. split; [by intros c|]. intros a b c. unfold same_epoch. congruence. Qed.

Lemma evaluate_left_behind loader evs key s :
  left_behind eq eq
    (set_system (set_model (model_train false (model (system s)))
                   (system s)) s)
    (outcome_store (evaluate loader evs key s)).
Proof.
  exact (exits_evaluate_rest 0 (default [] (lists s !! 0%nat)) eq eq
           loader evs key
           (set_log (log s ++ [(AModelTrain false,
                                stop_training (training_context s))])
              (set_system (set_model (model_train false (model (system s)))
                             (system s)) s))
           eq_refl).
Qed.

(** X1.  However [evaluate] ends, by a return or by an exception of the
    model, of an evaluator or of a batch without the input key: the model
    is in inference mode and the facade is otherwise as it was, the
    training context and the callback lists are untouched, and gradient
    tracking is back to what it was before the call. *)
Theorem X1_evaluate_every_exit loader evs key s :
  system (outcome_store (evaluate loader evs key s)) =
    set_model (model_train false (model (system s))) (system s) /\
  training_context (outcome_store (evaluate loader evs key s)) =
    training_context s /\
  lists (outcome_store (evaluate loader evs key s)) = lists s /\
  grad_enabled (outcome_store (evaluate loader evs key s)) = grad_enabled s.
Proof.
  destruct (evaluate_left_behind loader evs key s) as (Hg & Hl & Hs & Hc).
  split; [symmetry; exact Hs|]. split; [symmetry; exact Hc|].
  split; [exact Hl|exact Hg].
Qed.

(** X2.  However [_train_epoch] ends, with user code that leaves the
    facade and the epoch index alone: the epoch has been counted and the
    model is in training mode, the facade otherwise as it was; an
    exception in the middle of an epoch does not put the model back in
    inference mode. *)
Theorem X2_train_epoch_every_exit self cbs s :
  lists s !! callbacks self = Some cbs ->
  hooks_respect cbs eq same_epoch ->
  loss_wrapper_respects eq same_epoch ->
  system (outcome_store (_train_epoch self s)) =
    set_model (model_train true (model (system s))) (system s) /\
  _current_epoch (training_context (outcome_store (_train_epoch self s))) =
    (_current_epoch (training_context s) + 1)%Z /\
  lists (outcome_store (_train_epoch self s)) = lists s /\
  grad_enabled (outcome_store (_train_epoch self s)) = grad_enabled s.
Proof.
  intros Hl Hhooks Hlw.
  pose proof (exits_train_epoch_rest (callbacks self) cbs eq same_epoch
                (HRc := same_epoch_preorder) self eq_refl Hhooks Hlw
                (fun _ _ => eq_refl) (fun _ _ => eq_refl) (fun _ _ => eq_refl)
                (epoch_begun s) (lookup_default s _ cbs Hl))
    as (Hg & Hls & Hs & Hc).
  split; [symmetry; exact Hs|]. split; [exact Hc|].
  split; [exact Hls|exact Hg].
Qed.

(** What [train] leaves behind, with callbacks (those of the trainer's
    list) and a loss wrapper that leave the facade alone. *)
Lemma train_left_behind fuel lw opt loader evl key evs given k s out :
  hooks_respect (init_callbacks given s) eq (fun _ _ => True) ->
  loss_wrapper_respects eq (fun _ _ => True) ->
  train fuel lw opt loader evl key evs given k s = Some out ->
  same_but_mode (system s) (system (outcome_store out)) /\
  grad_enabled (outcome_store out) = grad_enabled s.
Proof.
  intros Hhooks Hlw Htrain.
  destruct (init_spec lw opt loader evl key evs given k s)
    as (tr & s1 & Hinit & _ & _ & _ & _ & _ & _ & Hcbs & Hsys & _ & Hg & _).
  unfold train in Htrain. rewrite Hinit in Htrain.
  assert (Hh : hooks_respect (init_callbacks given s) same_but_mode
                 (fun _ _ => True)).
  { intros cb h v Hin. split; [|done].
    destruct (Hhooks cb h v Hin) as [-> _]. by left. }
  assert (Hw : loss_wrapper_respects same_but_mode (fun _ _ => True)).
  { intros lw0 o b la v. destruct (Hlw lw0 o b la v) as [-> _].
    split; [by left|done]. }
  destruct (run_left_behind (callbacks tr) (init_callbacks given s)
              same_but_mode (fun _ _ => True)
              (HRs := same_but_mode_preorder) (HRc := any_context_preorder)
              tr eq_refl Hh Hw (fun _ _ => I) (fun _ _ => I) (fun _ _ => I)
              (fun _ => I) (fun _ _ => I)
              (fun x mode => or_intror (ex_intro _ mode eq_refl))
              fuel s1 out (lookup_default s1 _ _ Hcbs) Htrain)
    as (Hg' & _ & Hs & _).
  rewrite <- Hsys, <- Hg. by split.
Qed.

(** X3.  However [train] ends, with user code that leaves the facade
    alone: the facade is as it was but for the mode flag of the model;
    its device, its last activation, the placement and the wrapping of
    the model are untouched, and gradient tracking is as before. *)
Theorem X3_train_every_exit fuel lw opt loader evl key evs given k s out :
  hooks_respect (init_callbacks given s) eq (fun _ _ => True) ->
  loss_wrapper_respects eq (fun _ _ => True) ->
  train fuel lw opt loader evl key evs given k s = Some out ->
  (model (system (outcome_store out)) = model (system s) \/
   exists mode, model (system (outcome_store out)) =
                  model_train mode (model (system s))) /\
  _device (system (outcome_store out)) = _device (system s) /\
  last_activation (system (outcome_store out)) = last_activation (system s) /\
  model_placement (model (system (outcome_store out))) =
    model_placement (model (system s)) /\
  is_data_parallel (model (system (outcome_store out))) =
    is_data_parallel (model (system s)) /\
  grad_enabled (outcome_store out) = grad_enabled s.
Proof.
  intros Hhooks Hlw Htrain.
  destruct (train_left_behind _ _ _ _ _ _ _ _ _ _ _ Hhooks Hlw Htrain)
    as [Hs Hg].
  split; [|split; [by apply same_but_mode_device|]].
  { destruct Hs as [->|[mode ->]]; [by left|]. right. by exists mode. }
  split; [by apply same_but_mode_last_activation|].
  split; [|split; [|exact Hg]].
  - destruct Hs as [->|[mode ->]]; [done|]. simpl.
    induction (model (system s)); simpl; auto.
  - destruct Hs as [->|[mode ->]]; [done|]. simpl.
    by destruct (model (system s)).
Qed.


End Exit.

(** ** Edges of the engine *)

Section Edges.
Context `{Collaborators}.

Lemma fire_returns self cbs h s :
  lists s !! callbacks self = Some cbs ->
  (forall cb v, In cb cbs -> exists v', callback_hook cb h v = Ret tt v') ->
  exists s', fire self h s = Ret tt s' /\ lists s' = lists s /\
    grad_enabled s' = grad_enabled s /\
    actions s' = actions s ++ fire_actions (length cbs) h.
Proof.
  intros Hl Hret.
  pose proof (sat_fire true (callbacks self) cbs self (grad_enabled s)
                (fun _ => True) h eq_refl (fun _ _ _ => I)
                (fun cb Hin => conj (fun _ v => Hret cb v Hin)
                                 (fun _ _ _ _ => I))
                s (lookup_default s _ cbs Hl) eq_refl I) as Hsat.
  destruct (fire self h s) as [[] s'|e s']; [|by destruct Hsat].
  exists s'. tauto.
Qed.

(** [_train_epoch] up to the loop over the batches. *)
Lemma train_epoch_prefix self cbs s :
  lists s !! callbacks self = Some cbs ->
  (forall cb v, In cb cbs ->
     exists v', callback_hook cb on_epoch_start v = Ret tt v') ->
  (forall o w, exists u w', optimizer_zero_grad o w = Ret u w') ->
  exists s4,
    _train_epoch self s =
      (for_enumerate (fun i batch cum_loss =>
           perform_opt_step <-
             perform_opt_step_at (gradient_accumulation_steps self)
               (Z.of_nat (length (train_data_loader self))) i ;;
           l <- _train_batch self batch perform_opt_step ;;
           ret (scalar_add cum_loss l))
         0%Z (train_data_loader self) scalar_zero ;;
       fire self on_epoch_end) s4 /\
    lists s4 = lists s /\
    actions s4 = actions s ++ [AModelTrain true] ++
                 fire_actions (length cbs) on_epoch_start ++
                 [AOptimizerZeroGrad].
Proof.
  intros Hl Hstart Hzero.
  assert (Hl1 : lists (epoch_begun s) !! callbacks self = Some cbs) by exact Hl.
  destruct (fire_returns self cbs on_epoch_start (epoch_begun s) Hl1 Hstart)
    as (s2 & Hfire & Hl2 & _ & Ha2).
  destruct (Hzero (optimizer (training_context s2)) (world s2))
    as (u & w' & Hz).
  exists (recorded AOptimizerZeroGrad (set_world w' s2)).
  split; [|split].
  - unfold _train_epoch.
    unfold bind at 1. cbn [modify_context modify].
    unfold bind at 1. unfold system_model_train. unfold bind at 1.
    cbn [modify record]. unfold bind at 1.
    match goal with
    | |- context [fire self on_epoch_start ?x] =>
        change x with (epoch_begun s)
    end.
    rewrite Hfire. unfold bind at 1. cbn [gets].
    unfold bind at 1. unfold lift_world at 1. rewrite Hz.
    unfold bind at 1. reflexivity.
  - simpl. exact Hl2.
  - unfold actions in *. simpl. rewrite map_app, Ha2. simpl.
    unfold epoch_begun. simpl. rewrite map_app. simpl.
    by rewrite <- !app_assoc.
Qed.

(** X5.  An epoch over no batches, and an accumulation step count of
    zero.  With hooks and [zero_grad] that return: over an empty data
    loader [_train_epoch] returns, whatever the step count, having fired
    the two epoch hooks and reset the gradients, and having taken no
    optimizer step; over a data loader that is not empty, a step count of
    zero makes it raise [ZeroDivisionError] at the first batch, after the
    [on_epoch_start] hooks and before any batch hook or forward pass. *)
Theorem X5_epoch_without_steps self cbs s :
  lists s !! callbacks self = Some cbs ->
  (forall cb v, In cb cbs ->
     exists v', callback_hook cb on_epoch_start v = Ret tt v') ->
  (forall cb v, In cb cbs ->
     exists v', callback_hook cb on_epoch_end v = Ret tt v') ->
  (forall o w, exists u w', optimizer_zero_grad o w = Ret u w') ->
  (train_data_loader self = [] ->
   exists s', _train_epoch self s = Ret tt s' /\
     actions s' = actions s ++ [AModelTrain true] ++
       fire_actions (length cbs) on_epoch_start ++ [AOptimizerZeroGrad] ++
       fire_actions (length cbs) on_epoch_end) /\
  (train_data_loader self <> [] -> gradient_accumulation_steps self = 0%Z ->
   exists s', _train_epoch self s = Raise ZeroDivisionError s' /\
     actions s' = actions s ++ [AModelTrain true] ++
       fire_actions (length cbs) on_epoch_start ++ [AOptimizerZeroGrad]).
Proof.
  intros Hl Hstart Hend Hzero.
  destruct (train_epoch_prefix self cbs s Hl Hstart Hzero)
    as (s4 & Hrun & Hl4 & Ha4).
  split.
  - intros Hempty. rewrite Hrun, Hempty. simpl.
    assert (Hl4' : lists s4 !! callbacks self = Some cbs) by (by rewrite Hl4).
    destruct (fire_returns self cbs on_epoch_end s4 Hl4' Hend)
      as (s5 & Hfire & _ & _ & Ha5).
    exists s5. unfold bind. simpl. split; [exact Hfire|].
    rewrite Ha5, Ha4. by rewrite <- !app_assoc.
  - intros Hne Hk. rewrite Hrun, Hk.
    destruct (train_data_loader self) as [|batch l]; [done|].
    exists s4. split; [reflexivity|exact Ha4].
Qed.

(** A computation that returns went through each of its steps. *)
Lemma bind_returns {S A B} (m : M S A) (k : A -> M S B) s b s' :
  bind m k s = Ret b s' -> exists a s1, m s = Ret a s1 /\ k a s1 = Ret b s'.
Proof. unfold bind. destruct (m s) as [a s1|e s1]; [eauto|done]. Qed.

Lemma with_no_grad_returns {A} (m : M Store A) s a s' :
  with_no_grad m s = Ret a s' ->
  exists s1, m (set_grad_enabled false s) = Ret a s1.
Proof.
  unfold with_no_grad.
  destruct (m (set_grad_enabled false s)) as [a1 s1|e s1]; [|done].
  intros [= <- _]. eauto.
Qed.

Lemma for_each_returns {S A} (body : A -> M S unit) (l : list A) s u s' :
  for_each body l s = Ret u s' ->
  forall x, In x l -> exists s0 s1, body x s0 = Ret tt s1.
Proof.
  revert s. induction l as [|y l IH]; intros s Hret x Hin; [done|].
  simpl in Hret. apply bind_returns in Hret as ([] & s1 & Hy & Hrest).
  destruct Hin as [<-|Hin]; [eauto|]. by eapply IH.
Qed.

Lemma for_fold_returns {S A B} (body : A -> B -> M S B) (l : list A)
    acc s b s' :
  for_fold body l acc s = Ret b s' ->
  forall x, In x l -> exists acc0 s0 acc1 s1, body x acc0 s0 = Ret acc1 s1.
Proof.
  revert acc s. induction l as [|y l IH]; intros acc s Hret x Hin; [done|].
  simpl in Hret. apply bind_returns in Hret as (acc1 & s1 & Hy & Hrest).
  destruct Hin as [<-|Hin]; [eauto 6|]. by eapply IH.
Qed.

Lemma for_enumerate_returns {S A B} (body : Z -> A -> B -> M S B)
    (l : list A) i acc s b s' :
  for_enumerate body i l acc s = Ret b s' ->
  forall x, In x l ->
    exists j acc0 s0 acc1 s1, body j x acc0 s0 = Ret acc1 s1.
Proof.
  revert i acc s. induction l as [|y l IH]; intros i acc s Hret x Hin; [done|].
  simpl in Hret. apply bind_returns in Hret as (acc1 & s1 & Hy & Hrest).
  destruct Hin as [<-|Hin]; [eauto 7|]. by eapply IH.
Qed.

Lemma subscript_returns {S V} (d : dict V) (k : string) (s : S) v s' :
  subscript d k s = Ret v s' -> dict_get k d = Some v.
Proof. unfold subscript. destruct (dict_get k d); [by intros [= <- _]|done]. Qed.

Lemma train_batch_returns self batch p s l s' :
  _train_batch self batch p s = Ret l s' ->
  has_input (batch_input_key self) batch.
Proof.
  unfold _train_batch. intros Hret.
  apply bind_returns in Hret as (_ & s1 & _ & Hret).
  apply bind_returns in Hret as (_ & s2 & _ & Hret).
  apply bind_returns in Hret as (input & s3 & Hsub & _).
  apply subscript_returns in Hsub. by exists input.
Qed.

(** X6.  Neither the epoch step nor [evaluate] passes over a batch it
    cannot use: [_train_epoch] returns only if every batch of the training
    data loader carries the input key and, when there is a batch at all,
    the accumulation step count is not zero; [evaluate] returns only if
    every batch of its data loader carries the input key. *)
Theorem X6_no_batch_is_skipped :
  (forall self s u s',
     _train_epoch self s = Ret u s' ->
     Forall (has_input (batch_input_key self)) (train_data_loader self) /\
     (train_data_loader self <> [] -> gradient_accumulation_steps self <> 0%Z)) /\
  (forall loader evs key s res s',
     evaluate loader evs key s = Ret res s' ->
     Forall (has_input key) loader).
Proof.
  split.
  - intros self s u s' Hret. unfold _train_epoch in Hret.
    apply bind_returns in Hret as (_ & s1 & _ & Hret).
    apply bind_returns in Hret as (_ & s2 & _ & Hret).
    apply bind_returns in Hret as (_ & s3 & _ & Hret).
    apply bind_returns in Hret as (opt & s4 & _ & Hret).
    apply bind_returns in Hret as (_ & s5 & _ & Hret).
    apply bind_returns in Hret as (_ & s6 & _ & Hret).
    apply bind_returns in Hret as (acc & s7 & Hloop & _).
    pose proof (for_enumerate_returns _ _ _ _ _ _ _ Hloop) as Hall.
    split.
    + apply Forall_forall. intros batch Hin.
      apply list_elem_of_In in Hin.
      destruct (Hall batch Hin) as (j & acc0 & s0 & acc1 & s1' & Hbody).
      apply bind_returns in Hbody as (p & s8 & _ & Hbody).
      apply bind_returns in Hbody as (l & s9 & Hbatch & _).
      by eapply train_batch_returns.
    + intros Hne Hk.
      assert (Hex : exists batch, In batch (train_data_loader self)).
      { destruct (train_data_loader self) as [|batch rest]; [done|].
        exists batch. by left. }
      destruct Hex as [batch Hin].
      destruct (Hall batch Hin) as (j & acc0 & s0 & acc1 & s1' & Hbody).
      apply bind_returns in Hbody as (p & s8 & Hp & _).
      unfold perform_opt_step_at in Hp. by rewrite Hk in Hp.
  - intros loader evs key s res s' Hret. unfold evaluate in Hret.
    apply bind_returns in Hret as (_ & s1 & _ & Hret).
    apply bind_returns in Hret as (_ & s2 & _ & Hret).
    apply bind_returns in Hret as (u3 & s3 & Hloop & _).
    apply with_no_grad_returns in Hloop as (s4 & Hloop).
    apply Forall_forall. intros batch Hin. apply list_elem_of_In in Hin.
    destruct (for_each_returns _ _ _ _ _ Hloop batch Hin) as (s0 & s5 & Hbody).
    apply bind_returns in Hbody as (input & s6 & Hsub & _).
    apply subscript_returns in Hsub. by exists input.
Qed.

End Edges.

(** ** The training context along a batch and along a run *)

Section ContextAlong.
Context `{Collaborators}.

Lemma train_batch_clears self cbs g batch p :
  hooks_leave_slots cbs -> loss_wrapper_leaves_slots ->
  exists acts,
    sat false (callbacks self) cbs g (fun _ => True)
      (_train_batch self batch p) acts (fun _ => output_clear).
Proof.
  intros Hhooks Hlw.
  assert (Ht : false = true -> no_raise self cbs) by done.
  set (T := fun _ : Store => True).
  assert (HT : hooks_keep cbs T) by done.
  assert (HB : hooks_keep cbs batch_clear).
  { intros cb h i s v' Hin Hs Hv. unfold batch_clear in *. simpl.
    destruct (Hhooks cb h _ _ Hin Hv) as [-> _]. exact Hs. }
  assert (HO : hooks_keep cbs output_clear).
  { intros cb h i s v' Hin [Hb Ho] Hv. unfold output_clear. simpl.
    destruct (Hhooks cb h _ _ Hin Hv) as [-> ->]. by split. }
  assert (HOw : keeps_world output_clear) by (by intros s w Hs).
  assert (HOr : keeps_record output_clear) by (by intros s a _ _ Hs).
  eexists. unfold _train_batch.
  eapply (sat_then false _ cbs g T T).
  { by apply inv_modify_context. }
  intros _. eapply (sat_then false _ cbs g T T).
  { by apply fire_keeps. }
  intros _. eapply (sat_then false _ cbs g T T).
  { by apply inv_subscript. }
  intros input. eapply (sat_then false _ cbs g T T).
  { by apply sat_predict_batch. }
  intros outputs. eapply (sat_then false _ cbs g T T).
  { by apply inv_modify_context. }
  intros _. eapply (sat_then false _ cbs g T batch_clear).
  { eapply sat_post; [apply sat_modify_context|].
    by intros u s' (s & _ & ->). }
  intros _. eapply (sat_then false _ cbs g batch_clear batch_clear).
  { by apply fire_keeps. }
  intros _. eapply (sat_then false _ cbs g batch_clear batch_clear);
    [apply inv_gets|].
  intros lw. eapply (sat_then false _ cbs g batch_clear batch_clear);
    [apply inv_gets|].
  intros out. eapply (sat_then false _ cbs g batch_clear batch_clear);
    [apply inv_gets|].
  intros la. eapply sat_bind.
  { by apply sat_lift_view. }
  intros loss. eapply (sat_then false _ cbs g _ batch_clear).
  { eapply sat_post; [apply sat_record|].
    intros u s' (s1 & (s & v & Hs & Hv & ->) & ->).
    unfold batch_clear in *. simpl.
    destruct (Hlw _ _ _ _ _ _ _ Hv) as [-> _]. exact Hs. }
  intros _. eapply (sat_then false _ cbs g batch_clear batch_clear).
  { apply inv_modify_context. by intros s Hs. }
  intros _. eapply (sat_then false _ cbs g batch_clear output_clear).
  { eapply sat_post; [apply sat_modify_context|].
    intros u s' (s & Hs & ->). by split. }
  intros _. eapply (sat_then false _ cbs g output_clear output_clear).
  { by apply fire_keeps. }
  intros _. eapply (sat_then false _ cbs g output_clear output_clear);
    [apply inv_gets|].
  intros cur. eapply (sat_then false _ cbs g output_clear output_clear).
  { destruct cur; [by apply inv_lift_world|by apply sat_raise]. }
  intros _. eapply (sat_then false _ cbs g output_clear output_clear).
  { apply inv_record. intros s Hs. by apply HOr. }
  intros _. eapply (sat_then false _ cbs g output_clear output_clear).
  { by apply fire_keeps. }
  intros _. eapply (sat_then false _ cbs g output_clear output_clear).
  { instantiate (1 := if p then _ else _). destruct p; [|apply inv_ret].
    eapply (sat_then false _ cbs g output_clear output_clear).
    { by apply fire_keeps. }
    intros _. eapply (sat_then false _ cbs g output_clear output_clear);
      [apply inv_gets|intros opt].
    eapply (sat_then false _ cbs g output_clear output_clear).
    { by apply inv_lift_world. }
    intros _. eapply (sat_then false _ cbs g output_clear output_clear).
    { apply inv_record. intros s Hs. by apply HOr. }
    intros _. eapply (sat_then false _ cbs g output_clear output_clear);
      [apply inv_gets|intros opt'].
    eapply (sat_then false _ cbs g output_clear output_clear).
    { by apply inv_lift_world. }
    intros _. apply inv_record. intros s Hs. by apply HOr. }
  intros _. eapply (sat_then false _ cbs g output_clear output_clear);
    [apply inv_gets|].
  intros cur'. eapply (sat_then false _ cbs g output_clear output_clear).
  { destruct cur'; [by apply inv_lift_world|by apply sat_raise]. }
  intros l. eapply (sat_then false _ cbs g output_clear output_clear).
  { apply inv_record. intros s Hs. by apply HOr. }
  intros _. eapply (sat_then false _ cbs g output_clear output_clear).
  { by apply fire_keeps. }
  intros _. eapply (sat_then false _ cbs g output_clear output_clear).
  { apply inv_modify_context. by intros s Hs. }
  intros _. apply inv_ret.
Qed.

(** X7.  The transient slots after a batch.  When [_train_batch] returns,
    the loss slot of the context is empty, whatever user code did; with
    hooks and a loss wrapper that leave the batch and output slots where
    they are, these two are empty as well: nothing of a batch stays
    published after it. *)
Theorem X7_slots_clear_after_batch self cbs batch p s l s' :
  lists s !! callbacks self = Some cbs ->
  _train_batch self batch p s = Ret l s' ->
  current_loss (training_context s') = None /\
  (hooks_leave_slots cbs -> loss_wrapper_leaves_slots ->
   current_batch (training_context s') = None /\
   current_output (training_context s') = None).
Proof.
  intros Hl Hret. split.
  - unfold _train_batch in Hret.
    do 24 (apply bind_returns in Hret as (? & ? & _ & Hret)).
    apply bind_returns in Hret as (? & ? & Hlast & Hret).
    cbv [modify_context modify] in Hlast. injection Hlast as _ <-.
    cbv [ret] in Hret. by injection Hret as _ <-.
  - intros Hhooks Hlw.
    destruct (train_batch_clears self cbs (grad_enabled s) batch p Hhooks Hlw)
      as (acts & Hsat).
    specialize (Hsat s (lookup_default s _ cbs Hl) eq_refl I).
    rewrite Hret in Hsat. destruct Hsat as (_ & _ & _ & Hb & Ho). by split.
Qed.

Lemma epoch_invariant_record l0 e0 s a :
  a <> AModelTrain true -> epoch_invariant l0 e0 s ->
  epoch_invariant l0 e0 (recorded a s).
Proof.
  intros Ha (new & Hlog & He).
  exists (new ++ [(a, stop_training (training_context s))]). simpl.
  split; [by rewrite Hlog, app_assoc|].
  rewrite map_app, count_occ_app. simpl.
  destruct (Action_eq_dec a (AModelTrain true)); [done|]. rewrite He. lia.
Qed.

Lemma epoch_invariant_stable l0 e0 : stable (epoch_invariant l0 e0).
Proof.
  split; try (by intros s ? Hs).
  intros s a Ha _ Hs. by apply epoch_invariant_record.
Qed.

Lemma epoch_invariant_begin l0 e0 s :
  epoch_invariant l0 e0 s -> epoch_invariant l0 e0 (epoch_begun s).
Proof.
  intros (new & Hlog & He).
  exists (new ++ [(AModelTrain true, stop_training (training_context s))]).
  unfold epoch_begun. simpl. split; [by rewrite Hlog, app_assoc|].
  rewrite map_app, count_occ_app. simpl.
  destruct (Action_eq_dec (AModelTrain true) (AModelTrain true)); [|done].
  rewrite He. lia.
Qed.

Lemma epoch_invariant_view l0 e0 s (v' : View) :
  epoch_invariant l0 e0 s ->
  _current_epoch (v_context v') = _current_epoch (training_context s) ->
  epoch_invariant l0 e0 (put_view v' s).
Proof. intros (new & Hlog & He) Hsame. exists new. simpl. by rewrite Hsame. Qed.

(** X8.  The epoch index counts the epochs from zero.  When [train]
    returns, with callbacks (those of the trainer's list) and a loss
    wrapper that leave the index alone, the context's [_current_epoch] is
    the number of epochs that were run, less one. *)
Theorem X8_epoch_index_counts_epochs
    fuel lw opt loader evl key evs given k s hist s' :
  hooks_keep_epoch (init_callbacks given s) ->
  loss_wrapper_keeps_epoch ->
  train fuel lw opt loader evl key evs given k s = Some (Ret hist s') ->
  exists epochs new,
    actions s' = actions s ++ new /\
    count_occ Action_eq_dec new (AModelTrain true) = epochs /\
    _current_epoch (training_context s') = (Z.of_nat epochs - 1)%Z.
Proof.
  intros Hhooks Hlw Htrain.
  destruct (init_spec lw opt loader evl key evs given k s)
    as (tr & s1 & Hinit & _ & _ & _ & _ & _ & _ & Hcbs & _ & _ & _
        & Hlog & Hctx & _).
  unfold train in Htrain. rewrite Hinit in Htrain.
  assert (Ht : false = true -> no_raise tr (init_callbacks given s)) by done.
  set (J := epoch_invariant (log s1) (-1)).
  assert (HJs : stable J) by apply epoch_invariant_stable.
  assert (HJ0 : J s1).
  { exists []. rewrite app_nil_r, Hctx. done. }
  assert (Hk : hooks_keep (init_callbacks given s) J).
  { apply hooks_keep_intro; [exact (st_record _ HJs)|].
    intros cb h s0 v' Hin Hs0 Hv. apply epoch_invariant_view; [done|].
    by apply (Hhooks cb h (view s0)). }
  pose proof (run_spec false tr _ Ht J HJs (fun _ _ Hs0 => Hs0) Hk
                (loss_wrapper_keeps_intro _ (st_record _ HJs)
                   (fun lw0 o b la s0 x v' Hs0 Hv =>
                      epoch_invariant_view _ _ s0 v' Hs0
                        (Hlw _ _ _ _ _ _ _ Hv)))
                (fun s0 Hs0 _ => epoch_invariant_begin _ _ s0 Hs0)
                (fun s0 r Hs0 =>
                   epoch_invariant_record _ _
                     (set_context (set_results_history
                        (_results_history (training_context s0) ++ [r])
                        (training_context s0)) s0)
                     AResultsAppend ltac:(done) Hs0)
                (grad_enabled s1) fuel s1 _
                (lookup_default s1 _ _ Hcbs) eq_refl HJ0 Htrain) as Hspec.
  simpl in Hspec.
  destruct Hspec as (_ & _ & _ & (new & Hlog' & He) & _).
  exists (count_occ Action_eq_dec (map fst new) (AModelTrain true)),
         (map fst new).
  split; [unfold actions; by rewrite Hlog', map_app, Hlog|].
  split; [done|]. rewrite He. lia.
Qed.

(** X9.  The first epoch always runs.  The halt flag starts down and is
    read at the head of the loop only: when [train] returns, with
    callbacks (those of the trainer's list) whose [on_training_start] does
    not raise the flag, at least one epoch was run, whatever the stopping
    criteria. *)
Theorem X9_first_epoch_always_runs
    fuel lw opt loader evl key evs given k s hist s' :
  (forall cb v v', In cb (init_callbacks given s) ->
     callback_hook cb on_training_start v = Ret tt v' ->
     stop_training (v_context v) = false ->
     stop_training (v_context v') = false) ->
  train fuel lw opt loader evl key evs given k s = Some (Ret hist s') ->
  exists new,
    actions s' = actions s ++ new /\
    (1 <= count_occ Action_eq_dec new (AModelTrain true))%nat.
Proof.
  intros Hstart Htrain.
  destruct (init_spec lw opt loader evl key evs given k s)
    as (tr & s1 & Hinit & _ & _ & _ & _ & _ & _ & Hcbs & _ & _ & _
        & Hlog & Hctx & _).
  unfold train in Htrain. rewrite Hinit in Htrain.
  set (cbs := init_callbacks given s) in *.
  set (g := grad_enabled s1).
  assert (Ht : false = true -> no_raise tr cbs) by done.
  assert (Hl1 : default [] (lists s1 !! callbacks tr) = cbs)
    by (by apply lookup_default).
  assert (Hflag : stop_training (training_context s1) = false)
    by (by rewrite Hctx).
  pose proof (sat_fire false (callbacks tr) cbs tr g
                (fun s0 => stop_training (training_context s0) = false)
                on_training_start eq_refl (fun _ _ Hs0 => Hs0)) as H1.
  assert (H1cb : forall cb, In cb cbs ->
            (false = true -> forall v, exists v',
               callback_hook cb on_training_start v = Ret tt v') /\
            (forall s0 v', stop_training (training_context s0) = false ->
               callback_hook cb on_training_start (view s0) = Ret tt v' ->
               stop_training (training_context (put_view v' s0)) = false)).
  { intros cb Hin. split; [done|]. intros s0 v' Hs0 Hv. simpl.
    by apply (Hstart cb (view s0) v' Hin Hv). }
  specialize (H1 H1cb s1 Hl1 eq_refl Hflag).
  unfold run in Htrain.
  destruct (fire tr on_training_start s1) as [u1 s2|e1 s2]; [|done].
  destruct H1 as (Hl2 & Hg2 & Ha2 & Hflag2).
  assert (Hl2' : default [] (lists s2 !! callbacks tr) = cbs)
    by (by rewrite Hl2).
  destruct (training_loop fuel tr s2) as [[u3 s4|e3 s4]|] eqn:Hloop;
    [|done|done].
  destruct fuel as [|fuel]; simpl in Hloop; rewrite Hflag2 in Hloop; [done|].
  pose proof (sat_iteration false tr cbs Ht (fun _ => True) stable_True
                (fun _ _ _ => I) (fun _ _ _ _ _ _ _ _ => I)
                (fun _ _ _ _ _ _ _ _ _ => I) (fun _ _ _ => I)
                (fun _ _ _ => I) g s2 Hl2' Hg2 (conj I Hflag2)) as Hit.
  destruct ((_train_epoch tr ;; _train_evaluation tr) s2) as [u s3|e s3];
    [|done].
  destruct Hit as (Hl3 & Hg3 & Ha3 & _).
  assert (Hl3' : default [] (lists s3 !! callbacks tr) = cbs)
    by (by rewrite Hl3).
  pose proof (training_loop_spec false tr cbs Ht (fun _ => True) stable_True
                (fun _ _ _ => I) (fun _ _ _ _ _ _ _ _ => I)
                (fun _ _ _ _ _ _ _ _ _ => I) (fun _ _ _ => I)
                (fun _ _ _ => I) g fuel s3 _ Hl3' Hg3 I Hloop) as H4.
  simpl in H4. destruct H4 as (Hl4 & Hg4 & (n & _ & Ha4) & _).
  assert (Hl4' : default [] (lists s4 !! callbacks tr) = cbs)
    by (by rewrite Hl4).
  pose proof (sat_finish false tr cbs Ht (fun _ => True) stable_True
                (fun _ _ _ _ _ _ _ _ => I) g s4 Hl4' Hg4 I) as H5.
  injection Htrain as Htrain. rewrite Htrain in H5.
  destruct H5 as (_ & _ & Ha5 & _).
  exists (run_actions (length cbs) g (gradient_accumulation_steps tr)
            (length (train_data_loader tr)) (eval_config tr) (S n)).
  split.
  - rewrite Ha5, Ha4, Ha3, Ha2. unfold actions at 1. rewrite Hlog.
    unfold run_actions. cbn [repeat concat]. by rewrite <- !app_assoc.
  - rewrite count_run_begin. lia.
Qed.



End ContextAlong.

(** ** Prediction *)

(** Induction on nested values, with the hypothesis for every item of a
    dict. *)
Lemma Nested_induction {T} (P : Nested T -> Prop) :
  (forall t, P (Leaf t)) ->
  (forall items, Forall (fun kv => P (snd kv)) items -> P (Dict items)) ->
  forall n, P n.
Proof.
  intros Hleaf Hdict.
  fix IH 1. intros [t|items]; [apply Hleaf|].
  apply Hdict. induction items as [|[k v] items IHitems]; constructor.
  - exact (IH v).
  - exact IHitems.
Qed.

Section PredictionExits.
Context `{Library}.
Variable loc : nat.
Variable cbs : list Callback.

Local Abbreviation exits := (exits loc cbs eq eq).

(** The loop of [_pure_predict_convert_output] over the items of a
    dict. *)
Lemma convert_nested_Dict items :
  convert_nested (Dict items) =
  (converted_output <-
     (fix loop (items : list (string * Nested Output))
          (converted_output : dict (Nested Tensor))
          : M Store (dict (Nested Tensor)) :=
        match items with
        | [] => ret converted_output
        | (k, v) :: items' =>
            c <- convert_nested v ;;
            loop items' (dict_set k c converted_output)
        end) items [] ;;
   ret (Dict converted_output)).
Proof. reflexivity. Qed.

Lemma exits_convert_nested output : exits (convert_nested output).
Proof.
  induction output as [o|items IH] using Nested_induction.
  - simpl. exits_rule exits_bind; [exits_rule exits_lift_world|intros t].
    exits_rule exits_ret.
  - rewrite convert_nested_Dict.
    exits_rule exits_bind; [|intros d; exits_rule exits_ret].
    generalize (@nil (string * Nested Tensor)).
    induction IH as [|[k v] items Hv _ IHitems]; intros acc.
    + exits_rule exits_ret.
    + exits_rule exits_bind; [exact Hv|intros c]. apply IHitems.
Qed.

Lemma exits_predict loader perform bid key mkey :
  exits (predict loader perform bid key mkey).
Proof.
  unfold predict.
  exits_rule exits_bind.
  2:{ intros r. destruct bid; exits_rule exits_ret. }
  exits_rule exits_with_no_grad. exits_rule exits_for_fold.
  intros batch acc _.
  exits_rule exits_bind.
  { destruct bid as [idk|]; [|exits_rule exits_ret].
    exits_rule exits_bind; [exits_rule exits_subscript|intros ids].
    destruct ids; [|exits_rule exits_ret].
    exits_rule exits_bind; [exits_rule exits_lift_world|intros l].
    exits_rule exits_ret. }
  intros ids_list.
  exits_rule exits_bind; [exits_rule exits_subscript|intros input].
  exits_rule exits_bind; [exits_rule exits_predict_batch|intros outputs].
  exits_rule exits_bind.
  { destruct mkey; [exits_rule exits_lift_world|exits_rule exits_ret]. }
  intros outputs'.
  exits_rule exits_bind; [exits_rule exits_gets|intros la].
  exits_rule exits_bind.
  { destruct la; [|exits_rule exits_ret].
    destruct perform; [exits_rule exits_lift_world|exits_rule exits_ret]. }
  intros outputs''.
  exits_rule exits_bind; [exits_rule exits_lift_world|intros l].
  exits_rule exits_ret.
Qed.

Lemma exits_pure_predict loader key keep :
  exits (pure_predict loader key keep).
Proof.
  unfold pure_predict.
  exits_rule exits_bind.
  2:{ intros r. destruct keep; exits_rule exits_ret. }
  exits_rule exits_with_no_grad. exits_rule exits_for_fold.
  intros batch acc _.
  exits_rule exits_bind; [exits_rule exits_subscript|intros input].
  exits_rule exits_bind; [exits_rule exits_predict_batch|intros output].
  exits_rule exits_bind; [apply exits_convert_nested|intros c].
  exits_rule exits_ret.
Qed.

End PredictionExits.

Section Prediction.
Context `{Library}.

(** X12.  However [predict] and [pure_predict] end, the facade is as it
    was: unlike [evaluate], they do not put the model in inference mode,
    and run it in the mode they find it in; the training context and the
    callback lists are untouched, and gradient tracking is back to what
    it was before the call. *)
Theorem X12_prediction_every_exit s :
  (forall loader perform bid key mkey,
     let s' := outcome_store (predict loader perform bid key mkey s) in
     system s' = system s /\ training_context s' = training_context s /\
     lists s' = lists s /\ grad_enabled s' = grad_enabled s) /\
  (forall loader key keep,
     let s' := outcome_store (pure_predict loader key keep s) in
     system s' = system s /\ training_context s' = training_context s /\
     lists s' = lists s /\ grad_enabled s' = grad_enabled s).
Proof.
  split.
  - intros loader perform bid key mkey.
    destruct (exits_predict 0 (default [] (lists s !! 0%nat))
                loader perform bid key mkey s eq_refl)
      as (Hg & Hl & Hs & Hc).
    simpl. by rewrite <- Hs, <- Hc.
  - intros loader key keep.
    destruct (exits_pure_predict 0 (default [] (lists s !! 0%nat))
                loader key keep s eq_refl)
      as (Hg & Hl & Hs & Hc).
    simpl. by rewrite <- Hs, <- Hc.
Qed.

Lemma concat_map_constant {A B} (b : B) (l : list A) :
  concat (map (fun _ => [b]) l) = repeat b (length l).
Proof. induction l; simpl; congruence. Qed.

Local Abbreviation T := (fun _ : Store => True).

Ltac prediction_step :=
  first [by apply inv_subscript|apply inv_gets|apply inv_ret
        |by apply inv_lift_world|by apply sat_predict_batch].

Lemma sat_convert_nested cbs g output :
  sat false 0 cbs g T (convert_nested output) [] (fun _ => T).
Proof.
  induction output as [o|items IH] using Nested_induction.
  - simpl. eapply sat_acts;
      [eapply inv_bind; [prediction_step|intros t; prediction_step]|done].
  - rewrite convert_nested_Dict.
    assert (Hloop : forall acc,
              sat false 0 cbs g T
                ((fix loop (items : list (string * Nested Output))
                      (converted_output : dict (Nested Tensor))
                      : M Store (dict (Nested Tensor)) :=
                    match items with
                    | [] => ret converted_output
                    | (k, v) :: items' =>
                        c <- convert_nested v ;;
                        loop items' (dict_set k c converted_output)
                    end) items acc) [] (fun _ => T)).
    { induction IH as [|[k v] items Hv _ IHitems]; intros acc.
      - prediction_step.
      - eapply sat_acts;
          [eapply inv_bind; [exact Hv|intros c; apply IHitems]|done]. }
    eapply sat_acts;
      [eapply inv_bind; [apply Hloop|intros d; prediction_step]|done].
Qed.



Lemma bind_agree {S A B} (m : M S A) (k1 k2 : A -> M S B) s :
  (forall a s1, m s = Ret a s1 -> k1 a s1 = k2 a s1) ->
  bind m k1 s = bind m k2 s.
Proof. intros Hk. unfold bind. destruct (m s) as [a s1|e s1]; auto. Qed.

Lemma bind_agree_first {S A B} (m1 m2 : M S A) (k : A -> M S B) s :
  m1 s = m2 s -> bind m1 k s = bind m2 k s.
Proof. unfold bind. by intros ->. Qed.

Lemma with_no_grad_agree {A} (m1 m2 : M Store A) s :
  m1 (set_grad_enabled false s) = m2 (set_grad_enabled false s) ->
  with_no_grad m1 s = with_no_grad m2 s.
Proof. unfold with_no_grad. by intros ->. Qed.

Lemma for_fold_agree {A B} (I : Store -> Prop) (b1 b2 : A -> B -> M Store B)
    l :
  (forall x acc s, I s -> b1 x acc s = b2 x acc s) ->
  (forall x acc s, I s -> I (outcome_store (b2 x acc s))) ->
  forall acc s, I s -> for_fold b1 l acc s = for_fold b2 l acc s.
Proof.
  intros Hsame Hkeep. induction l as [|x l IH]; intros acc s Hs; [done|].
  cbn [for_fold]. unfold bind. rewrite (Hsame x acc s Hs).
  specialize (Hkeep x acc s Hs).
  destruct (b2 x acc s) as [acc' s1|e s1]; [|done]. by apply IH.
Qed.

Lemma exits_system {A} (m : M Store A) s a s1 :
  exits 0 (default [] (lists s !! 0%nat)) eq eq m ->
  m s = Ret a s1 -> system s1 = system s.
Proof.
  intros Hm Hret. destruct (Hm s eq_refl) as (_ & _ & Hs & _).
  rewrite Hret in Hs. by symmetry.
Qed.

(** X14.  A facade without a last activation predicts the same whether
    or not the last activation is asked for: with [last_activation] at
    [None], [perform_last_activation] makes no difference to what
    [predict] returns or raises, nor to the store it leaves. *)
Theorem X14_absent_last_activation loader bid key mkey s :
  last_activation (system s) = None ->
  predict loader true bid key mkey s = predict loader false bid key mkey s.
Proof.
  intros Hla. unfold predict.
  apply bind_agree_first. apply with_no_grad_agree.
  apply (for_fold_agree (fun s => last_activation (system s) = None));
    [| |exact Hla].
  - intros batch acc s0 Hs0.
    apply bind_agree. intros ids s1 R1.
    assert (E1 : system s1 = system s0).
    { eapply exits_system; [|exact R1].
      destruct bid as [idk|]; [|exits_rule exits_ret].
      exits_rule exits_bind; [exits_rule exits_subscript|intros v].
      destruct v; [|exits_rule exits_ret].
      exits_rule exits_bind; [exits_rule exits_lift_world|intros l].
      exits_rule exits_ret. }
    apply bind_agree. intros input s2 R2.
    assert (E2 : system s2 = system s1).
    { eapply exits_system; [|exact R2]. exits_rule exits_subscript. }
    apply bind_agree. intros outputs s3 R3.
    assert (E3 : system s3 = system s2).
    { eapply exits_system; [|exact R3]. exits_rule exits_predict_batch. }
    apply bind_agree. intros outputs' s4 R4.
    assert (E4 : system s4 = system s3).
    { eapply exits_system; [|exact R4].
      destruct mkey; [exits_rule exits_lift_world|exits_rule exits_ret]. }
    apply bind_agree. intros la s5 [= <- <-].
    assert (Hnone : last_activation (system s4) = None) by congruence.
    by rewrite Hnone.
  - intros batch acc s0 Hs0.
    assert (Hbody : exits 0 (default [] (lists s0 !! 0%nat)) eq eq
      (ids_list <-
          match bid with
          | Some key =>
              ids <- subscript batch key ;;
              match ids with
              | One t =>
                  l <- lift_world (tensor_tolist t) ;; ret (snd acc ++ l)
              | Many ts => ret (snd acc ++ map tensor_item ts)
              end
          | None => ret (snd acc)
          end ;;
        input <- subscript batch key ;;
        outputs <- predict_batch input ;;
        outputs <-
          match mkey with
          | Some key => lift_world (output_getitem outputs key)
          | None => ret outputs
          end ;;
        la <- gets (fun s => last_activation (system s)) ;;
        outputs <-
          match la with
          | Some f =>
              if false
              then lift_world (last_activation_call f outputs)
              else ret outputs
          | None => ret outputs
          end ;;
        l <- lift_world (output_tolist outputs) ;;
        ret (fst acc ++ l, ids_list))).
    { exits_rule exits_bind.
      { destruct bid as [idk|]; [|exits_rule exits_ret].
        exits_rule exits_bind; [exits_rule exits_subscript|intros ids].
        destruct ids; [|exits_rule exits_ret].
        exits_rule exits_bind; [exits_rule exits_lift_world|intros l].
        exits_rule exits_ret. }
      intros ids_list.
      exits_rule exits_bind; [exits_rule exits_subscript|intros input].
      exits_rule exits_bind; [exits_rule exits_predict_batch|intros outputs].
      exits_rule exits_bind.
      { destruct mkey; [exits_rule exits_lift_world|exits_rule exits_ret]. }
      intros outputs'.
      exits_rule exits_bind; [exits_rule exits_gets|intros la].
      exits_rule exits_bind.
      { destruct la; exits_rule exits_ret. }
      intros outputs''.
      exits_rule exits_bind; [exits_rule exits_lift_world|intros l].
      exits_rule exits_ret. }
    destruct (Hbody s0 eq_refl) as (_ & _ & Hsys & _).
    simpl. by rewrite <- Hsys.
Qed.

Lemma sat_pure_predict cbs g loader key keep :
  sat false 0 cbs g T (pure_predict loader key keep)
    (repeat (AModelCall false) (length loader))
    (fun r _ => length (output_list r) = length loader /\
                batch_list r = if keep then Some loader else None).
Proof.
  unfold pure_predict. eapply sat_acts.
  { eapply (sat_bind false 0 cbs g T _ _ _ _
              (fun acc _ => (fst acc = (if keep then loader else []) /\
                             length (snd acc) = length loader) /\ True)).
    { apply sat_with_no_grad.
      eapply sat_conseq;
        [apply (sat_for_fold false 0 cbs false T
                  (fun pre (acc : list Batch * list (Nested Tensor)) =>
                     fst acc = (if keep then pre else []) /\
                     length (snd acc) = length pre)
                  _ (fun _ => [AModelCall false]))
        | | |reflexivity].
      - intros pre batch post acc _.
        apply sat_pure. intros [Hfst Hsnd].
        eapply (sat_post false 0 cbs false T _ _ _
                  (fun acc' _ => fst acc' = (if keep then pre ++ [batch]
                                              else []) /\
                                 length (snd acc') = length (pre ++ [batch])));
          [|by intros acc' s' ?].
        eapply sat_acts.
        { eapply (sat_then false 0 cbs false T T);
            [prediction_step|intros input].
          eapply (sat_then false 0 cbs false T T);
            [prediction_step|intros output].
          eapply (sat_then false 0 cbs false T T);
            [apply sat_convert_nested|intros output'].
          eapply sat_post; [apply sat_ret|].
          intros acc' s' [-> _]. cbn [fst snd]. split.
          - destruct keep; [by rewrite Hfst|exact Hfst].
          - rewrite !length_app. simpl. lia. }
        reflexivity.
      - intros s _. split; [|done]. by destruct keep.
      - by intros acc s ?. }
    intros acc. apply sat_pure. intros [Hfst Hsnd].
    destruct keep.
    - eapply sat_post; [apply sat_ret|]. intros r s [-> _]. simpl.
      split; [exact Hsnd|by f_equal].
    - eapply sat_post; [apply sat_ret|]. by intros r s [-> _]. }
  rewrite concat_map_constant. by rewrite app_nil_r.
Qed.

(** X15.  What [pure_predict] did when it returns: one forward pass per
    batch, each without gradient tracking; one output per batch; the
    batches themselves, in order, iff [keep_batches] is set, and no
    ['batch_list'] otherwise; and every batch carried the input key. *)
Theorem X15_pure_predict_result loader key keep s r s' :
  pure_predict loader key keep s = Ret r s' ->
  actions s' = actions s ++ repeat (AModelCall false) (length loader) /\
  length (output_list r) = length loader /\
  batch_list r = (if keep then Some loader else None) /\
  Forall (has_input key) loader.
Proof.
  intros Hret.
  pose proof (sat_pure_predict (default [] (lists s !! 0%nat)) (grad_enabled s)
                loader key keep s eq_refl eq_refl I) as Hsat.
  rewrite Hret in Hsat. destruct Hsat as (_ & _ & Ha & Hlen & Hb).
  repeat split; try done.
  unfold pure_predict in Hret.
  apply bind_returns in Hret as (acc & s1 & Hloop & _).
  apply with_no_grad_returns in Hloop as (s2 & Hloop).
  pose proof (for_fold_returns _ _ _ _ _ _ Hloop) as Hall.
  apply Forall_forall. intros batch Hin. apply list_elem_of_In in Hin.
  destruct (Hall batch Hin) as (acc0 & s0 & acc1 & s3 & Hbody).
  apply bind_returns in Hbody as (input & s4 & Hsub & _).
  apply subscript_returns in Hsub. by exists input.
Qed.

Lemma shape_Dict {V} (items : list (string * Nested V)) :
  shape (Dict items) = Dict (map (fun kv => (fst kv, shape (snd kv))) items).
Proof.
  simpl. f_equal. induction items as [|[k v] items IH]; [done|].
  simpl. by rewrite IH.
Qed.

Lemma well_keyed_Dict {V} (items : list (string * Nested V)) :
  well_keyed (Dict items) <->
  NoDup (map fst items) /\ Forall (fun kv => well_keyed (snd kv)) items.
Proof.
  simpl. apply and_iff_compat_l.
  induction items as [|[k v] items IH]; simpl.
  - split; [constructor|done].
  - rewrite IH. split.
    + intros [? ?]. by constructor.
    + intros Hall. by inversion Hall.
Qed.

Lemma convert_nested_shape (n : Nested Output) :
  forall s c s', well_keyed n -> convert_nested n s = Ret c s' ->
    shape c = shape n /\ well_keyed c.
Proof.
  induction n as [o|items IH] using Nested_induction; intros s c s' Hwk Hret.
  - simpl in Hret. apply bind_returns in Hret as (t & s1 & _ & Hret).
    by injection Hret as <- _.
  - rewrite convert_nested_Dict in Hret.
    apply bind_returns in Hret as (d & s1 & Hloop & Hret).
    injection Hret as <- _.
    apply well_keyed_Dict in Hwk as [Hnodup Hall].
    enough (Hgen : forall acc s0,
              (forall k, In k (map fst items) -> ~ In k (dict_keys acc)) ->
              (fix loop (items : list (string * Nested Output))
                   (converted_output : dict (Nested Tensor))
                   : M Store (dict (Nested Tensor)) :=
                 match items with
                 | [] => ret converted_output
                 | (k, v) :: items' =>
                     c <- convert_nested v ;;
                     loop items' (dict_set k c converted_output)
                 end) items acc s0 = Ret d s1 ->
              exists cs, d = acc ++ cs /\
                map (fun kv => (fst kv, shape (snd kv))) cs =
                map (fun kv => (fst kv, shape (snd kv))) items /\
                Forall (fun kv => well_keyed (snd kv)) cs).
    { destruct (Hgen [] s (fun _ _ Hin => Hin) Hloop) as (cs & -> & Hsh & Hw).
      rewrite !shape_Dict. simpl. split; [by rewrite Hsh|].
      apply well_keyed_Dict. split; [|exact Hw].
      replace (map fst cs)
        with (map fst (map (fun kv : string * Nested Tensor =>
                              (fst kv, shape (snd kv))) cs))
        by (rewrite map_map; reflexivity).
      rewrite Hsh, map_map. exact Hnodup. }
    clear Hloop s.
    induction IH as [|[k v] items Hv _ IHitems]; intros acc s0 Hdisj Hloop.
    + injection Hloop as <- _. exists []. by rewrite app_nil_r.
    + apply bind_returns in Hloop as (c & s2 & Hc & Hloop).
      inversion Hnodup as [|? ? Hk Hnodup']; subst.
      inversion Hall as [|? ? Hwv Hall']; subst.
      destruct (Hv s0 c s2 Hwv Hc) as [Hshape Hwc].
      rewrite dict_set_new in Hloop by (apply Hdisj; by left).
      destruct (IHitems Hnodup' Hall' (acc ++ [(k, c)]) s2) as
        (cs & -> & Hsh & Hw); [|exact Hloop|].
      * intros k0 Hin. unfold dict_keys. rewrite map_app, in_app_iff.
        intros [Hacc|[<-|[]]].
        -- exact (Hdisj k0 (or_intror Hin) Hacc).
        -- apply Hk. by apply list_elem_of_In.
      * exists ((k, c) :: cs). rewrite <- app_assoc. split; [done|].
        simpl. rewrite Hshape, Hsh. split; [done|]. by constructor.
Qed.

(** X16.  [_pure_predict_convert_output] keeps the nesting and the keys:
    the converted value of an output whose dicts have distinct keys has
    the same dicts, with the same keys in the same order, and a leaf
    where the output has one. *)
Theorem X16_convert_keeps_shape output s c s' :
  well_keyed (output_nested output) ->
  _pure_predict_convert_output output s = Ret c s' ->
  shape c = shape (output_nested output) /\ well_keyed c.
Proof. apply convert_nested_shape. Qed.

End Prediction.

(** ** Saving and loading *)

Section Persistence.
Context `{Library}.

Lemma model_placement_train b m :
  model_placement (model_train b m) = model_placement m.
Proof. induction m; simpl; auto. Qed.

Lemma model_to_placement m : model_to (model_placement m) m = m.
Proof. induction m; simpl; [done|]. by rewrite IHm. Qed.

(** X17.  A system that [load] returns resides on the cpu, with its
    device attribute saying so, and is in inference mode; it is the
    model and last activation the file held, put through the
    constructor, so the file was one written by [save], not a state
    dict.  Loading leaves the current facade, the training context and
    the callbacks alone, whatever it does. *)
Theorem X17_loaded_system f s :
  (forall sys s', load f s = Ret sys s' ->
     (exists m la,
        torch_load_saved f (world s) = Ret (SavedSystem m la) (world s') /\
        sys = System__init__ m la cpu) /\
     _device sys = cpu /\ model_placement (model sys) = cpu /\
     model_training (model sys) = false) /\
  (let s' := outcome_store (load f s) in
   system s' = system s /\ training_context s' = training_context s /\
   lists s' = lists s /\ grad_enabled s' = grad_enabled s /\
   log s' = log s).
Proof.
  unfold load, bind, lift_world.
  destruct (torch_load_saved f (world s)) as [[m la|state] w|e w]; simpl.
  - split; [|done]. intros sys s' [= <- <-]. simpl.
    split; [by exists m, la|].
    rewrite model_placement_train, model_placement_to, model_training_train.
    done.
  - split.
    + intros sys s'. unfold subscript.
      destruct (dict_get "model" state); simpl; [|done].
      by destruct (dict_get "last_activation" state).
    + unfold subscript.
      destruct (dict_get "model" state); simpl; [|done].
      by destruct (dict_get "last_activation" state).
  - done.
Qed.

(** X18.  Saving and loading back: where the file system gives back what
    was saved, [load] after [save] returns the saved model and last
    activation, moved to the cpu and put in inference mode; for a facade
    that was on the cpu and in inference mode this is the facade that
    was saved. *)
Theorem X18_save_then_load f s s1 :
  (forall m la w w1, torch_save_system m la f w = Ret tt w1 ->
     exists w2, torch_load_saved f w1 = Ret (SavedSystem m la) w2) ->
  save f s = Ret tt s1 ->
  exists s2,
    load f s1 =
      Ret (System__init__ (model (system s)) (last_activation (system s)) cpu)
          s2 /\
    (_device (system s) = cpu -> model_placement (model (system s)) = cpu ->
     model_train false (model (system s)) = model (system s) ->
     System__init__ (model (system s)) (last_activation (system s)) cpu =
     system s).
Proof.
  intros Hfile Hsave. unfold save, bind, lift_world in Hsave. simpl in Hsave.
  destruct (torch_save_system (model (system s)) (last_activation (system s))
              f (world s)) as [[] w1|e w1] eqn:Hw; [|done].
  injection Hsave as <-.
  destruct (Hfile _ _ _ _ Hw) as (w2 & Hload).
  exists (set_world w2 (set_world w1 s)). split.
  - unfold load, bind, lift_world. simpl. by rewrite Hload.
  - intros Hd Hp Ht. unfold System__init__. rewrite <- Hp at 1.
    rewrite model_to_placement, Ht, <- Hd. by destruct (system s).
Qed.

Lemma prefix_drop (p k : string) :
  String.prefix p k = true ->
  k = String.append p (string_drop (String.length p) k).
Proof.
  revert k. induction p as [|a p IH]; intros k; [done|].
  destruct k as [|b k]; [done|].
  cbn [String.prefix String.length string_drop String.append].
  destruct (Ascii.ascii_dec a b) as [->|]; [|done].
  intros Hp. change (String b k = String b
    (String.append p (string_drop (String.length p) k))).
  by rewrite <- (IH k Hp).
Qed.

Lemma append_inj (p k1 k2 : string) :
  String.append p k1 = String.append p k2 -> k1 = k2.
Proof. induction p; simpl; [done|]. intros [= E]. auto. Qed.

Lemma dict_map_keys_fresh {V} (f : string -> string) (d acc : dict V) :
  NoDup (map f (dict_keys d)) ->
  (forall k, In k (map f (dict_keys d)) -> ~ In k (dict_keys acc)) ->
  fold_left (fun acc kv => dict_set (f (fst kv)) (snd kv) acc) d acc =
  acc ++ map (fun kv => (f (fst kv), snd kv)) d.
Proof.
  revert acc. induction d as [|[k v] d IH]; intros acc Hnd Hdisj; simpl.
  - by rewrite app_nil_r.
  - simpl in Hnd. inversion Hnd as [|? ? Hk Hnd']; subst.
    rewrite dict_set_new by (apply Hdisj; by left).
    rewrite IH; [by rewrite <- app_assoc|exact Hnd'|].
    intros k0 Hin. unfold dict_keys. rewrite map_app, in_app_iff.
    intros [Hacc|[<-|[]]].
    + exact (Hdisj k0 (or_intror Hin) Hacc).
    + apply Hk. by apply list_elem_of_In.
Qed.

Lemma module_prefix_round_trip {V} (d : dict V) :
  NoDup (dict_keys d) ->
  Forall (fun k => String.prefix "module." k = true) (dict_keys d) ->
  map (fun kv => (String.append "module." (fst kv), snd kv))
    (dict_map_keys (string_drop (String.length "module.")) d) = d.
Proof.
  intros Hnd Hpre. unfold dict_map_keys.
  rewrite dict_map_keys_fresh; [|
    |by intros k _ []].
  - cbn [app]. clear Hnd.
    induction d as [|[k v] d IH]; [done|].
    inversion Hpre as [|? ? Hpk Hpre']; subst.
    cbn [map fst snd]. rewrite (IH Hpre').
    by rewrite <- (prefix_drop "module." k Hpk).
  - induction d as [|[k v] d IH]; [constructor|].
    inversion Hnd as [|? ? Hk Hnd']; inversion Hpre as [|? ? Hpk Hpre'];
      subst.
    cbn [map dict_keys fst]. constructor; [|by apply IH].
    intros Hin. apply Hk. apply list_elem_of_In. apply list_elem_of_In in Hin.
    apply in_map_iff in Hin as (k' & Hk' & Hin').
    assert (Hpk' : String.prefix "module." k' = true).
    { rewrite Forall_forall in Hpre'. apply Hpre'.
      by apply list_elem_of_In. }
    rewrite (prefix_drop "module." k Hpk), <- Hk'.
    by rewrite <- (prefix_drop "module." k' Hpk').
Qed.

(** X19.  The key rewriting of [save_model_state] and of
    [load_model_state] for an [nn.DataParallel] model are inverse to
    each other on a state dict whose keys are distinct and all start
    with ['module.']: stripping the first seven characters and putting
    ['module.'] back gives the same dict, entries in the same order. *)
Theorem X19_module_prefix_round_trip (state : dict Tensor) :
  NoDup (dict_keys state) ->
  Forall (fun k => String.prefix "module." k = true) (dict_keys state) ->
  map (fun kv => (String.append "module." (fst kv), snd kv))
    (dict_map_keys (string_drop (String.length "module.")) state) = state.
Proof. apply module_prefix_round_trip. Qed.

(** X20.  [load_model_state] after [save_model_state]: where the file
    system gives back what was saved and, for an [nn.DataParallel]
    model, the keys of its state dict are distinct and start with
    ['module.'], the state that [load_state_dict] receives is the
    model's own state dict, with or without the wrapper; what follows is
    the model moved to the facade's device and the invalid keys
    returned. *)
Theorem X20_saved_state_loads_back f strict s s1 st w1 :
  (forall st' w w', torch_save_state st' f w = Ret tt w' ->
     exists w2, torch_load f w' = Ret st' w2) ->
  model_state_dict (model (system s)) (world s) = Ret st w1 ->
  (is_data_parallel (model (system s)) = true ->
   NoDup (dict_keys st) /\
   Forall (fun k => String.prefix "module." k = true) (dict_keys st)) ->
  save_model_state f s = Ret tt s1 ->
  exists w2,
    load_model_state f strict s1 =
    match load_state_dict (model (system s)) st strict w2 with
    | Ret invalid_keys w3 =>
        Ret invalid_keys
          (set_system (set_model (model_to (_device (system s))
                                    (model (system s))) (system s))
             (set_world w3 s1))
    | Raise e w3 => Raise e (set_world w3 s1)
    end.
Proof.
  intros Hfile Hstate Hkeys Hsave.
  unfold save_model_state in Hsave.
  apply bind_returns in Hsave as (m & s0 & [= <- <-] & Hsave).
  apply bind_returns in Hsave as (saved & s2 & Hdict & Hsave).
  assert (Hsaved : s2 = set_world w1 s /\
                   saved = if is_data_parallel (model (system s))
                           then dict_map_keys
                                  (string_drop (String.length "module.")) st
                           else st).
  { destruct (is_data_parallel (model (system s))).
    - apply bind_returns in Hdict as (st0 & s3 & Hst & [= <- <-]).
      unfold lift_world in Hst. rewrite Hstate in Hst.
      by injection Hst as <- <-.
    - unfold lift_world in Hdict. rewrite Hstate in Hdict.
      by injection Hdict as <- <-. }
  destruct Hsaved as [-> ->].
  unfold lift_world in Hsave. cbn [world set_world] in Hsave.
  destruct (torch_save_state _ f w1) as [[] w'|e w'] eqn:Hw; [|done].
  injection Hsave as <-.
  destruct (Hfile _ _ _ Hw) as (w2 & Hload).
  exists w2. unfold load_model_state, bind, lift_world.
  cbn [world set_world]. rewrite Hload.
  cbn [gets modify ret system set_world set_system world].
  destruct (is_data_parallel (model (system s))) eqn:Hdp.
  - destruct (Hkeys eq_refl) as [Hnd Hpre].
    rewrite (module_prefix_round_trip st Hnd Hpre).
    by destruct (load_state_dict (model (system s)) st strict w2).
  - by destruct (load_state_dict (model (system s)) st strict w2).
Qed.

End Persistence.

(** ** The entries of the results history *)

Section HistoryEntry.
Context `{Collaborators}.

Lemma Forall_dict_set {V} (P : V -> Prop) k v (d : dict V) :
  P v -> Forall (fun kv => P (snd kv)) d ->
  Forall (fun kv => P (snd kv)) (dict_set k v d).
Proof.
  intros Hv. induction d as [|[k' v'] d IH]; simpl; intros Hd.
  - by constructor.
  - inversion Hd; subst. destruct (String.eqb k k'); constructor; auto.
Qed.

Lemma train_evaluation_entry self cbs g loaders evs h0 :
  evaluation_data_loaders self = Some loaders ->
  evaluators self = Some evs ->
  NoDup (dict_keys loaders) -> NoDup (dict_keys evs) ->
  hooks_keep_history cbs ->
  exists acts,
    sat false (callbacks self) cbs g
      (fun s => _results_history (training_context s) = h0)
      (_train_evaluation self) acts
      (fun _ s => exists entry,
         _results_history (training_context s) = h0 ++ [entry] /\
         entry_shape loaders evs entry).
Proof.
  intros Hl He Hndl Hnde Hhooks.
  set (J0 := fun s : Store => _results_history (training_context s) = h0).
  set (J1 := fun s : Store => exists entry,
               _results_history (training_context s) = h0 ++ [entry] /\
               entry_shape loaders evs entry).
  set (R := fun (pre : list string) (acc : EpochResults) =>
              (NoDup pre -> dict_keys acc = pre) /\
              Forall (fun kv => dict_keys (snd kv) = dict_keys evs) acc).
  assert (Ht : false = true -> no_raise self cbs) by done.
  assert (HK0 : hooks_keep cbs J0).
  { intros cb h i s v' Hin Hs Hv. unfold J0 in *. simpl.
    rewrite (Hhooks cb h _ _ Hin Hv). exact Hs. }
  assert (HK1 : hooks_keep cbs J1).
  { intros cb h i s v' Hin (e & Hs & Hsh) Hv. exists e. split; [|done].
    simpl. rewrite (Hhooks cb h _ _ Hin Hv). exact Hs. }
  assert (Hw : keeps_world J0) by (by intros s w Hs).
  assert (Hr : keeps_record J0) by (by intros s a _ _ Hs).
  eexists. unfold _train_evaluation. rewrite Hl, He.
  eapply (sat_then false _ cbs g J0 J0).
  { by apply fire_keeps. }
  intros _.
  eapply (sat_bind false _ cbs g J0 _ _ _ _
            (fun res s => R (dict_keys loaders) res /\ J0 s)).
  { eapply sat_conseq;
      [apply (sat_for_fold false _ cbs g J0 R _
                (fun name => evaluate_actions (dict_keys evs)
                   (length (default [] (dict_get name loaders)))))
      | | |reflexivity].
    - intros pre name post res Hpos. apply sat_pure. intros [Hkeys Hall].
      assert (Hname : In name (dict_keys loaders)).
      { rewrite Hpos. apply in_or_app. right. by left. }
      destruct (dict_get_is_Some name loaders Hname) as [loader Hget].
      unfold subscript. rewrite Hget. apply sat_bind_ret.
      eapply sat_acts.
      { eapply sat_bind.
        { apply (sat_evaluate false _ cbs g J0 loader evs
                   (batch_input_key self) Hw Hr); [done|].
          intros s Hs. exact Hs. }
        intros r.
        eapply sat_conseq;
          [apply (sat_ret false _ cbs g
                    (fun s => J0 s /\ result_keys (dict_keys evs) r))
          |done| |reflexivity].
        intros b s [-> [Hs Hrk]]. split; [|exact Hs]. split.
        - intros Hnd. apply NoDup_app in Hnd as (Hpre & Hfresh & _).
          rewrite dict_keys_set_fresh.
          + by rewrite (Hkeys Hpre).
          + rewrite (Hkeys Hpre). intros Hk. apply (Hfresh name).
            * by apply list_elem_of_In.
            * by left.
        - apply (Forall_dict_set
                   (fun v : dict Result => dict_keys v = dict_keys evs));
            [|exact Hall].
          exact (proj2 Hrk Hnde). }
      simpl. by rewrite app_nil_r.
    - intros s Hs. split; [|exact Hs]. split; [done|constructor].
    - done. }
  intros current_results. apply sat_pure. intros [Hkeys Hall].
  eapply sat_bind; [apply sat_modify_context|intros u1].
  eapply (sat_then false _ cbs g _ J1).
  { eapply sat_post; [apply sat_record|].
    intros u2 s2 (s1 & (s & Hs & ->) & ->).
    exists current_results. simpl. split; [by rewrite Hs|].
    split; [by apply Hkeys|exact Hall]. }
  intros _. by apply fire_keeps.
Qed.

(** X21.  The entry that an evaluation phase adds to the history.  When
    [_train_evaluation] returns, both mappings being supplied and their
    keys distinct, with callbacks that leave the history alone: the
    history has one more entry, at its end; the entry has the dataset
    names as keys, in the order of the data loaders, and under each of
    them a dict with the evaluator names as keys, in their order. *)
Theorem X21_history_entry self cbs loaders evs s u s' :
  lists s !! callbacks self = Some cbs ->
  evaluation_data_loaders self = Some loaders ->
  evaluators self = Some evs ->
  NoDup (dict_keys loaders) -> NoDup (dict_keys evs) ->
  hooks_keep_history cbs ->
  _train_evaluation self s = Ret u s' ->
  exists entry,
    _results_history (training_context s') =
      _results_history (training_context s) ++ [entry] /\
    entry_shape loaders evs entry.
Proof.
  intros Hcbs Hl He Hndl Hnde Hhooks Hret.
  destruct (train_evaluation_entry self cbs (grad_enabled s) loaders evs
              (_results_history (training_context s)) Hl He Hndl Hnde Hhooks)
    as [acts Hsat].
  specialize (Hsat s). rewrite Hcbs, Hret in Hsat.
  by destruct (Hsat eq_refl eq_refl eq_refl) as (_ & _ & _ & Hentry).
Qed.

End HistoryEntry.

(** * Concrete runs of the further properties *)

#[local] Existing Instance toy_library.

Lemma toy_loss_wrapper_respects :
  loss_wrapper_respects eq same_epoch.
Proof. by intros lw o b la v. Qed.

Lemma toy_callbacks_respect cbs :
  Forall (fun cb => cb = toy_observer \/
            exists n, cb = NumberOfEpochsStoppingCriterionCallback n) cbs ->
  hooks_respect cbs eq same_epoch.
Proof.
  intros Hall cb h v Hin. rewrite Forall_forall in Hall.
  destruct (Hall cb (proj2 (list_elem_of_In _ _) Hin)) as [->|[n ->]].
  - by split.
  - destruct (number_of_epochs_respects n h v) as [Hs He]. by split.
Qed.

Lemma toy_first_callbacks :
  Forall (fun cb => cb = toy_observer \/
            exists n, cb = NumberOfEpochsStoppingCriterionCallback n)
    (init_callbacks (Some 0%nat) (toy_store [toy_observer])).
Proof.
  change (init_callbacks (Some 0%nat) (toy_store [toy_observer]))
    with [toy_observer; NumberOfEpochsStoppingCriterionCallback 1].
  constructor; [by left|]. constructor; [right; by eexists|]. constructor.
Qed.

Lemma toy_observer_alone :
  Forall (fun cb => cb = toy_observer \/
            exists n, cb = NumberOfEpochsStoppingCriterionCallback n)
    [toy_observer].
Proof. constructor; [by left|constructor]. Qed.

Lemma toy_first_run :
  train 3 toy_loss_wrapper toy_optimizer (toy_loader 2) None "input" None
    (Some 0%nat) 1 (toy_store [toy_observer]) = Some toy_first_outcome.
Proof. vm_compute. reflexivity. Qed.

Lemma X2_train_epoch_every_exit_witness :
  lists (toy_store [toy_observer]) !! callbacks (toy_trainer 5 2 false) =
    Some [toy_observer] /\
  model_training (model (system toy_epoch_end)) = true /\
  _current_epoch (training_context toy_epoch_end) = 0%Z.
Proof.
  split; [reflexivity|].
  destruct (X2_train_epoch_every_exit (toy_trainer 5 2 false) [toy_observer]
              (toy_store [toy_observer]) eq_refl
              (toy_callbacks_respect [toy_observer] toy_observer_alone)
              toy_loss_wrapper_respects) as (Hs & He & _).
  unfold toy_epoch_end. rewrite Hs, He. by split.
Defined.

Lemma X3_train_every_exit_witness :
  train 3 toy_loss_wrapper toy_optimizer (toy_loader 2) None "input" None
    (Some 0%nat) 1 (toy_store [toy_observer]) = Some toy_first_outcome /\
  _device (system (outcome_store toy_first_outcome)) = cpu /\
  model_placement (model (system (outcome_store toy_first_outcome))) = cpu /\
  grad_enabled (outcome_store toy_first_outcome) = true.
Proof.
  split; [exact toy_first_run|].
  destruct (X3_train_every_exit 3 toy_loss_wrapper toy_optimizer
              (toy_loader 2) None "input" None (Some 0%nat) 1
              (toy_store [toy_observer]) toy_first_outcome)
    as (_ & Hd & _ & Hp & _ & Hg).
  - eapply hooks_respect_weaken;
      [| |exact (toy_callbacks_respect _ toy_first_callbacks)]; done.
  - eapply loss_wrapper_respects_weaken;
      [| |exact toy_loss_wrapper_respects]; done.
  - exact toy_first_run.
  - rewrite Hd, Hp, Hg. split; [reflexivity|]. split; reflexivity.
Defined.


Lemma X5_epoch_without_steps_witness :
  lists (toy_store [toy_observer]) !! callbacks (toy_trainer 2 0 false) =
    Some [toy_observer] /\
  train_data_loader (toy_trainer 2 0 false) <> [] /\
  gradient_accumulation_steps (toy_trainer 2 0 false) = 0%Z /\
  exists s',
    _train_epoch (toy_trainer 2 0 false) (toy_store [toy_observer]) =
      Raise ZeroDivisionError s' /\
    actions s' =
      [AModelTrain true; AHook on_epoch_start 0; AOptimizerZeroGrad].
Proof.
  split; [reflexivity|]. split; [discriminate|]. split; [reflexivity|].
  destruct (X5_epoch_without_steps (toy_trainer 2 0 false) [toy_observer]
              (toy_store [toy_observer]) eq_refl) as [_ Hzero].
  - intros cb v [<-|[]]. by eexists.
  - intros cb v [<-|[]]. by eexists.
  - intros o w. by eexists _, _.
  - exact (Hzero ltac:(discriminate) eq_refl).
Defined.

Lemma X6_no_batch_is_skipped_witness :
  exists res s',
    evaluate [toy_batch 7] [("acc"%string, toy_evaluator)] "input"
      (toy_store []) = Ret res s' /\
    Forall (has_input "input") [toy_batch 7].
Proof.
  eexists _, _. split; [vm_compute; reflexivity|].
  match goal with |- Forall _ ?loader =>
    eapply (proj2 X6_no_batch_is_skipped loader
              [("acc"%string, toy_evaluator)] "input"%string (toy_store []))
  end.
  vm_compute. reflexivity.
Defined.

Lemma toy_observer_leaves_slots : hooks_leave_slots [toy_observer].
Proof. intros cb h v v' [<-|[]] [= <-]. done. Qed.

Lemma toy_loss_wrapper_leaves_slots : loss_wrapper_leaves_slots.
Proof. intros lw o b la v x v' [= _ <-]. done. Qed.

Lemma X7_slots_clear_after_batch_witness :
  lists (toy_store [toy_observer]) !! callbacks (toy_trainer 2 1 false) =
    Some [toy_observer] /\
  exists l s',
    _train_batch (toy_trainer 2 1 false) (toy_batch 3) true
      (toy_store [toy_observer]) = Ret l s' /\
    current_loss (training_context s') = None /\
    current_batch (training_context s') = None /\
    current_output (training_context s') = None.
Proof.
  split; [reflexivity|]. eexists _, _. split; [vm_compute; reflexivity|].
  match goal with |- current_loss (training_context ?s') = _ /\ _ =>
    destruct (X7_slots_clear_after_batch (toy_trainer 2 1 false)
                [toy_observer] (toy_batch 3) true (toy_store [toy_observer])
                3%Z s' eq_refl) as [Hloss Hslots]
  end.
  - vm_compute. reflexivity.
  - split; [exact Hloss|].
    exact (Hslots toy_observer_leaves_slots toy_loss_wrapper_leaves_slots).
Defined.

Lemma toy_first_keep_epoch :
  hooks_keep_epoch (init_callbacks (Some 0%nat) (toy_store [toy_observer])).
Proof.
  intros cb h v v' Hin Hret.
  destruct (toy_callbacks_respect _ toy_first_callbacks cb h v Hin) as [_ He].
  rewrite Hret in He. exact He.
Qed.

Lemma toy_loss_wrapper_keeps_epoch : loss_wrapper_keeps_epoch.
Proof. intros lw o b la v x v' [= _ <-]. done. Qed.

Lemma X8_epoch_index_counts_epochs_witness :
  exists hist s',
    train 3 toy_loss_wrapper toy_optimizer (toy_loader 2) None "input" None
      (Some 0%nat) 1 (toy_store [toy_observer]) = Some (Ret hist s') /\
    exists epochs new,
      actions s' = actions (toy_store [toy_observer]) ++ new /\
      count_occ Action_eq_dec new (AModelTrain true) = epochs /\
      _current_epoch (training_context s') = (Z.of_nat epochs - 1)%Z.
Proof.
  eexists _, _. split; [vm_compute; reflexivity|].
  eapply (X8_epoch_index_counts_epochs 3 toy_loss_wrapper toy_optimizer
            (toy_loader 2) None "input" None (Some 0%nat) 1
            (toy_store [toy_observer]));
    [exact toy_first_keep_epoch|exact toy_loss_wrapper_keeps_epoch|].
  vm_compute. reflexivity.
Defined.

Lemma X9_first_epoch_always_runs_witness :
  exists hist s',
    train 3 toy_loss_wrapper toy_optimizer (toy_loader 2) None "input" None
      (Some 0%nat) 1 (toy_store [toy_observer]) = Some (Ret hist s') /\
    exists new,
      actions s' = actions (toy_store [toy_observer]) ++ new /\
      (1 <= count_occ Action_eq_dec new (AModelTrain true))%nat.
Proof.
  eexists _, _. split; [vm_compute; reflexivity|].
  eapply (X9_first_epoch_always_runs 3 toy_loss_wrapper toy_optimizer
            (toy_loader 2) None "input" None (Some 0%nat) 1
            (toy_store [toy_observer])).
  - intros cb v v' Hin Hret Hflag.
    change (init_callbacks (Some 0%nat) (toy_store [toy_observer]))
      with [toy_observer; NumberOfEpochsStoppingCriterionCallback 1] in Hin.
    destruct Hin as [<-|[<-|[]]]; injection Hret as <-; exact Hflag.
  - vm_compute. reflexivity.
Defined.




Lemma X14_absent_last_activation_witness :
  last_activation (system (toy_store [])) = None /\
  predict toy_id_loader true (Some "id"%string) "input" None (toy_store []) =
  predict toy_id_loader false (Some "id"%string) "input" None (toy_store []).
Proof.
  split; [reflexivity|].
  exact (X14_absent_last_activation toy_id_loader (Some "id"%string)
           "input"%string None (toy_store []) eq_refl).
Defined.

Lemma X15_pure_predict_result_witness :
  exists r s',
    pure_predict toy_heads_loader "input" true (toy_store []) = Ret r s' /\
    length (output_list r) = 2%nat /\
    batch_list r = Some toy_heads_loader.
Proof.
  destruct (pure_predict toy_heads_loader "input" true (toy_store []))
    as [r s'|e s'] eqn:Hrun; [|by vm_compute in Hrun].
  exists r, s'. split; [reflexivity|].
  destruct (X15_pure_predict_result toy_heads_loader "input"%string true
              (toy_store []) r s' Hrun) as (_ & Hlen & Hb & _).
  split; [exact Hlen|exact Hb].
Defined.

Lemma X16_convert_keeps_shape_witness :
  well_keyed (output_nested 100%Z) /\
  exists c s',
    _pure_predict_convert_output 100%Z (toy_store []) = Ret c s' /\
    shape c =
      Dict [("logits"%string, Leaf tt);
            ("aux"%string, Dict [("hidden"%string, Leaf tt)])].
Proof.
  assert (Hwk : well_keyed (output_nested 100%Z)).
  { change (well_keyed
              (Dict [("logits"%string, Leaf 100%Z);
                     ("aux"%string, Dict [("hidden"%string, Leaf 101%Z)])])).
    cbn [well_keyed map fst].
    repeat split; apply (bool_decide_unpack _); vm_compute; exact I. }
  split; [exact Hwk|].
  destruct (_pure_predict_convert_output (100%Z : @Output toy_runtime) (toy_store []))
    as [c s'|e s'] eqn:Hrun; [|by vm_compute in Hrun].
  exists c, s'. split; [reflexivity|].
  exact (proj1 (X16_convert_keeps_shape (100%Z : @Output toy_runtime) (toy_store []) c s'
                  Hwk Hrun)).
Defined.

Lemma X17_loaded_system_witness :
  exists sys s',
    load toy_file (toy_store []) = Ret sys s' /\
    _device sys = cpu /\ model_placement (model sys) = cpu /\
    model_training (model sys) = false.
Proof.
  destruct (load toy_file (toy_store [])) as [sys s'|e s'] eqn:Hrun;
    [|by vm_compute in Hrun].
  exists sys, s'. split; [reflexivity|].
  destruct (proj1 (X17_loaded_system toy_file (toy_store [])) sys s' Hrun)
    as (_ & Hd & Hp & Ht).
  split; [exact Hd|]. split; [exact Hp|exact Ht].
Defined.

Lemma X19_module_prefix_round_trip_witness :
  NoDup (dict_keys [("module.weight"%string, 1%Z);
                    ("module.bias"%string, 2%Z)]) /\
  map (fun kv : string * Z => (String.append "module." (fst kv), snd kv))
    (dict_map_keys (string_drop (String.length "module."))
       [("module.weight"%string, 1%Z); ("module.bias"%string, 2%Z)]) =
  [("module.weight"%string, 1%Z); ("module.bias"%string, 2%Z)].
Proof.
  assert (Hnd : NoDup (dict_keys [("module.weight"%string, 1%Z);
                                  ("module.bias"%string, 2%Z)])).
  { apply (bool_decide_unpack _). vm_compute. exact I. }
  split; [exact Hnd|].
  apply (@X19_module_prefix_round_trip toy_runtime); [exact Hnd|].
  repeat constructor.
Defined.

Lemma X21_history_entry_witness :
  lists (toy_store [toy_observer]) !! callbacks (toy_trainer 3 2 true) =
    Some [toy_observer] /\
  exists s',
    _train_evaluation (toy_trainer 3 2 true) (toy_store [toy_observer]) =
      Ret tt s' /\
    exists entry,
      _results_history (training_context s') = [entry] /\
      dict_keys entry = ["dev"%string] /\
      Forall (fun kv => dict_keys (snd kv) = ["acc"%string]) entry.
Proof.
  split; [reflexivity|].
  destruct (_train_evaluation (toy_trainer 3 2 true)
              (toy_store [toy_observer])) as [[] s'|e s'] eqn:Hrun;
    [|by vm_compute in Hrun].
  exists s'. split; [reflexivity|].
  destruct (X21_history_entry (toy_trainer 3 2 true) [toy_observer]
              [("dev"%string, toy_loader 1)] [("acc"%string, toy_evaluator)]
              (toy_store [toy_observer]) tt s' eq_refl eq_refl eq_refl)
    as (entry & Hhist & Hkeys & Hall).
  - apply (bool_decide_unpack _). vm_compute. exact I.
  - apply (bool_decide_unpack _). vm_compute. exact I.
  - intros cb h v v' [<-|[]] [= <-]. done.
  - exact Hrun.
  - exists entry. split; [exact Hhist|]. split; [exact Hkeys|exact Hall].
Defined.

Section DiskRuns.
#[local] Existing Instance disk_runtime.
#[local] Existing Instance disk_collaborators.
#[local] Existing Instance disk_library.

Lemma dict_get_set {V} (k : string) (v : V) (d : dict V) :
  dict_get k (dict_set k v d) = Some v.
Proof.
  induction d as [|[k' v'] d IH]; simpl.
  - by rewrite String.eqb_refl.
  - destruct (String.eqb k k') eqn:E; simpl.
    + by rewrite String.eqb_refl.
    + by rewrite E.
Qed.

Lemma disk_gives_back_system (f : @File disk_runtime) :
  forall m la (w w1 : dict DiskFile),
    torch_save_system m la f w = Ret tt w1 ->
    exists w2, torch_load_saved f w1 = Ret (SavedSystem m la) w2.
Proof.
  intros m la w w1 [= <-]. exists (dict_set f (inl (m, la)) w).
  simpl. by rewrite dict_get_set.
Qed.

Lemma disk_gives_back_state (f : @File disk_runtime) :
  forall st (w w' : dict DiskFile),
    torch_save_state st f w = Ret tt w' ->
    exists w2, torch_load f w' = Ret st w2.
Proof.
  intros st w w' [= <-]. exists (dict_set f (inr st) w).
  simpl. by rewrite dict_get_set.
Qed.

Lemma X18_save_then_load_witness :
  exists s1 s2,
    save disk_system_file (disk_store (Net true cpu)) = Ret tt s1 /\
    load disk_system_file s1 = Ret (system (disk_store (Net true cpu))) s2.
Proof.
  destruct (save disk_system_file (disk_store (Net true cpu)))
    as [[] s1|e s1] eqn:Hsave; [|by vm_compute in Hsave].
  destruct (X18_save_then_load disk_system_file (disk_store (Net true cpu)) s1
              (disk_gives_back_system disk_system_file) Hsave)
    as (s2 & Hload & Hsame).
  exists s1, s2. split; [reflexivity|].
  rewrite Hload. by rewrite Hsame.
Defined.

Lemma X20_saved_state_loads_back_witness :
  exists s1 s2,
    save_model_state disk_state_file (disk_store disk_wrapped) = Ret tt s1 /\
    load_model_state disk_state_file true s1 = Ret ([], []) s2 /\
    system s2 = system (disk_store disk_wrapped).
Proof.
  destruct (save_model_state disk_state_file (disk_store disk_wrapped))
    as [[] s1|e s1] eqn:Hsave; [|by vm_compute in Hsave].
  destruct (X20_saved_state_loads_back disk_state_file true
              (disk_store disk_wrapped) s1
              [("module.weight"%string, 1%Z); ("module.bias"%string, 2%Z)]
              [] (disk_gives_back_state disk_state_file) eq_refl)
    as (w2 & Hload).
  - intros _. split; [apply (bool_decide_unpack _); vm_compute; exact I|].
    repeat constructor.
  - exact Hsave.
  - exists s1. eexists. split; [reflexivity|].
    rewrite Hload. split; reflexivity.
Defined.

End DiskRuns.
